(** * DOTG: learner model and question-quality scorer

    A shallow embedding of [userProfile.py] and of the scoring and parsing
    functions of [evaluation_metrics.py], with the properties the
    specification states about them.

    Conventions of the embedding:
    - Python numbers (ints and floats alike) are exact rationals [Q];
      integer counters are [Z]. The rounding of the float operations is not
      part of the embedding: a bound that holds in exact arithmetic and that
      rounding can cross by a unit in the last place is stated with a margin,
      or not stated. The conversion of an int that is too large for a float
      raises [OverflowError], as it does in Python.
    - A call that can raise returns a [result]: its value or its exception.
    - The files are a store that tells, for a path, what opening and reading
      it gives; the errors of opening a file are part of the store.
    - Python [str] values are Rocq [string]s, one [ascii] per code point
      (code points below 256).
    - A [dict] used as a map is a [gmap]; a [dict] used as a record is a
      Rocq [Record] or, where it is serialised, a list of key/value pairs.
    - Reading the clock is an input: [add_response] receives the timestamp. *)

From Stdlib Require Import ZArith QArith Qround String Ascii List Lia Lqa.
From Stdlib Require DecimalString DecimalZ DecimalPos.
From stdpp Require Import gmap strings list fin_maps sorting.

Open Scope Q_scope.

(** ** Python arithmetic on numbers *)

Definition Qltb (a b : Q) : bool := negb (Qle_bool b a).

(** [max(a, b)]: the first argument is kept unless the second is strictly
    greater. *)
Definition py_max (a b : Q) : Q := if Qltb a b then b else a.

(** [min(a, b)]: the first argument is kept unless the second is strictly
    smaller. *)
Definition py_min (a b : Q) : Q := if Qltb b a then b else a.

(** [sum(l)]: left-to-right accumulation starting from 0. *)
Definition py_sum (l : list Q) : Q := fold_left Qplus l 0.

(** [len(l)] as a number. *)
Definition py_len {A : Type} (l : list A) : Q := inject_Z (Z.of_nat (length l)).

(** Number of elements of [l] on which [f] is true:
    [sum(1 for x in l if f(x))]. *)
Fixpoint count_if {A : Type} (f : A -> bool) (l : list A) : nat :=
  match l with
  | [] => 0%nat
  | x :: l' => if f x then S (count_if f l') else count_if f l'
  end.

(** ** Exceptions *)

(** The exceptions the embedded code can meet. [OSError] stands for the
    errors of the operating system that have no class of their own here (a
    name that is too long, a read-only file system and the like). *)
Inductive exn :=
| FileNotFoundError
| PermissionError
| IsADirectoryError
| NotADirectoryError
| OSError
| ValueError
| UnicodeDecodeError
| JSONDecodeError
| TypeError
| OverflowError
| RecursionError.

Inductive result (A : Type) :=
| Returns (a : A)
| Raises (e : exn).
Arguments Returns {A} a.
Arguments Raises {A} e.

Definition bind_result {A B : Type} (r : result A) (k : A -> result B) : result B :=
  match r with
  | Returns a => k a
  | Raises e => Raises e
  end.

(** The conversion of an integer to a float, as in [n / 5.0]: an integer
    converts when it rounds to a finite double, that is when its absolute
    value is below [2 ** 1024 - 2 ** 970]; beyond, Python raises
    [OverflowError]. *)
Definition float_limit : Z := (2 ^ 1024 - 2 ^ 970)%Z.

Definition float_of_int (n : Z) : result Q :=
  if (Z.abs n <? float_limit)%Z then Returns (inject_Z n)
  else Raises OverflowError.

(** ** userProfile.py *)

(** One entry of [performance_history]. *)
Record response := {
  timestamp : string;
  question_id : string;
  ev_correct : bool;
  ev_time_taken : Q;
  ev_difficulty : string;
  ev_topic : string;
  ev_confidence : option Z
}.

(** One entry of [topics_mastery]: [{"correct": c, "total": n}]. *)
Record mastery := { tm_correct : Z; tm_total : Z }.

Record UserProfile := {
  user_id : string;
  performance_history : list response;
  skill_level : Q;
  topics_mastery : gmap string mastery;
  response_times : list Q;
  accuracy_rate : Q;
  current_difficulty : string;
  confidence_scores : list Z
}.

(** [UserProfile.__init__]. *)
Definition init (uid : string) : UserProfile := {|
  user_id := uid;
  performance_history := [];
  skill_level := 1500;
  topics_mastery := ∅;
  response_times := [];
  accuracy_rate := 0;
  current_difficulty := "medium";
  confidence_scores := []
|}.

(** Truth value of the optional [confidence] argument: [None] and [0] are
    false. *)
Definition confidence_truthy (confidence : option Z) : bool :=
  match confidence with
  | Some c => negb (c =? 0)%Z
  | None => false
  end.

Definition difficulty_multipliers : gmap string Q :=
  <["easy" := 8 # 10]> (<["medium" := 1]> (<["hard" := 12 # 10]> ∅)).

Definition set_skill_level (self : UserProfile) (s : Q) : UserProfile := {|
  user_id := user_id self;
  performance_history := performance_history self;
  skill_level := s;
  topics_mastery := topics_mastery self;
  response_times := response_times self;
  accuracy_rate := accuracy_rate self;
  current_difficulty := current_difficulty self;
  confidence_scores := confidence_scores self
|}.

(** [UserProfile._update_skill_level]. The division [confidence / 5.0]
    raises when the confidence does not convert to a float; [skill_level]
    is assigned on the last line only. *)
Definition _update_skill_level (self : UserProfile) (correct : bool)
    (difficulty : string) (time_taken : Q) (confidence : option Z)
    : result UserProfile :=
  let multiplier := default 1 (difficulty_multipliers !! difficulty) in
  let base_change := 30 * multiplier in
  let avg_time :=
    match response_times self with
    | [] => 30
    | _ => py_sum (response_times self) / py_len (response_times self)
    end in
  let time_factor :=
    if Qltb 0 time_taken
    then py_max (5 # 10) (py_min (15 # 10) (avg_time / time_taken))
    else 1 in
  bind_result
    (match confidence with
     | Some c =>
         if confidence_truthy confidence
         then bind_result (float_of_int c) (fun c => Returns (c / 5))
         else Returns 1
     | None => Returns 1
     end)
    (fun confidence_factor =>
  let skill_change :=
    if correct
    then base_change * time_factor * confidence_factor
    else - base_change * confidence_factor in
  Returns
    (set_skill_level self (py_max 800 (py_min 2200 (skill_level self + skill_change))))).

Definition bump_total (m : mastery) : mastery :=
  {| tm_correct := tm_correct m; tm_total := (tm_total m + 1)%Z |}.

Definition bump_correct (m : mastery) : mastery :=
  {| tm_correct := (tm_correct m + 1)%Z; tm_total := tm_total m |}.

(** The attributes of the object when [add_response] reaches its last
    line, the call of [_update_skill_level]; [now] is
    [datetime.now().isoformat()]. *)
Definition recorded (self : UserProfile) (now : string) (qid : string)
    (correct : bool) (time_taken : Q) (difficulty topic : string)
    (confidence : option Z) : UserProfile :=
  let history := performance_history self ++
    [ {| timestamp := now; question_id := qid; ev_correct := correct;
         ev_time_taken := time_taken; ev_difficulty := difficulty;
         ev_topic := topic; ev_confidence := confidence |} ] in
  let times := response_times self ++ [time_taken] in
  let tm0 :=
    match topics_mastery self !! topic with
    | None => <[topic := {| tm_correct := 0; tm_total := 0 |}]> (topics_mastery self)
    | Some _ => topics_mastery self
    end in
  let tm1 := alter bump_total topic tm0 in
  let tm2 := if correct then alter bump_correct topic tm1 else tm1 in
  let total := length history in
  let correct_count := count_if ev_correct history in
  let accuracy :=
    if (0 <? total)%nat
    then inject_Z (Z.of_nat correct_count) / inject_Z (Z.of_nat total)
    else 0 in
  let scores :=
    match confidence with
    | Some c => if confidence_truthy confidence
                then confidence_scores self ++ [c]
                else confidence_scores self
    | None => confidence_scores self
    end in
  {| user_id := user_id self;
     performance_history := history;
     skill_level := skill_level self;
     topics_mastery := tm2;
     response_times := times;
     accuracy_rate := accuracy;
     current_difficulty := current_difficulty self;
     confidence_scores := scores |}.

(** [UserProfile.add_response]: the object after the call. The method
    updates the object in place, so when its last line raises, the
    attributes recorded before stay and [skill_level] keeps its value. *)
Definition add_response (self : UserProfile) (now : string) (qid : string)
    (correct : bool) (time_taken : Q) (difficulty topic : string)
    (confidence : option Z) : UserProfile :=
  let self' := recorded self now qid correct time_taken difficulty topic confidence in
  match _update_skill_level self' correct difficulty time_taken confidence with
  | Returns updated => updated
  | Raises _ => self'
  end.


(** Recording one event: [add_response] applied to the event's fields. *)
Definition record_response (self : UserProfile) (e : response) : UserProfile :=
  add_response self (timestamp e) (question_id e) (ev_correct e)
    (ev_time_taken e) (ev_difficulty e) (ev_topic e) (ev_confidence e).

(** A session: the calls are made in order on the same object. *)
Definition replay (self : UserProfile) (calls : list response) : UserProfile :=
  fold_left record_response calls self.

(** The profile after each call of a session, in order. *)
Fixpoint profiles_after (self : UserProfile) (calls : list response)
    : list UserProfile :=
  match calls with
  | [] => []
  | e :: rest =>
      let self' := record_response self e in
      self' :: profiles_after self' rest
  end.

(** ** Persistence: [UserProfile.save] and [UserProfile.load] *)

(** The values [json.dump] writes and [json.load] reads back. *)
#[warnings="-register-all"] Inductive json :=
| JNull
| JBool (b : bool)
| JNum (q : Q)
| JStr (s : string)
| JArr (items : list json)
| JObj (fields : list (string * json)).

Definition json_of_confidence (confidence : option Z) : json :=
  match confidence with
  | Some c => JNum (inject_Z c)
  | None => JNull
  end.

Definition json_of_response (e : response) : json :=
  JObj [ ("timestamp", JStr (timestamp e));
         ("question_id", JStr (question_id e));
         ("correct", JBool (ev_correct e));
         ("time_taken", JNum (ev_time_taken e));
         ("difficulty", JStr (ev_difficulty e));
         ("topic", JStr (ev_topic e));
         ("confidence", json_of_confidence (ev_confidence e)) ].

Definition json_of_mastery (m : mastery) : json :=
  JObj [ ("correct", JNum (inject_Z (tm_correct m)));
         ("total", JNum (inject_Z (tm_total m))) ].

(** [self.__dict__]: the attributes of a profile object, in the order
    [__init__] creates them. *)
Definition profile_dict (self : UserProfile) : list (string * json) :=
  [ ("user_id", JStr (user_id self));
    ("performance_history", JArr (json_of_response <$> performance_history self));
    ("skill_level", JNum (skill_level self));
    ("topics_mastery",
       JObj (prod_map id json_of_mastery <$> map_to_list (topics_mastery self)));
    ("response_times", JArr (JNum <$> response_times self));
    ("accuracy_rate", JNum (accuracy_rate self));
    ("current_difficulty", JStr (current_difficulty self));
    ("confidence_scores", JArr ((fun c => JNum (inject_Z c)) <$> confidence_scores self)) ].

(** [d[k] = v] on a dictionary kept as a list of items. *)
Fixpoint dict_set (d : list (string * json)) (k : string) (v : json)
    : list (string * json) :=
  match d with
  | [] => [(k, v)]
  | (k', v') :: d' =>
      if String.eqb k' k then (k', v) :: d' else (k', v') :: dict_set d' k v
  end.

(** [d.update(data)]. *)
Definition dict_update (d data : list (string * json)) : list (string * json) :=
  fold_left (fun acc kv => dict_set acc (fst kv) (snd kv)) data d.

(** [d.get(k)]. *)
Definition dict_get (d : list (string * json)) (k : string) : option json :=
  snd <$> List.find (fun kv => String.eqb (fst kv) k) d.

(** *** The text that [json.dump] writes and [json.load] reads *)


































(** *** The files *)

(** What [json.load] makes of a file that was opened: it rejects its text
    ([JSONDecodeError]), it gives a JSON object, it gives another JSON
    value, or it raises another error: [UnicodeDecodeError] for bytes that
    are not UTF-8, [ValueError] for an integer of more digits than [int()]
    converts, [RecursionError] for values nested too deep. *)
Inductive contents :=
| Garbled
| Document (fields : list (string * json))
| Other (v : json)
| Refused (e : exn).

(** A path as [open(path, "r")] finds it. A path without an entry in the
    store is one on which [open] raises [FileNotFoundError]: there is no
    such file or directory. [Unreadable e] is a path on which [open] raises
    another error [e]: [PermissionError], [IsADirectoryError],
    [NotADirectoryError] for a path that goes through a regular file,
    [OSError] for a name that is too long, [ValueError] for a name with a
    null character. *)
Inductive file :=
| Unreadable (e : exn)
| Readable (c : contents).


(** [f"user_profile_{user_id}.json"]. *)
Definition profile_path (uid : string) : string :=
  ("user_profile_" ++ uid ++ ".json")%string.

(** [open(path, "r")]. *)
Definition open_read (fs : gmap string file) (path : string) : result contents :=
  match fs !! path with
  | None => Raises FileNotFoundError
  | Some (Unreadable e) => Raises e
  | Some (Readable c) => Returns c
  end.

(** [json.load(f)]. *)
Definition json_load (c : contents) : result json :=
  match c with
  | Garbled => Raises JSONDecodeError
  | Document data => Returns (JObj data)
  | Other v => Returns v
  | Refused e => Raises e
  end.


(** The key and the value that [dict.update] takes from an element of a
    list. The element is made a sequence, which a number, a boolean and
    [None] are not ([TypeError]), and the sequence must have two items
    ([ValueError]): the two items of a list, the two characters of a string,
    the two keys of a dict. *)
Definition pair_of_element (x : json) : result (json * json) :=
  match x with
  | JArr [key; value] => Returns (key, value)
  | JArr _ => Raises ValueError
  | JStr (String a (String b EmptyString)) =>
      Returns (JStr (String a EmptyString), JStr (String b EmptyString))
  | JStr _ => Raises ValueError
  | JObj fields =>
      match dict_update [] fields with
      | [(key, _); (value, _)] => Returns (JStr key, JStr value)
      | _ => Raises ValueError
      end
  | _ => Raises TypeError
  end.

(** [d.update(l)] for a list [l]: its elements are taken in order, and the
    first one that is no pair, or whose key is a list or a dict, which
    cannot be hashed ([TypeError]), ends the update. A key that is a string
    names an attribute. A key that is a number, a boolean or [None] names
    none: the entry it gets in [__dict__] is not part of the result, which
    lists the attributes. *)
Fixpoint update_from_pairs (d : list (string * json)) (l : list json)
    : result (list (string * json)) :=
  match l with
  | [] => Returns d
  | x :: l' =>
      match pair_of_element x with
      | Returns (JStr key, value) => update_from_pairs (dict_set d key value) l'
      | Returns (JArr _, _) | Returns (JObj _, _) => Raises TypeError
      | Returns _ => update_from_pairs d l'
      | Raises e => Raises e
      end
  end.

(** [d.update(data)] for the value [data] that [json.load] returned. A
    dict updates the attributes; a list is taken as a list of pairs; the
    empty string changes nothing, and the characters of another string are
    no pairs ([ValueError]); a number, a boolean and [None] cannot be
    iterated ([TypeError]). *)
Definition dict_update_from (d : list (string * json)) (data : json)
    : result (list (string * json)) :=
  match data with
  | JObj fields => Returns (dict_update d fields)
  | JArr items => update_from_pairs d items
  | JStr EmptyString => Returns d
  | JStr _ => Raises ValueError
  | _ => Raises TypeError
  end.


(** [UserProfile.load]: the result is the [__dict__] of the returned
    profile object. Only [FileNotFoundError] is caught. *)
Definition load (fs : gmap string file) (uid : string)
    : result (list (string * json)) :=
  match
    bind_result (open_read fs (profile_path uid)) (fun f =>
    bind_result (json_load f) (fun data =>
    dict_update_from (profile_dict (init uid)) data))
  with
  | Raises FileNotFoundError => Returns (profile_dict (init uid))
  | r => r
  end.

(** *** Reading a profile object back as a typed profile *)












(** The entry of [topic] after a response on it. *)
Definition entry_after (tm : gmap string mastery) (topic : string) (correct : bool)
    : mastery :=
  let old := default {| tm_correct := 0; tm_total := 0 |} (tm !! topic) in
  {| tm_correct := if correct then (tm_correct old + 1)%Z else tm_correct old;
     tm_total := (tm_total old + 1)%Z |}.

(** *** The skill update as the specification words it *)



(** [{easy: 0.8, medium: 1.0, hard: 1.2}[difficulty]], 1.0 for any other
    string. *)
Definition spec_multiplier (difficulty : string) : Q :=
  if String.eqb difficulty "easy" then 8 # 10
  else if String.eqb difficulty "medium" then 1
  else if String.eqb difficulty "hard" then 12 # 10
  else 1.



(** The confidence factor with a provided confidence of 0 counted as not
    provided. *)
Definition nonzero_confidence_factor (confidence : option Z) : Q :=
  match confidence with
  | Some c => if (c =? 0)%Z then 1 else inject_Z c / 5
  | None => 1
  end.


(** *** Bookkeeping of a profile *)

(** [sum(m["total"] for m in topics_mastery.values())]. *)
Definition sum_totals (tm : gmap string mastery) : Z :=
  map_fold (fun _ m acc => (tm_total m + acc)%Z) 0%Z tm.

(** Number of recorded responses whose topic is [t]. *)
Definition count_topic (t : string) (history : list response) : nat :=
  count_if (fun e => String.eqb (ev_topic e) t) history.

Definition bookkeeping (p : UserProfile) : Prop :=
  length (performance_history p) = length (response_times p)
  /\ Z.of_nat (length (response_times p)) = sum_totals (topics_mastery p)
  /\ forall t m, topics_mastery p !! t = Some m ->
       tm_total m = Z.of_nat (count_topic t (performance_history p))
       /\ (tm_correct m <= tm_total m)%Z.

(** ** Python strings *)

(** [c.isspace()], which is also the class [\s] of [re]. *)
Definition isspace (c : ascii) : bool :=
  let n := nat_of_ascii c in
  ((9 <=? n) && (n <=? 13) || (28 <=? n) && (n <=? 32) || (n =? 133) || (n =? 160))%nat.

(** The class [\d]. *)
Definition isdigit (c : ascii) : bool :=
  let n := nat_of_ascii c in ((48 <=? n) && (n <=? 57))%nat.

(** The class [\w]: alphanumeric characters and the underscore. *)
Definition isword (c : ascii) : bool :=
  let n := nat_of_ascii c in
  ((48 <=? n) && (n <=? 57) || (65 <=? n) && (n <=? 90) || (97 <=? n) && (n <=? 122)
   || (n =? 95) || (n =? 170) || (n =? 178) || (n =? 179) || (n =? 181)
   || (185 <=? n) && (n <=? 186) || (188 <=? n) && (n <=? 190)
   || (192 <=? n) && (n <=? 214) || (216 <=? n) && (n <=? 246) || (248 <=? n))%nat.

(** [c.lower()]. *)
Definition lower_char (c : ascii) : ascii :=
  let n := nat_of_ascii c in
  if ((65 <=? n) && (n <=? 90) || (192 <=? n) && (n <=? 222) && negb (n =? 215))%nat
  then ascii_of_nat (n + 32) else c.

(** [c.upper()] for a letter of the basic alphabet, the only characters it
    is applied to. *)
Definition upper_char (c : ascii) : ascii :=
  let n := nat_of_ascii c in
  if ((97 <=? n) && (n <=? 122))%nat then ascii_of_nat (n - 32) else c.

Fixpoint lower (s : string) : string :=
  match s with
  | EmptyString => EmptyString
  | String c s' => String (lower_char c) (lower s')
  end.

Fixpoint upper (s : string) : string :=
  match s with
  | EmptyString => EmptyString
  | String c s' => String (upper_char c) (upper s')
  end.

(** [s.split()] with the word being read in [cur]. *)
Fixpoint split_from (cur : string) (s : string) : list string :=
  match s with
  | EmptyString => match cur with EmptyString => [] | _ => [cur] end
  | String c s' =>
      if isspace c
      then match cur with
           | EmptyString => split_from EmptyString s'
           | _ => cur :: split_from EmptyString s'
           end
      else split_from (cur ++ String c EmptyString) s'
  end.

(** [s.split()]: the maximal runs of non-whitespace characters. *)
Definition split (s : string) : list string := split_from EmptyString s.

(** [sep.join(words)]. *)
Fixpoint join (sep : string) (words : list string) : string :=
  match words with
  | [] => EmptyString
  | [w] => w
  | w :: rest => w ++ sep ++ join sep rest
  end.

Fixpoint lstrip (s : string) : string :=
  match s with
  | String c s' => if isspace c then lstrip s' else s
  | EmptyString => EmptyString
  end.

Fixpoint rstrip (s : string) : string :=
  match s with
  | EmptyString => EmptyString
  | String c s' =>
      match rstrip s' with
      | EmptyString => if isspace c then EmptyString else String c EmptyString
      | r => String c r
      end
  end.

(** [s.strip()]. *)
Definition strip (s : string) : string := rstrip (lstrip s).

(** [sub in s]. *)
Fixpoint contains (sub s : string) : bool :=
  if String.prefix sub s then true
  else match s with
       | EmptyString => false
       | String _ s' => contains sub s'
       end.

(** [s.count(sub)]: occurrences counted from the left without overlap;
    [skip] characters are still covered by the occurrence just counted. *)
Fixpoint count_from (skip : nat) (sub s : string) : nat :=
  match skip with
  | S k => match s with
           | EmptyString => 0
           | String _ s' => count_from k sub s'
           end
  | O =>
      match s with
      | EmptyString => if String.prefix sub EmptyString then 1 else 0
      | String _ s' =>
          if String.prefix sub s
          then S (count_from (String.length sub - 1) sub s')
          else count_from 0 sub s'
      end
  end%nat.

Definition count (sub s : string) : nat := count_from 0 sub s.

(** [s.endswith(suffix)]. *)
Fixpoint endswith (suffix s : string) : bool :=
  if String.eqb s suffix then true
  else match s with
       | EmptyString => false
       | String _ s' => endswith suffix s'
       end.

(** The line feed character as a string. *)
Definition newline : string := String (ascii_of_nat 10) EmptyString.


(** ** Regular expressions, as far as the parser uses them *)

Inductive item :=
| One (p : ascii -> bool)
| Star (p : ascii -> bool)
| LazyStar (p : ascii -> bool)
| Open
| Close
| Look (f : string -> bool).

Definition push (cur : option string) (c : ascii) : option string :=
  match cur with
  | Some g => Some (g ++ String c EmptyString)%string
  | None => None
  end.

(** Matching a sequence of items at the start of [s], by backtracking in
    the order of [re]: a greedy star first tries one more character, a lazy
    one first tries to go on. [cur] is the text of the group being
    captured, [caps] the groups already closed. The result is the list of
    groups and the text left after the match. *)
Fixpoint match_here (its : list item)
    : option string -> list string -> string -> option (list string * string) :=
  match its with
  | [] => fun _ caps s => Some (caps, s)
  | One p :: rest => fun cur caps s =>
      match s with
      | String c s' => if p c then match_here rest (push cur c) caps s' else None
      | EmptyString => None
      end
  | Star p :: rest =>
      fix star (cur : option string) (caps : list string) (s : string) :=
        match s with
        | String c s' =>
            if p c
            then match star (push cur c) caps s' with
                 | Some r => Some r
                 | None => match_here rest cur caps s
                 end
            else match_here rest cur caps s
        | EmptyString => match_here rest cur caps s
        end
  | LazyStar p :: rest =>
      fix lazy (cur : option string) (caps : list string) (s : string) :=
        match match_here rest cur caps s with
        | Some r => Some r
        | None =>
            match s with
            | String c s' => if p c then lazy (push cur c) caps s' else None
            | EmptyString => None
            end
        end
  | Open :: rest => fun _ caps s => match_here rest (Some EmptyString) caps s
  | Close :: rest => fun cur caps s =>
      match_here rest None (caps ++ [default EmptyString cur]) s
  | Look f :: rest => fun cur caps s =>
      if f s then match_here rest cur caps s else None
  end.

(** [re.search]: the match at the leftmost position that has one. *)
Fixpoint search (its : list item) (s : string) : option (list string * string) :=
  match match_here its None [] s with
  | Some r => Some r
  | None =>
      match s with
      | String _ s' => search its s'
      | EmptyString => None
      end
  end.

(** [re.findall]: the successive matches, each searched from the end of
    the one before; every match of the patterns used here is non-empty. *)
Fixpoint findall_fuel (fuel : nat) (its : list item) (s : string) : list (list string) :=
  match fuel with
  | O => []
  | S fuel' =>
      match search its s with
      | Some (groups, rest) => groups :: findall_fuel fuel' its rest
      | None => []
      end
  end.

Definition findall (its : list item) (s : string) : list (list string) :=
  findall_fuel (S (String.length s)) its s.

(** A literal character, and one compared without regard to case. *)
Definition chr (c : ascii) : ascii -> bool := fun x => Ascii.eqb x c.
Definition chr_i (c : ascii) : ascii -> bool :=
  fun x => Ascii.eqb (lower_char x) (lower_char c).

Definition any_char : ascii -> bool := fun _ => true.

Fixpoint lit (s : string) : list item :=
  match s with
  | EmptyString => []
  | String c s' => One (chr c) :: lit s'
  end.

Fixpoint lit_i (s : string) : list item :=
  match s with
  | EmptyString => []
  | String c s' => One (chr_i c) :: lit_i s'
  end.

(** The class [[ABCD]], with and without [re.IGNORECASE]. *)
Definition abcd (c : ascii) : bool := chr "A" c || chr "B" c || chr "C" c || chr "D" c.
Definition abcd_i (c : ascii) : bool :=
  chr_i "A" c || chr_i "B" c || chr_i "C" c || chr_i "D" c.

(** The class [[:\s]]. *)
Definition colon_or_space (c : ascii) : bool := chr ":" c || isspace c.

(** [$]: the end of the text, or the position before its final newline. *)
Definition at_end (s : string) : bool :=
  String.eqb s EmptyString || String.eqb s newline.

(** Whether the items match at the start of [s]: an alternative of a
    lookahead. *)
Definition ahead (its : list item) (s : string) : bool :=
  match match_here its None [] s with Some _ => true | None => false end.

(** ** evaluation_metrics.py: the question block parser *)

(** The record [parse_question_block] returns and the scorer consumes. *)
Record question_data := {
  question : string;
  options : list string;
  correct_answer : option string;
  explanation : string
}.

(** [[ABCD]\)]. *)
Definition option_marker : list item := [One abcd; One (chr ")")].

(** [Question \d+:\s*(.+?)(?=[ABCD]\)|$)] with [re.DOTALL]. *)
Definition question_pattern : list item :=
  lit "Question " ++
  [One isdigit; Star isdigit; One (chr ":"); Star isspace;
   Open; One any_char; LazyStar any_char; Close;
   Look (fun s => ahead option_marker s || at_end s)].

(** [([ABCD])\)\s*(.+?)(?=[ABCD]\)|Correct|Answer|Explanation|$)] with
    [re.DOTALL]. *)
Definition option_pattern : list item :=
  [Open; One abcd; Close; One (chr ")"); Star isspace;
   Open; One any_char; LazyStar any_char; Close;
   Look (fun s => ahead option_marker s || ahead (lit "Correct") s
                  || ahead (lit "Answer") s || ahead (lit "Explanation") s
                  || at_end s)].

(** The four answer patterns, in the order they are tried, each with
    [re.IGNORECASE]:
    [correct\s+answer[:\s]*([ABCD])], [answer[:\s]*([ABCD])],
    [correct[:\s]*([ABCD])], [\*\*([ABCD])\*\*]. *)
Definition answer_patterns : list (list item) :=
  [ lit_i "correct" ++ [One isspace; Star isspace] ++ lit_i "answer" ++
      [Star colon_or_space; Open; One abcd_i; Close];
    lit_i "answer" ++ [Star colon_or_space; Open; One abcd_i; Close];
    lit_i "correct" ++ [Star colon_or_space; Open; One abcd_i; Close];
    lit_i "**" ++ [Open; One abcd_i; Close] ++ lit_i "**" ].

(** [explanation[:\s]*(.+?)(?=\n\s*question|$)] with [re.IGNORECASE] and
    [re.DOTALL]. *)
Definition explanation_pattern : list item :=
  lit_i "explanation" ++
  [Star colon_or_space; Open; One any_char; LazyStar any_char; Close;
   Look (fun s => ahead (lit_i newline ++ [Star isspace] ++ lit_i "question") s
                  || at_end s)].

(** [match.group(n)] for [n >= 1]. *)
Definition group (n : nat) (groups : list string) : string :=
  nth (n - 1) groups EmptyString.

(** The loop over the answer patterns: the first pattern with a match sets
    the answer and ends the loop; without a match the answer stays [None]. *)
Fixpoint first_answer (patterns : list (list item)) (block : string) : option string :=
  match patterns with
  | [] => None
  | pattern :: rest =>
      match search pattern block with
      | Some (groups, _) => Some (upper (group 1 groups))
      | None => first_answer rest block
      end
  end.

Definition parse_question_block (question_block : string) : question_data :=
  {| question :=
       match search question_pattern question_block with
       | Some (groups, _) => strip (group 1 groups)
       | None => EmptyString
       end;
     options :=
       (fun opt => strip (group 2 opt)) <$> findall option_pattern question_block;
     correct_answer := first_answer answer_patterns question_block;
     explanation :=
       match search explanation_pattern question_block with
       | Some (groups, _) => strip (group 1 groups)
       | None => EmptyString
       end |}.


(** ** evaluation_metrics.py: the scorers *)

(** A metric value: a number, a label, or a list of numbers. *)
Inductive value :=
| VNum (q : Q)
| VStr (s : string)
| VList (l : list Q).

(** [len(x)] of a list or a set, as a number. *)
Definition num (n : nat) : Q := inject_Z (Z.of_nat n).

(** [set(text.lower().split())]. *)
Definition word_set (text : string) : gset string := list_to_set (split (lower text)).

(** [sum(l) / len(l) if l else 0]. *)
Definition average (l : list Q) : Q :=
  match l with
  | [] => 0
  | _ => py_sum l / py_len l
  end.

(** [sum((x - m) ** 2 for x in l) / len(l)]. *)
Definition variance (m : Q) (l : list Q) : Q :=
  py_sum ((fun x => (x - m) * (x - m)) <$> l) / py_len l.

(** [round(x, ndigits)]: to the nearest multiple of [10 ** -ndigits], a tie
    going to the even one. *)
Definition round_half_even (x : Q) : Z :=
  let f := Qfloor x in
  let r := x - inject_Z f in
  if Qltb r (1 # 2) then f
  else if Qltb (1 # 2) r then (f + 1)%Z
  else if Z.even f then f else (f + 1)%Z.

Definition py_round (x : Q) (ndigits : nat) : Q :=
  let scale := inject_Z (10 ^ Z.of_nat ndigits) in
  inject_Z (round_half_even (x * scale)) / scale.

Definition ambiguous_words : list string :=
  ["maybe"; "perhaps"; "possibly"; "might"; "could";
   "some"; "somewhat"; "kind of"; "sort of"; "various"].

Definition interrogatives : list string :=
  ["what"; "which"; "how"; "why"; "when"; "who"; "where"].

Definition negations : list string :=
  ["not"; "n't"; "never"; "no "; "none"; "neither"].

Definition calculate_clarity (question_text : string) : gmap string value :=
  let question_text := join " " (split question_text) in
  let words := split question_text in
  let word_count := length words in
  let length_score :=
    if ((10 <=? word_count) && (word_count <=? 25))%nat then 1
    else if ((5 <=? word_count) && (word_count <? 10)
             || (25 <? word_count) && (word_count <=? 35))%nat then 7 # 10
    else 4 # 10 in
  let has_question_mark := contains "?" question_text in
  let question_mark_score := if has_question_mark then 1 else 3 # 10 in
  let question_count := count "?" question_text in
  let single_question_score :=
    if (question_count =? 1)%nat then 1
    else if (question_count =? 0)%nat then 5 # 10
    else 3 # 10 in
  let ambiguous_count :=
    count_if (fun word => contains word (lower question_text)) ambiguous_words in
  let ambiguity_penalty := py_max 0 (1 - num ambiguous_count * (2 # 10)) in
  let has_interrogative :=
    existsb (fun word => existsb (String.eqb word)
                           (firstn 5 (split (lower question_text))))
            interrogatives in
  let interrogative_score := if has_interrogative then 1 else 6 # 10 in
  let negation_count :=
    foldr Nat.add 0%nat ((fun neg => count neg (lower question_text)) <$> negations) in
  let negation_score :=
    if (negation_count =? 0)%nat then 1
    else if (negation_count =? 1)%nat then 9 # 10
    else 5 # 10 in
  let clarity_score :=
    (20 # 100) * length_score + (15 # 100) * question_mark_score
    + (15 # 100) * single_question_score + (20 # 100) * ambiguity_penalty
    + (15 # 100) * interrogative_score + (15 # 100) * negation_score in
  {[ "clarity" := VNum clarity_score;
     "length_score" := VNum length_score;
     "question_mark_score" := VNum question_mark_score;
     "single_question_score" := VNum single_question_score;
     "ambiguity_score" := VNum ambiguity_penalty;
     "interrogative_score" := VNum interrogative_score;
     "negation_clarity" := VNum negation_score;
     "word_count" := VNum (num word_count) ]}.

Definition relevance_stop_words : gset string :=
  list_to_set ["the"; "a"; "an"; "and"; "or"; "but"; "in"; "on"; "at"; "to"; "for";
               "of"; "with"; "is"; "are"; "was"; "were"; "what"; "which"; "how"].

(** [len(a & b) / len(a | b) if len(a | b) > 0 else 0]. *)
Definition jaccard (a b : gset string) : Q :=
  if (0 <? size (a ∪ b))%nat then num (size (a ∩ b)) / num (size (a ∪ b)) else 0.

Definition calculate_relevance (question_text : string) (options : list string)
    (knowledge_base : option string) : gmap string value :=
  let question_words := word_set question_text in
  let question_keywords := question_words ∖ relevance_stop_words in
  let option_relevance_scores :=
    (fun option => jaccard question_keywords (word_set option ∖ relevance_stop_words))
      <$> options in
  let avg_option_relevance := average option_relevance_scores in
  let kb_relevance :=
    match knowledge_base with
    | Some (String c kb') =>
        let kb_words := word_set (String c kb') ∖ relevance_stop_words in
        let kb_overlap := size (question_keywords ∩ kb_words) in
        if (0 <? size question_keywords)%nat
        then py_min (num kb_overlap / num (size question_keywords)) 1
        else 0
    | _ => 5 # 10
    end in
  let avg_word_length :=
    if (0 <? size question_keywords)%nat
    then num (foldr Nat.add 0%nat (String.length <$> elements question_keywords))
         / num (size question_keywords)
    else 0 in
  let technical_score := py_min (avg_word_length / 8) 1 in
  let consistency_score :=
    match option_relevance_scores with
    | [] => 0
    | _ => 1 - py_min (variance avg_option_relevance option_relevance_scores) 1
    end in
  let relevance_score :=
    (35 # 100) * avg_option_relevance + (25 # 100) * kb_relevance
    + (20 # 100) * technical_score + (20 # 100) * consistency_score in
  {[ "relevance" := VNum relevance_score;
     "option_relevance" := VNum avg_option_relevance;
     "knowledge_base_relevance" := VNum kb_relevance;
     "technical_terminology" := VNum technical_score;
     "option_consistency" := VNum consistency_score ]}.

(** [re.sub(r'[^\w\s.]', ' ', text)]. *)
Fixpoint clean_text (text : string) : string :=
  match text with
  | EmptyString => EmptyString
  | String c rest =>
      String (if isword c || isspace c || chr "." c then c else " "%char)
             (clean_text rest)
  end.

(** [text.split('.')] with the piece being read in [cur]. *)
Fixpoint split_on_from (sep : ascii) (cur : string) (text : string) : list string :=
  match text with
  | EmptyString => [cur]
  | String c rest =>
      if Ascii.eqb c sep then cur :: split_on_from sep EmptyString rest
      else split_on_from sep (cur ++ String c EmptyString) rest
  end.

Definition split_on (sep : ascii) (text : string) : list string :=
  split_on_from sep EmptyString text.

Definition is_vowel (c : ascii) : bool := contains (String c EmptyString) "aeiouy".

(** The loop of [count_syllables]: the number of maximal runs of vowels. *)
Fixpoint vowel_groups (previous_was_vowel : bool) (word : string) : Z :=
  match word with
  | EmptyString => 0
  | String char rest =>
      ((if is_vowel char && negb previous_was_vowel then 1 else 0)
       + vowel_groups (is_vowel char) rest)%Z
  end.

Definition count_syllables (word : string) : Z :=
  let word := lower word in
  let syllable_count := vowel_groups false word in
  let syllable_count :=
    if endswith "e" word then (syllable_count - 1)%Z else syllable_count in
  if (syllable_count =? 0)%Z then 1%Z else syllable_count.

Definition calculate_readability_level (text : string) : gmap string value :=
  let text := clean_text text in
  let sentences :=
    List.filter (fun s => negb (String.eqb s EmptyString)) (strip <$> split_on "." text) in
  let words := split text in
  match sentences, words with
  | [], _ | _, [] =>
      {[ "flesch_kincaid_grade" := VNum 0;
         "flesch_reading_ease" := VNum 0;
         "readability_level" := VStr "Unknown";
         "avg_sentence_length" := VNum 0;
         "avg_syllables_per_word" := VNum 0 ]}
  | _, _ =>
      let total_syllables := inject_Z (foldr Z.add 0%Z (count_syllables <$> words)) in
      let num_sentences := py_len sentences in
      let num_words := py_len words in
      let avg_sentence_length := num_words / num_sentences in
      let avg_syllables_per_word := total_syllables / num_words in
      let fk_grade :=
        py_max 0 ((39 # 100) * (num_words / num_sentences)
                  + (118 # 10) * (total_syllables / num_words) - (1559 # 100)) in
      let flesch_ease :=
        py_max 0 (py_min 100 ((206835 # 1000) - (1015 # 1000) * (num_words / num_sentences)
                              - (846 # 10) * (total_syllables / num_words))) in
      let level :=
        if Qltb fk_grade 6 then "Elementary (Grades 1-5)"
        else if Qltb fk_grade 9 then "Middle School (Grades 6-8)"
        else if Qltb fk_grade 13 then "High School (Grades 9-12)"
        else if Qltb fk_grade 16 then "College (Undergraduate)"
        else "Graduate/Professional" in
      {[ "flesch_kincaid_grade" := VNum (py_round fk_grade 2);
         "flesch_reading_ease" := VNum (py_round flesch_ease 2);
         "readability_level" := VStr level;
         "avg_sentence_length" := VNum (py_round avg_sentence_length 2);
         "avg_syllables_per_word" := VNum (py_round avg_syllables_per_word 2) ]}
  end.

Definition obvious_patterns : list string :=
  ["all of the above"; "none of the above"; "both a and b";
   "neither"; "cannot be determined"; "not enough information";
   "a and b"; "b and c"; "a and c"].

Definition distractor_stop_words : gset string :=
  list_to_set ["the"; "a"; "an"; "and"; "or"; "but"; "in"; "on"; "at"; "to"; "for";
               "of"; "with"].

Definition calculate_distractor_quality_detailed (question correct_answer : string)
    (distractors : list string) : gmap string value :=
  match distractors with
  | [] => {[ "distractor_quality_detailed" := VNum 0 ]}
  | _ =>
      let all_options := correct_answer :: distractors in
      let lengths := (fun opt => num (length (split opt))) <$> all_options in
      let avg_length := py_sum lengths / py_len lengths in
      let length_variance := variance avg_length lengths in
      let homogeneity_score := 1 / (1 + length_variance / 10) in
      let first_words :=
        (fun opt => match split opt with
                    | w :: _ => lower w
                    | [] => EmptyString
                    end) <$> all_options in
      let first_word_similarity :=
        num (size (list_to_set first_words : gset string)) / py_len first_words in
      let parallelism_score := 1 - first_word_similarity in
      let pattern_penalties :=
        (fun distractor =>
           if existsb (fun pattern => contains pattern (lower distractor)) obvious_patterns
           then 0 else 1) <$> distractors in
      let no_pattern_score :=
        match pattern_penalties with
        | [] => 1
        | _ => py_sum pattern_penalties / py_len pattern_penalties
        end in
      let question_keywords := word_set question ∖ distractor_stop_words in
      let relevance_scores :=
        (fun distractor =>
           let dist_keywords := word_set distractor ∖ distractor_stop_words in
           let overlap := size (question_keywords ∩ dist_keywords) in
           let relevance := num overlap / num (Nat.max (size question_keywords) 1) in
           py_min relevance 1) <$> distractors in
      let avg_relevance := average relevance_scores in
      let substantive_scores :=
        (fun distractor =>
           let word_count := length (split distractor) in
           if (10 <=? word_count)%nat then 1
           else if (5 <=? word_count)%nat then 7 # 10
           else 3 # 10) <$> distractors in
      let avg_substantive := average substantive_scores in
      let overall_quality :=
        (25 # 100) * homogeneity_score + (20 # 100) * parallelism_score
        + (25 # 100) * no_pattern_score + (15 # 100) * avg_relevance
        + (15 # 100) * avg_substantive in
      {[ "distractor_quality_detailed" := VNum overall_quality;
         "homogeneity" := VNum homogeneity_score;
         "grammatical_parallelism" := VNum parallelism_score;
         "no_obvious_patterns" := VNum no_pattern_score;
         "keyword_relevance" := VNum avg_relevance;
         "substantiveness" := VNum avg_substantive;
         "avg_length" := VNum (py_round avg_length 1);
         "length_variance" := VNum (py_round length_variance 2) ]}
  end.

Definition rationale_stop_words : gset string :=
  list_to_set ["the"; "a"; "an"; "and"; "or"; "but"; "in"; "on"; "at"; "to"; "for";
               "of"; "with"; "is"; "are"; "was"; "were"; "this"; "that"; "it"].

Definition justification_words : list string :=
  ["because"; "since"; "therefore"; "thus"; "hence";
   "as a result"; "due to"; "reason"; "explains"; "indicates"].

Definition educational_words : list string :=
  ["process"; "function"; "mechanism"; "principle"; "concept";
   "means"; "refers to"; "defined as"; "characterized by"].

Definition alternative_words : list string :=
  ["however"; "whereas"; "while"; "unlike"; "incorrect";
   "wrong"; "not"; "other options"; "alternatives"].

(** [calculate_rationale_quality]. The weighted sum [rationale_quality] is
    returned as it is computed, without rounding: its weights add up to 1 in
    exact arithmetic, while their float sum can exceed 1 in the last
    place. *)
Definition calculate_rationale_quality (rationale question correct_answer : string)
    : gmap string value :=
  if String.eqb rationale EmptyString || (String.length (strip rationale) <? 10)%nat
  then {[ "rationale_quality" := VNum 0;
          "length_score" := VNum 0;
          "question_reference" := VNum 0;
          "answer_justification" := VNum 0;
          "educational_value" := VNum 0 ]}
  else
    let word_count := length (split rationale) in
    let length_score :=
      if ((20 <=? word_count) && (word_count <=? 100))%nat then 1
      else if ((10 <=? word_count) && (word_count <? 20)
               || (100 <? word_count) && (word_count <=? 150))%nat then 7 # 10
      else 4 # 10 in
    let rationale_keywords := word_set rationale in
    let question_keywords := word_set question ∖ rationale_stop_words in
    let overlap := size (question_keywords ∩ rationale_keywords) in
    let question_reference_score :=
      py_min (num overlap / num (Nat.max (size question_keywords) 1)) 1 in
    let has_justification :=
      existsb (fun word => contains word (lower rationale)) justification_words in
    let justification_score := if has_justification then 1 else 5 # 10 in
    let correct_keywords := word_set correct_answer ∖ rationale_stop_words in
    let answer_overlap := size (correct_keywords ∩ rationale_keywords) in
    let answer_reference_score :=
      py_min (num answer_overlap / num (Nat.max (size correct_keywords) 1)) 1 in
    let educational_count :=
      count_if (fun word => contains word (lower rationale)) educational_words in
    let educational_score := py_min (num educational_count / 2) 1 in
    let addresses_alternatives :=
      existsb (fun word => contains word (lower rationale)) alternative_words in
    let alternative_score := if addresses_alternatives then 1 else 7 # 10 in
    let rationale_quality :=
      (20 # 100) * length_score + (20 # 100) * question_reference_score
      + (20 # 100) * justification_score + (15 # 100) * answer_reference_score
      + (15 # 100) * educational_score + (10 # 100) * alternative_score in
    {[ "rationale_quality" := VNum rationale_quality;
       "length_score" := VNum length_score;
       "question_reference" := VNum question_reference_score;
       "answer_justification" := VNum justification_score;
       "answer_reference" := VNum answer_reference_score;
       "educational_value" := VNum educational_score;
       "addresses_alternatives" := VNum alternative_score;
       "word_count" := VNum (num word_count) ]}.

(** [calculate_dps]; the knowledge base argument is not used. *)
Definition calculate_dps (question correct_answer : string) (distractors : list string)
    (knowledge_base : option string) : gmap string value :=
  match distractors with
  | [] => {[ "DPS" := VNum 0 ]}
  | _ =>
      let question_words := word_set question in
      let correct_words := word_set correct_answer in
      let dps_scores :=
        (fun distractor =>
           let distractor_words := word_set distractor in
           let q_similarity := jaccard question_words distractor_words in
           let c_similarity := jaccard correct_words distractor_words in
           (7 # 10) * q_similarity + (3 # 10) * c_similarity) <$> distractors in
      let avg_dps := average dps_scores in
      {[ "DPS" := VNum avg_dps;
         "DPS_per_distractor" := VList dps_scores;
         "num_distractors" := VNum (py_len distractors) ]}
  end.

(** The two nested loops of [calculate_sos]: for [i] in [range(len)], for
    [j] in [range(i + 1, len)], the similarity of options [i] and [j]. *)
Definition pairwise_similarities (options : list string) : list Q :=
  let n := length options in
  i ← seq 0 n;
  j ← seq (i + 1) (n - (i + 1));
  [jaccard (word_set (nth i options EmptyString)) (word_set (nth j options EmptyString))].

Definition calculate_sos (options : list string) : gmap string value :=
  if (length options <? 2)%nat
  then {[ "SOS" := VNum 0; "option_diversity" := VNum 0 ]}
  else
    let similarities := pairwise_similarities options in
    let avg_similarity := average similarities in
    let option_diversity := 1 - avg_similarity in
    {[ "SOS" := VNum avg_similarity;
       "option_diversity" := VNum option_diversity;
       "pairwise_similarities" := VList similarities;
       "num_pairs" := VNum (py_len similarities) ]}.

(** ** evaluation_metrics.py: the comprehensive evaluation *)

(** [results.update(metrics)]. *)
Definition update (results metrics : gmap string value) : gmap string value :=
  metrics ∪ results.

(** [ord(s) - ord('A')], a [TypeError] unless [s] is one character. *)
Definition ord_minus_A (s : string) : result Z :=
  match s with
  | String c EmptyString => Returns (Z.of_nat (nat_of_ascii c) - 65)%Z
  | _ => Raises TypeError
  end.

(** [enumerate(l)]. *)
Definition enumerate {A : Type} (l : list A) : list (nat * A) :=
  combine (seq 0 (length l)) l.

(** Truth value of a string and of an optional string. *)
Definition nonempty (s : string) : bool := negb (String.eqb s EmptyString).

Definition truthy (s : option string) : bool :=
  match s with
  | Some s => nonempty s
  | None => false
  end.

Definition nonempty_list {A : Type} (l : list A) : bool :=
  match l with [] => false | _ => true end.

Definition evaluate_question_comprehensive (question_data : question_data)
    (knowledge_base : option string) : result (gmap string value) :=
  let q := question question_data in
  let opts := options question_data in
  let results : gmap string value := ∅ in
  (* 1. Clarity *)
  let results := if nonempty q then update results (calculate_clarity q) else results in
  (* 2. Relevance *)
  let results :=
    if nonempty q && nonempty_list opts
    then update results (calculate_relevance q opts knowledge_base)
    else results in
  (* 3. Readability level *)
  let full_text := if nonempty_list opts then (q ++ " " ++ join " " opts)%string else q in
  let results :=
    if nonempty full_text then update results (calculate_readability_level full_text)
    else results in
  (* 4. Quality of distractors *)
  bind_result
    (if nonempty_list opts && truthy (correct_answer question_data)
     then
       bind_result (ord_minus_A (default EmptyString (correct_answer question_data)))
         (fun correct_idx =>
            if ((0 <=? correct_idx) && (correct_idx <? Z.of_nat (length opts)))%Z
            then
              let correct_option := nth (Z.to_nat correct_idx) opts EmptyString in
              let distractors :=
                snd <$> List.filter (fun io => negb (fst io =? Z.to_nat correct_idx)%nat)
                                    (enumerate opts) in
              let results :=
                update results (calculate_dps q correct_option distractors knowledge_base) in
              Returns
                (update results
                   (calculate_distractor_quality_detailed q correct_option distractors))
            else Returns results)
     else Returns results)
    (fun results =>
  (* 5. SOS *)
  let results := if nonempty_list opts then update results (calculate_sos opts) else results in
  (* 6. Quality of rationale *)
  if nonempty (explanation question_data)
  then
    bind_result
      (if truthy (correct_answer question_data)
       then ord_minus_A (default EmptyString (correct_answer question_data))
       else Returns 0%Z)
      (fun correct_idx =>
         let correct_text :=
           if nonempty_list opts
              && ((0 <=? correct_idx) && (correct_idx <? Z.of_nat (length opts)))%Z
           then nth (Z.to_nat correct_idx) opts EmptyString
           else EmptyString in
         Returns
           (update results
              (calculate_rationale_quality (explanation question_data) q correct_text)))
  else Returns results).

(** *** The scorers as the specification words them *)

(** All pairs of distinct positions of a list, in order. *)
Fixpoint all_pairs {A : Type} (l : list A) : list (A * A) :=
  match l with
  | [] => []
  | x :: rest => ((fun y => (x, y)) <$> rest) ++ all_pairs rest
  end.

(** Jaccard similarity of the vocabularies of two options. *)
Definition option_similarity (pair : string * string) : Q :=
  jaccard (word_set (fst pair)) (word_set (snd pair)).

(** The average pairwise similarity over all option pairs. *)
Definition mean_pairwise_similarity (options : list string) : Q :=
  average (option_similarity <$> all_pairs options).

(** No two options share a word. *)
Definition disjoint_vocabularies (options : list string) : Prop :=
  Forall (fun pair => word_set (fst pair) ∩ word_set (snd pair) = ∅) (all_pairs options).

(** The text the ambiguity check looks at: whitespace runs collapsed to
    one space, lower case. *)
Definition normalized (question_text : string) : string :=
  lower (join " " (split question_text)).

(** Number of occurrences of the listed ambiguous words in the text, a word
    that occurs twice counting twice. *)
Definition listed_word_occurrences (question_text : string) : nat :=
  foldr Nat.add 0%nat ((fun word => count word (normalized question_text)) <$> ambiguous_words).

(** Number of listed ambiguous words that occur in the text at all. *)
Definition listed_words_present (question_text : string) : nat :=
  length (List.filter (fun word => contains word (normalized question_text)) ambiguous_words).

(** [max(0, 1 - 0.2 * n)]. *)
Definition ambiguity_of_count (n : nat) : Q :=
  if Qle_bool (1 - (2 # 10) * num n) 0 then 0 else 1 - (2 # 10) * num n.

(** The keys of the metrics [calculate_dps] and
    [calculate_distractor_quality_detailed] produce. *)
Definition distractor_metric_keys : list string :=
  ["DPS"; "DPS_per_distractor"; "num_distractors";
   "distractor_quality_detailed"; "homogeneity"; "grammatical_parallelism";
   "no_obvious_patterns"; "keyword_relevance"; "substantiveness";
   "avg_length"; "length_variance"].

(** ** userProfile.py: statistics *)

(** The dictionary [get_stats] returns. *)
Record stats := {
  st_user_id : string;
  st_skill_level : Q;
  st_accuracy_rate : Q;
  st_avg_response_time : Q;
  st_topics_mastery : gmap string mastery;
  st_current_difficulty : string;
  st_total_questions : nat
}.

(** [UserProfile.get_stats]. *)
Definition get_stats (self : UserProfile) : stats := {|
  st_user_id := user_id self;
  st_skill_level := skill_level self;
  st_accuracy_rate := accuracy_rate self;
  st_avg_response_time :=
    match response_times self with
    | [] => 0
    | _ => py_sum (response_times self) / py_len (response_times self)
    end;
  st_topics_mastery := topics_mastery self;
  st_current_difficulty := current_difficulty self;
  st_total_questions := length (performance_history self)
|}.

(** *** What a session records *)

(** The confidences that [add_response] keeps in [confidence_scores]: the
    provided ones that are not 0. *)
Definition kept_confidence (e : response) : option Z :=
  match ev_confidence e with
  | Some c => if (c =? 0)%Z then None else Some c
  | None => None
  end.

(** Number of correct responses on topic [t]. *)
Definition count_correct_topic (t : string) (history : list response) : nat :=
  count_if (fun e => ev_correct e && String.eqb (ev_topic e) t) history.

(** The entry of topic [t] that a history accounts for. *)
Definition mastery_of_history (history : list response) (t : string) : option mastery :=
  if (count_topic t history =? 0)%nat then None
  else Some {| tm_correct := Z.of_nat (count_correct_topic t history);
               tm_total := Z.of_nat (count_topic t history) |}.

(** ** utils.py: the answer extraction of the session *)

(** The patterns of [extract_correct_answer], each with [re.IGNORECASE]:
    the four of the parser, then [([ABCD])\s*is\s*correct] and
    [option\s*([ABCD])\s*is\s*correct]. *)
Definition extract_patterns : list (list item) :=
  [ lit_i "correct" ++ [One isspace; Star isspace] ++ lit_i "answer" ++
      [Star colon_or_space; Open; One abcd_i; Close];
    lit_i "answer" ++ [Star colon_or_space; Open; One abcd_i; Close];
    lit_i "correct" ++ [Star colon_or_space; Open; One abcd_i; Close];
    lit_i "**" ++ [Open; One abcd_i; Close] ++ lit_i "**";
    [Open; One abcd_i; Close; Star isspace] ++ lit_i "is" ++ [Star isspace]
      ++ lit_i "correct";
    lit_i "option" ++ [Star isspace; Open; One abcd_i; Close; Star isspace]
      ++ lit_i "is" ++ [Star isspace] ++ lit_i "correct" ].

(** [extract_correct_answer]: the answer, and the lines printed. *)
Definition extract_correct_answer (question_text : string) : option string * list string :=
  match first_answer extract_patterns question_text with
  | Some answer => (Some answer, [])
  | None =>
      (None,
       [(newline ++ "DEBUG: No correct answer found in question text:")%string;
        substring 0 500 question_text])
  end.

(** An item that captures nothing: anything but a group delimiter. *)
Definition is_plain (it : item) : bool :=
  match it with
  | Open | Close => false
  | _ => true
  end.

(** The four letters an answer can be. *)
Definition answer_letters : list string := ["A"; "B"; "C"; "D"].

(** The shape all the answer patterns have. *)
Definition letter_pattern (pattern : list item) : Prop :=
  exists before after,
    pattern = before ++ [Open; One abcd_i; Close] ++ after
    /\ forallb is_plain before = true
    /\ forallb is_plain after = true.

(** *** Sample inputs *)

Definition sample_calls : list response :=
  [ {| timestamp := "2025-03-01T10:00:00"; question_id := "q_1_0"; ev_correct := true;
       ev_time_taken := 12; ev_difficulty := "medium"; ev_topic := "algebra";
       ev_confidence := Some 4%Z |};
    {| timestamp := "2025-03-01T10:01:00"; question_id := "q_1_1"; ev_correct := false;
       ev_time_taken := 30; ev_difficulty := "hard"; ev_topic := "geometry";
       ev_confidence := None |};
    {| timestamp := "2025-03-01T10:02:00"; question_id := "q_1_2"; ev_correct := true;
       ev_time_taken := 7 # 2; ev_difficulty := "easy"; ev_topic := "algebra";
       ev_confidence := Some 0%Z |} ].

Definition sample_question : question_data :=
  {| question := "What is X?";
     options := ["foo"; "bar"; "baz"; "qux"];
     correct_answer := None;
     explanation := "because reasons." |}.

(** The well-formed block of the specification's parser example. *)
Definition sample_block : string :=
  ("Question 1: What is X?" ++ newline ++ "A) foo" ++ newline ++ "B) bar" ++ newline
   ++ "C) baz" ++ newline ++ "D) qux" ++ newline ++ "Correct answer: B" ++ newline
   ++ "Explanation: because reasons.")%string.





(** ** evaluation_metrics.py: the evaluation of a question set *)

(** A path as [open(path, 'r', encoding='utf-8')] and [read] find it. A
    path without an entry in the store is one on which [open] raises
    [FileNotFoundError]; [Failing e] is a path on which [open] or [read]
    raises another error [e] ([PermissionError], [IsADirectoryError],
    [UnicodeDecodeError] for bytes that are not UTF-8, and so on); [Text] is
    a file that is read, with its content. *)
Inductive text_file :=
| Failing (e : exn)
| Text (content : string).

(** [open(path, 'r', encoding='utf-8')] followed by [f.read()]. *)
Definition read_text (files : gmap string text_file) (path : string) : result string :=
  match files !! path with
  | None => Raises FileNotFoundError
  | Some (Failing e) => Raises e
  | Some (Text content) => Returns content
  end.

(** [Question \d+:]. *)
Definition question_header : list item :=
  lit "Question " ++ [One isdigit; Star isdigit; One (chr ":")].

(** [Question \d+:.*?(?=Question \d+:|$)] with [re.DOTALL]; the group is
    the whole match. *)
Definition block_pattern : list item :=
  [Open] ++ question_header ++
  [LazyStar any_char; Close; Look (fun s => ahead question_header s || at_end s)].

(** [re.findall] of the block pattern. *)
Definition question_blocks (questions_text : string) : list string :=
  group 1 <$> findall block_pattern questions_text.

(** The loop that evaluates each parsed question in turn. *)
Fixpoint evaluate_all (questions : list question_data) (knowledge_base : option string)
    : result (list (gmap string value)) :=
  match questions with
  | [] => Returns []
  | question_data :: rest =>
      bind_result (evaluate_question_comprehensive question_data knowledge_base)
        (fun results =>
           bind_result (evaluate_all rest knowledge_base)
             (fun all_results => Returns (results :: all_results)))
  end.

Definition exclude_from_avg : list string :=
  ["DPS_per_distractor"; "pairwise_similarities"; "readability_level";
   "ease_interpretation"].

(** [min(values)] and [max(values)] of a non-empty list: the first
    element is kept unless a later one is strictly smaller (greater). *)
Definition list_min (first : Q) (rest : list Q) : Q :=
  fold_left (fun m x => if Qltb x m then x else m) rest first.

Definition list_max (first : Q) (rest : list Q) : Q :=
  fold_left (fun m x => if Qltb m x then x else m) rest first.

(** The numeric values of one metric over the results that have it. *)
Definition numeric_values (metric : string) (all_results : list (gmap string value))
    : list Q :=
  omap (fun r => match r !! metric with
                 | Some (VNum q) => Some q
                 | _ => None
                 end) all_results.

(** One turn of the loop over the metric names. The mean is the exact
    quotient [sum(values) / len(values)]; the quotient of a float sum can
    differ from it in the last place. *)
Definition aggregate_metric (all_results : list (gmap string value))
    (metric : string) (metrics : gmap string Q) : gmap string Q :=
  if existsb (String.eqb metric) exclude_from_avg then metrics
  else
    match numeric_values metric all_results with
    | [] => metrics
    | first :: rest =>
        let values := first :: rest in
        <[("max_" ++ metric)%string := list_max first rest]>
          (<[("min_" ++ metric)%string := list_min first rest]>
             (<[("avg_" ++ metric)%string := py_sum values / py_len values]> metrics))
    end.

(** The names of all metrics seen in some result. *)
Definition all_metrics (all_results : list (gmap string value)) : gset string :=
  ⋃ (dom <$> all_results).

(** The aggregated metrics; the order in which the set of names is
    traversed is that of its enumeration. *)
Definition aggregate_metrics (all_results : list (gmap string value)) : gmap string Q :=
  match all_results with
  | [] => ∅
  | _ => foldr (aggregate_metric all_results) ∅ (elements (all_metrics all_results))
  end.

Record aggregate := {
  num_questions : nat;
  metrics : gmap string Q;
  per_question_results : list (gmap string value)
}.

(** [evaluate_question_set_comprehensive]; the reference file is not
    used. *)
Definition evaluate_question_set_comprehensive (files : gmap string text_file)
    (questions_file : string) (knowledge_base_file reference_file : option string)
    : result aggregate :=
  bind_result (read_text files questions_file) (fun questions_text =>
  let knowledge_base :=
    if truthy knowledge_base_file
    then match read_text files (default EmptyString knowledge_base_file) with
         | Returns content => Some content
         | Raises _ => None
         end
    else None in
  let parsed_questions := parse_question_block <$> question_blocks questions_text in
  bind_result (evaluate_all parsed_questions knowledge_base) (fun all_results =>
  Returns {| num_questions := length parsed_questions;
             metrics := aggregate_metrics all_results;
             per_question_results := all_results |})).

(** The three statistics of a metric, when it is aggregated. *)
Definition metric_stats (all_results : list (gmap string value)) (metric : string)
    : option (Q * Q * Q) :=
  if existsb (String.eqb metric) exclude_from_avg then None
  else
    match numeric_values metric all_results with
    | [] => None
    | first :: rest =>
        Some (py_sum (first :: rest) / py_len (first :: rest),
              list_min first rest, list_max first rest)
    end.

(** The three statistics kept for a metric, with the prefix of their keys
    and their place in [metric_stats]. *)
Inductive stat := Avg | Min | Max.

Definition stat_prefix (st : stat) : string :=
  match st with Avg => "avg_" | Min => "min_" | Max => "max_" end.

Definition stat_pick (st : stat) (t : Q * Q * Q) : Q :=
  match st with Avg => fst (fst t) | Min => snd (fst t) | Max => snd t end.

(** ** utils.py: chunking *)

(** [l[start:stop]] for integers that may be negative or out of range. *)
Definition py_slice {A : Type} (l : list A) (start stop : Z) : list A :=
  let n := Z.of_nat (length l) in
  let norm := fun i : Z => if (i <? 0)%Z then Z.max (n + i) 0 else Z.min i n in
  firstn (Z.to_nat (norm stop - norm start)) (skipn (Z.to_nat (norm start)) l).

(** [range(0, n, step)] for [n >= 0]: empty for a negative step, [None]
    (a [ValueError]) for a step of 0. *)
Definition range_from_zero (n step : Z) : option (list Z) :=
  if (step =? 0)%Z then None
  else if (step <? 0)%Z then Some []
  else Some ((fun j => (Z.of_nat j * step)%Z) <$> seq 0 (Z.to_nat ((n + step - 1) / step))).

(** [chunk_text]; [None] stands for the [ValueError] of [range]. *)
Definition chunk_text (text : string) (chunk_size overlap : Z) : option (list string) :=
  let words := split text in
  match range_from_zero (Z.of_nat (length words)) (chunk_size - overlap) with
  | None => None
  | Some indices =>
      Some ((fun i => join " " (py_slice words i (i + chunk_size))) <$> indices)
  end.

(** A word: not empty and without whitespace. *)
Fixpoint no_space (w : string) : bool :=
  match w with
  | EmptyString => true
  | String c w' => negb (isspace c) && no_space w'
  end.

Definition is_word (w : string) : Prop := w <> EmptyString /\ no_space w = true.

(** ** evaluation_metrics.py: the sentences and words of the readability metrics *)

(** The [sentences] of [calculate_readability_level]: the non-empty stripped
    pieces between full stops of the cleaned text. *)
Definition sentences_of (text : string) : list string :=
  List.filter (fun s => negb (String.eqb s EmptyString))
    (strip <$> split_on "." (clean_text text)).

(** Its [words]: the whitespace-separated words of the cleaned text. *)
Definition words_of (text : string) : list string := split (clean_text text).

(** ** utils.py: keywords *)

Definition keyword_stopwords : gset string :=
  list_to_set ["the"; "a"; "an"; "and"; "or"; "but"; "in"; "on"; "at"; "to"; "for";
               "of"; "with"; "by"; "from"; "as"; "is"; "was"; "are"; "were"; "be";
               "been"; "being"; "have"; "has"; "had"; "do"; "does"; "did"; "will";
               "would"; "could"; "should"; "may"; "might"; "can"; "this"; "that"].

(** The characters that [extract_keywords] strips from a word: the full
    stop, the comma, the marks ! ? ; : the three pairs of brackets and the
    two quotation marks. *)
Definition punctuation : list ascii :=
  [ "."; ","; "!"; "?"; ";"; ":"; "("; ")"; "["; "]"; "{"; "}";
    ascii_of_nat 34; "'" ]%char.

(** [s.lstrip(chars)], [s.rstrip(chars)] and [s.strip(chars)]. *)
Fixpoint lstrip_chars (chars : list ascii) (s : string) : string :=
  match s with
  | String c s' => if existsb (Ascii.eqb c) chars then lstrip_chars chars s' else s
  | EmptyString => EmptyString
  end.

Fixpoint rstrip_chars (chars : list ascii) (s : string) : string :=
  match s with
  | EmptyString => EmptyString
  | String c s' =>
      match rstrip_chars chars s' with
      | EmptyString =>
          if existsb (Ascii.eqb c) chars then EmptyString else String c EmptyString
      | r => String c r
      end
  end.

Definition strip_chars (chars : list ascii) (s : string) : string :=
  rstrip_chars chars (lstrip_chars chars s).

(** A dict of counters, kept as the list of its items in insertion order:
    [word_freq.get(word, 0)] and [word_freq[word] = n], where a key that is
    present keeps its place and a new key goes last. *)
Fixpoint freq_get (word_freq : list (string * Z)) (word : string) : Z :=
  match word_freq with
  | [] => 0
  | (w, n) :: rest => if String.eqb w word then n else freq_get rest word
  end.

Fixpoint freq_set (word_freq : list (string * Z)) (word : string) (n : Z)
    : list (string * Z) :=
  match word_freq with
  | [] => [(word, n)]
  | (w, m) :: rest =>
      if String.eqb w word then (w, n) :: rest else (w, m) :: freq_set rest word n
  end.

(** [word and word not in stopwords and len(word) > 3]. *)
Definition is_keyword (word : string) : bool :=
  negb (String.eqb word EmptyString)
  && negb (bool_decide (word ∈ keyword_stopwords))
  && (3 <? String.length word)%nat.

(** The loop over the words. *)
Definition word_frequencies (words : list string) : list (string * Z) :=
  fold_left
    (fun word_freq word =>
       let word := strip_chars punctuation word in
       if is_keyword word
       then freq_set word_freq word (freq_get word_freq word + 1)%Z
       else word_freq)
    words [].

(** [sorted(items, key=lambda x: x[1], reverse=True)]: the sort is stable, so
    items of the same frequency keep their order. *)
Fixpoint insert_by_freq (x : string * Z) (sorted : list (string * Z)) : list (string * Z) :=
  match sorted with
  | [] => [x]
  | y :: rest => if (x.2 <? y.2)%Z then y :: insert_by_freq x rest else x :: sorted
  end.

Definition sorted_by_freq (items : list (string * Z)) : list (string * Z) :=
  foldr insert_by_freq [] items.

Definition extract_keywords (text : string) (top_n : Z) : list string :=
  let words := split (lower text) in
  let word_freq := word_frequencies words in
  let sorted_words := sorted_by_freq word_freq in
  fst <$> py_slice sorted_words 0 top_n.

(** [create_metadata]. *)
Record metadata := {
  md_chunk_id : Z;
  md_word_count : nat;
  md_char_count : nat;
  md_keywords : list string;
  md_difficulty : string
}.

Definition create_metadata (text : string) (chunk_id : Z) : metadata :=
  {| md_chunk_id := chunk_id;
     md_word_count := length (split text);
     md_char_count := String.length text;
     md_keywords := extract_keywords text 5;
     md_difficulty := "medium" |}.

(** The words that [extract_keywords] counts, in text order with
    repetitions, and the number of times it counts one. *)
Definition counted_words (text : string) : list string :=
  List.filter is_keyword (strip_chars punctuation <$> split (lower text)).

Definition occurrences (text : string) (word : string) : nat :=
  count_if (String.eqb word) (counted_words text).

(** ** utils.py: explanations *)

(** [re.sub(p+, ' ', s)] for a class [p] of characters: every maximal run
    of characters of the class becomes one space; [in_run] tells that the
    character before was of the class. *)
Fixpoint sub_runs (p : ascii -> bool) (in_run : bool) (s : string) : string :=
  match s with
  | EmptyString => EmptyString
  | String c s' =>
      if p c
      then if in_run then sub_runs p true s' else String " " (sub_runs p true s')
      else String c (sub_runs p false s')
  end.

(** The pattern [word[:\s]*(.+?)(?=\n\s*question|$)], with [re.IGNORECASE]
    and [re.DOTALL]. *)
Definition reasoning_pattern (word : string) : list item :=
  lit_i word ++
  [Star colon_or_space; Open; One any_char; LazyStar any_char; Close;
   Look (fun s => ahead (lit_i newline ++ [Star isspace] ++ lit_i "question") s
                  || at_end s)].

Definition fallback_patterns : list (list item) :=
  [reasoning_pattern "reasoning"; reasoning_pattern "why"; reasoning_pattern "because"].

Definition no_explanation : string := "No explanation provided for this question.".

(** The loop over the fallback patterns. *)
Fixpoint first_reasoning (patterns : list (list item)) (question_text : string)
    : option string :=
  match patterns with
  | [] => None
  | pattern :: rest =>
      match search pattern question_text with
      | Some (groups, _) =>
          let reasoning := strip (group 1 groups) in
          let reasoning := sub_runs (chr (ascii_of_nat 10)) false reasoning in
          Some (sub_runs isspace false reasoning)
      | None => first_reasoning rest question_text
      end
  end.

Definition extract_reasoning (question_text : string) : string :=
  match search (reasoning_pattern "explanation") question_text with
  | Some (groups, _) =>
      let explanation := strip (group 1 groups) in
      let explanation := sub_runs (chr (ascii_of_nat 10)) false explanation in
      sub_runs isspace false explanation
  | None =>
      match first_reasoning fallback_patterns question_text with
      | Some reasoning => reasoning
      | None => no_explanation
      end
  end.

(** The words that introduce an explanation, and a text that holds one of
    them, in any case, with at least one character after it. *)
Definition reasoning_words : list string := ["explanation"; "reasoning"; "why"; "because"].

Definition mentions (word text : string) : Prop :=
  exists before found after,
    text = (before ++ found ++ after)%string
    /\ lower found = lower word
    /\ after <> EmptyString.

(** ** Properties of the learner model *)

Lemma Qltb_true a b : Qltb a b = true <-> a < b.
Proof.
  unfold Qltb. rewrite negb_true_iff, <- not_true_iff_false, Qle_bool_iff.
  split; [apply Qnot_le_lt | apply Qlt_not_le].
Qed.

Lemma Qltb_false a b : Qltb a b = false <-> b <= a.
Proof.
  unfold Qltb. rewrite negb_false_iff, Qle_bool_iff. reflexivity.
Qed.

Lemma py_clamp_bounds lo hi x :
  lo <= hi -> lo <= py_max lo (py_min hi x) <= hi.
Proof.
  intros Hle. unfold py_max, py_min.
  destruct (Qltb x hi) eqn:E1; destruct (Qltb lo _) eqn:E2;
    try apply Qltb_true in E1; try apply Qltb_false in E1;
    try apply Qltb_true in E2; try apply Qltb_false in E2; lra.
Qed.

Lemma float_of_int_cases (n : Z) :
  (float_of_int n = Returns (inject_Z n) /\ (Z.abs n < float_limit)%Z)
  \/ (float_of_int n = Raises OverflowError /\ (float_limit <= Z.abs n)%Z).
Proof.
  unfold float_of_int. destruct (Z.ltb_spec (Z.abs n) float_limit); [left|right]; auto.
Qed.

Lemma code_confidence_factor confidence :
  match confidence with
  | Some c => if confidence_truthy confidence then inject_Z c / 5 else 1
  | None => 1
  end = nonzero_confidence_factor confidence.
Proof.
  destruct confidence as [c|]; [|reflexivity]. cbn.
  destruct (c =? 0)%Z; reflexivity.
Qed.

(** The two ways [_update_skill_level] ends: with [OverflowError], for a
    non-zero confidence beyond the range of a float, or with the skill level
    assigned. *)
Lemma update_skill_level_cases (self : UserProfile) (correct : bool)
    (difficulty : string) (time_taken : Q) (confidence : option Z) :
  let multiplier := default 1 (difficulty_multipliers !! difficulty) in
  let avg_time :=
    match response_times self with
    | [] => 30
    | _ => py_sum (response_times self) / py_len (response_times self)
    end in
  let time_factor :=
    if Qltb 0 time_taken
    then py_max (5 # 10) (py_min (15 # 10) (avg_time / time_taken))
    else 1 in
  let confidence_factor := nonzero_confidence_factor confidence in
  let skill_change :=
    if correct
    then 30 * multiplier * time_factor * confidence_factor
    else - (30 * multiplier) * confidence_factor in
  (_update_skill_level self correct difficulty time_taken confidence
     = Raises OverflowError
   /\ exists c, confidence = Some c /\ c <> 0%Z /\ (float_limit <= Z.abs c)%Z)
  \/ (_update_skill_level self correct difficulty time_taken confidence
       = Returns (set_skill_level self
                    (py_max 800 (py_min 2200 (skill_level self + skill_change))))
      /\ forall c, confidence = Some c -> c = 0%Z \/ (Z.abs c < float_limit)%Z).
Proof.
  cbv zeta. unfold _update_skill_level, nonzero_confidence_factor.
  destruct confidence as [c|]; cbn [confidence_truthy bind_result].
  - destruct (Z.eqb_spec c 0) as [->|Hc]; cbn [negb bind_result].
    + right. split; [reflexivity|]. intros c [= <-]. left; reflexivity.
    + destruct (float_of_int_cases c) as [[-> Hin]|[-> Hout]]; cbn [bind_result].
      * right. split; [reflexivity|]. intros c' [= <-]. right; exact Hin.
      * left. split; [reflexivity|]. exists c. auto.
  - right. split; [reflexivity|]. intros c Hc. discriminate Hc.
Qed.

(** The object after [add_response]: the attributes recorded, and the
    skill level set by the update when it returns. *)
Lemma add_response_eq self now qid correct time_taken difficulty topic confidence :
  add_response self now qid correct time_taken difficulty topic confidence
  = set_skill_level
      (recorded self now qid correct time_taken difficulty topic confidence)
      (skill_level
         (add_response self now qid correct time_taken difficulty topic confidence)).
Proof.
  unfold add_response.
  destruct (update_skill_level_cases
              (recorded self now qid correct time_taken difficulty topic confidence)
              correct difficulty time_taken confidence) as [[-> _]|[-> _]];
    reflexivity.
Qed.

Lemma add_response_bounds self now qid correct time_taken difficulty topic confidence :
  800 <= skill_level self <= 2200 ->
  800 <= skill_level
           (add_response self now qid correct time_taken difficulty topic confidence)
      <= 2200.
Proof.
  intros Hold. unfold add_response.
  destruct (update_skill_level_cases
              (recorded self now qid correct time_taken difficulty topic confidence)
              correct difficulty time_taken confidence) as [[-> _]|[-> _]].
  - exact Hold.
  - cbn [set_skill_level skill_level]. apply py_clamp_bounds. lra.
Qed.

(** C1. Whatever the calls of a session are, the skill level lies in
    [800, 2200] after every one of them, starting from a fresh profile. *)
Theorem skill_level_always_bounded (uid : string) (calls : list response) :
  Forall (fun p => 800 <= skill_level p <= 2200)
         (profiles_after (init uid) calls).
Proof.
  assert (Hinit : 800 <= skill_level (init uid) <= 2200) by (cbn; lra).
  revert Hinit. generalize (init uid) as p.
  induction calls as [|e rest IH]; intros p Hp; cbn [profiles_after].
  - constructor.
  - assert (Hnext : 800 <= skill_level (record_response p e) <= 2200)
      by (apply add_response_bounds, Hp).
    constructor; [exact Hnext|apply IH, Hnext].
Qed.

(** *** The skill update *)



Lemma multiplier_lookup difficulty :
  default 1 (difficulty_multipliers !! difficulty) = spec_multiplier difficulty.
Proof.
  unfold difficulty_multipliers, spec_multiplier.
  destruct (String.eqb_spec difficulty "easy") as [->|Hne1]; [reflexivity|].
  rewrite lookup_insert_ne by congruence.
  destruct (String.eqb_spec difficulty "medium") as [->|Hne2]; [reflexivity|].
  rewrite lookup_insert_ne by congruence.
  destruct (String.eqb_spec difficulty "hard") as [->|Hne3]; [reflexivity|].
  rewrite lookup_insert_ne by congruence.
  reflexivity.
Qed.



(** *** Accuracy *)

Lemma history_add_response self now qid correct time_taken difficulty topic confidence :
  performance_history
    (add_response self now qid correct time_taken difficulty topic confidence)
  = performance_history self ++
      [ {| timestamp := now; question_id := qid; ev_correct := correct;
           ev_time_taken := time_taken; ev_difficulty := difficulty;
           ev_topic := topic; ev_confidence := confidence |} ].
Proof. rewrite add_response_eq. reflexivity. Qed.

Lemma history_record_response self e :
  performance_history (record_response self e) = performance_history self ++ [e].
Proof. destruct e. unfold record_response. rewrite add_response_eq. reflexivity. Qed.

Lemma history_replay calls : forall self,
  performance_history (replay self calls) = performance_history self ++ calls.
Proof.
  induction calls as [|e rest IH]; intros self; cbn [replay fold_left].
  - symmetry. apply app_nil_r.
  - fold (replay (record_response self e) rest).
    rewrite IH, history_record_response, <- app_assoc. reflexivity.
Qed.

Lemma accuracy_add_response self now qid correct time_taken difficulty topic confidence :
  let self' := add_response self now qid correct time_taken difficulty topic confidence in
  accuracy_rate self'
  = inject_Z (Z.of_nat (count_if ev_correct (performance_history self')))
    / inject_Z (Z.of_nat (length (performance_history self'))).
Proof.
  cbn zeta. rewrite history_add_response.
  rewrite add_response_eq. unfold set_skill_level, recorded. cbn [accuracy_rate].
  destruct (Nat.ltb_spec 0 (length (performance_history self ++
    [ {| timestamp := now; question_id := qid; ev_correct := correct;
         ev_time_taken := time_taken; ev_difficulty := difficulty;
         ev_topic := topic; ev_confidence := confidence |} ]))) as [_|Hlen];
    [reflexivity|].
  rewrite length_app in Hlen. cbn in Hlen. lia.
Qed.

Lemma replay_snoc self calls e :
  replay self (calls ++ [e]) = record_response (replay self calls) e.
Proof. unfold replay. rewrite fold_left_app. reflexivity. Qed.

(** C3. After [N >= 1] responses recorded on a fresh profile the history
    holds exactly these responses and [accuracy_rate] is the fraction
    (#correct)/N, which is also the fraction computed over the whole of
    [performance_history]. *)
Theorem accuracy_rate_exact (uid : string) (calls : list response) :
  (1 <= length calls)%nat ->
  let p := replay (init uid) calls in
  performance_history p = calls
  /\ accuracy_rate p
     = inject_Z (Z.of_nat (count_if ev_correct calls))
       / inject_Z (Z.of_nat (length calls))
  /\ accuracy_rate p
     = inject_Z (Z.of_nat (count_if ev_correct (performance_history p)))
       / inject_Z (Z.of_nat (length (performance_history p))).
Proof.
  intros Hlen p.
  assert (Hhist : performance_history p = calls).
  { subst p. rewrite history_replay. reflexivity. }
  assert (Hacc : accuracy_rate p
     = inject_Z (Z.of_nat (count_if ev_correct (performance_history p)))
       / inject_Z (Z.of_nat (length (performance_history p)))).
  { subst p. destruct (exists_last (l := calls)) as (front & e & ->).
    - intros ->. cbn in Hlen. lia.
    - rewrite replay_snoc. destruct e. apply accuracy_add_response. }
  split; [exact Hhist|]. split; [|exact Hacc].
  rewrite Hacc, Hhist. reflexivity.
Qed.

(** *** Bookkeeping *)

Lemma count_if_app {A : Type} (f : A -> bool) (l1 l2 : list A) :
  count_if f (l1 ++ l2) = (count_if f l1 + count_if f l2)%nat.
Proof.
  induction l1 as [|x l1 IH]; cbn; [reflexivity|].
  destruct (f x); rewrite IH; reflexivity.
Qed.

Lemma count_if_le_length {A : Type} (f : A -> bool) (l : list A) :
  (count_if f l <= length l)%nat.
Proof. induction l as [|x l IH]; cbn; [lia|]. destruct (f x); lia. Qed.

Lemma count_if_full {A : Type} (f : A -> bool) (l : list A) :
  count_if f l = length l -> forall x, In x l -> f x = true.
Proof.
  induction l as [|y l IH]; cbn; intros Hc x Hin; [contradiction|].
  pose proof (count_if_le_length f l) as Hle.
  destruct (f y) eqn:Ey; [|lia].
  destruct Hin as [<-|Hin]; [exact Ey|]. apply IH; [lia|exact Hin].
Qed.

Lemma count_if_none {A : Type} (f : A -> bool) (l : list A) :
  (forall x, In x l -> f x = false) -> count_if f l = 0%nat.
Proof.
  induction l as [|y l IH]; cbn; intros Hf; [reflexivity|].
  rewrite (Hf y) by (left; reflexivity). apply IH. intros x Hx. apply Hf. right; exact Hx.
Qed.

Lemma sum_totals_insert_fresh (tm : gmap string mastery) k x :
  tm !! k = None -> sum_totals (<[k := x]> tm) = (tm_total x + sum_totals tm)%Z.
Proof.
  intros Hk. unfold sum_totals.
  rewrite map_fold_insert_L; [reflexivity| |exact Hk].
  intros; lia.
Qed.

Lemma sum_totals_lookup (tm : gmap string mastery) k x :
  tm !! k = Some x -> sum_totals tm = (tm_total x + sum_totals (delete k tm))%Z.
Proof.
  intros Hk. rewrite <- (insert_delete_id tm k x Hk) at 1.
  apply sum_totals_insert_fresh, lookup_delete_eq.
Qed.

Lemma sum_totals_insert (tm : gmap string mastery) k x :
  sum_totals (<[k := x]> tm) = (tm_total x + sum_totals (delete k tm))%Z.
Proof.
  rewrite <- insert_delete_eq. apply sum_totals_insert_fresh, lookup_delete_eq.
Qed.

(** The topics that have an entry account for as many responses as their
    totals add up to. *)
Lemma sum_totals_counts (history : list response) (tm : gmap string mastery) :
  (forall t m, tm !! t = Some m -> tm_total m = Z.of_nat (count_topic t history)) ->
  sum_totals tm
  = Z.of_nat (count_if (fun e => bool_decide (is_Some (tm !! ev_topic e))) history).
Proof.
  induction tm as [|k x tm Hk IH] using map_ind; intros Htot.
  - unfold sum_totals. rewrite map_fold_empty.
    rewrite count_if_none; [reflexivity|].
    intros e _. apply bool_decide_eq_false. rewrite lookup_empty.
    intros [? ?]; discriminate.
  - rewrite sum_totals_insert_fresh by exact Hk.
    rewrite IH.
    2:{ intros t m Ht. apply Htot. rewrite lookup_insert_ne; [exact Ht|].
        intros ->. rewrite Hk in Ht. discriminate. }
    rewrite (Htot k x) by apply lookup_insert_eq.
    rewrite <- Nat2Z.inj_add. f_equal. unfold count_topic.
    clear IH Htot. induction history as [|e history IHh]; cbn; [reflexivity|].
    destruct (String.eqb_spec (ev_topic e) k) as [->|Hne].
    + rewrite lookup_insert_eq.
      rewrite (bool_decide_eq_true_2 (is_Some (Some x))) by eauto.
      rewrite (bool_decide_eq_false_2 (is_Some (tm !! k))).
      2:{ rewrite Hk. intros [? ?]; discriminate. }
      cbn. rewrite IHh. reflexivity.
    + rewrite lookup_insert_ne by congruence.
      destruct (bool_decide (is_Some (tm !! ev_topic e))); rewrite <- IHh; lia.
Qed.

(** Under the bookkeeping invariant a topic without an entry has no
    recorded response. *)
Lemma bookkeeping_absent_topic p t :
  bookkeeping p -> topics_mastery p !! t = None ->
  count_topic t (performance_history p) = 0%nat.
Proof.
  intros (Hlen & Hsum & Htopics) Hnone.
  rewrite (sum_totals_counts (performance_history p)) in Hsum.
  2:{ intros t' m Ht'. apply (Htopics t' m Ht'). }
  rewrite <- Hlen in Hsum. apply Nat2Z.inj in Hsum. symmetry in Hsum.
  apply count_if_none. intros e He.
  pose proof (count_if_full _ _ Hsum e He) as Hin.
  apply bool_decide_eq_true in Hin.
  destruct (String.eqb_spec (ev_topic e) t) as [Heq|Hne]; [|reflexivity].
  rewrite Heq, Hnone in Hin. destruct Hin; discriminate.
Qed.

Lemma alter_lookup_insert (tm : gmap string mastery) f k x :
  tm !! k = Some x -> alter f k tm = <[k := f x]> tm.
Proof.
  intros Hk. rewrite <- (insert_id tm k x Hk) at 1.
  rewrite alter_insert_eq. reflexivity.
Qed.

Lemma mastery_add_response self now qid correct time_taken difficulty topic confidence :
  topics_mastery
    (add_response self now qid correct time_taken difficulty topic confidence)
  = <[topic := entry_after (topics_mastery self) topic correct]> (topics_mastery self).
Proof.
  rewrite add_response_eq. unfold set_skill_level, recorded, entry_after.
  cbn [topics_mastery].
  destruct (topics_mastery self !! topic) as [old|] eqn:Hold; cbn [default from_option id].
  - rewrite (alter_lookup_insert _ bump_total topic old Hold).
    destruct correct; [|reflexivity].
    rewrite alter_insert_eq. reflexivity.
  - rewrite alter_insert_eq.
    destruct correct; [|reflexivity].
    rewrite alter_insert_eq. reflexivity.
Qed.

Lemma times_add_response self now qid correct time_taken difficulty topic confidence :
  response_times
    (add_response self now qid correct time_taken difficulty topic confidence)
  = response_times self ++ [time_taken].
Proof. rewrite add_response_eq. reflexivity. Qed.

(** C4. [add_response] preserves the bookkeeping invariant: history and
    response times have the same length, which is the sum of the topics'
    totals; every topic's total is the number of recorded responses on that
    topic and bounds its count of correct ones. *)
Theorem add_response_preserves_bookkeeping
    self now qid correct time_taken difficulty topic confidence :
  bookkeeping self ->
  bookkeeping (add_response self now qid correct time_taken difficulty topic confidence).
Proof.
  intros Hinv. pose proof Hinv as (Hlen & Hsum & Htopics).
  unfold bookkeeping.
  rewrite history_add_response, times_add_response, mastery_add_response.
  rewrite !length_app. cbn [length].
  split; [lia|]. split.
  - rewrite sum_totals_insert. unfold entry_after.
    destruct (topics_mastery self !! topic) as [old|] eqn:Hold; cbn [default from_option id tm_total].
    + rewrite (sum_totals_lookup _ topic old Hold) in Hsum. lia.
    + rewrite delete_id by exact Hold. lia.
  - intros t m. unfold count_topic. rewrite count_if_app. cbn [count_if ev_topic].
    fold (count_topic t (performance_history self)).
    destruct (String.eqb_spec topic t) as [<-|Hne].
    + rewrite lookup_insert_eq. intros [= <-]. unfold entry_after.
      destruct (topics_mastery self !! topic) as [old|] eqn:Hold; cbn [default from_option id tm_total tm_correct].
      * destruct (Htopics topic old Hold) as [Ht Hc].
        split; [lia|]. destruct correct; lia.
      * rewrite (bookkeeping_absent_topic self topic Hinv Hold).
        split; [lia|]. destruct correct; lia.
    + rewrite lookup_insert_ne by exact Hne. intros Ht.
      destruct (Htopics t m Ht) as [Htot Hc]. split; [lia|exact Hc].
Qed.

(** *** Persistence *)






(** *** The text of a JSON value reads back *)









































(** ** Properties of the parser *)

Lemma first_answer_none (patterns : list (list item)) (block : string) :
  first_answer patterns block = None <->
  forall pattern, In pattern patterns -> search pattern block = None.
Proof.
  induction patterns as [|p rest IH]; cbn [first_answer].
  - split; [intros _ ? []|reflexivity].
  - destruct (search p block) as [[groups after]|] eqn:Hp.
    + split; [discriminate|]. intros Hall.
      rewrite (Hall p) in Hp by (left; reflexivity). discriminate.
    + rewrite IH. split.
      * intros Hrest q [<-|Hq]; [exact Hp|apply Hrest, Hq].
      * intros Hall q Hq. apply Hall. right; exact Hq.
Qed.

Lemma first_answer_first (earlier later : list (list item)) (pattern : list item)
    (block : string) (groups : list string) (after : string) :
  (forall q, In q earlier -> search q block = None) ->
  search pattern block = Some (groups, after) ->
  first_answer (earlier ++ pattern :: later) block = Some (upper (group 1 groups)).
Proof.
  induction earlier as [|q earlier IH]; intros Hfail Hmatch; cbn [first_answer app].
  - rewrite Hmatch. reflexivity.
  - rewrite (Hfail q) by (left; reflexivity).
    apply IH; [|exact Hmatch]. intros q' Hq'. apply Hfail. right; exact Hq'.
Qed.

(** C7. When none of the four answer patterns matches the block, the
    parsed [correct_answer] is unset (and only then); when some pattern
    matches, the first one in the list that does gives the answer: the
    upper-cased letter its match captured. *)
Theorem correct_answer_first_match (block : string) :
  ((forall pattern, In pattern answer_patterns -> search pattern block = None) <->
   correct_answer (parse_question_block block) = None)
  /\ forall earlier pattern later groups after,
       answer_patterns = earlier ++ pattern :: later ->
       (forall q, In q earlier -> search q block = None) ->
       search pattern block = Some (groups, after) ->
       correct_answer (parse_question_block block) = Some (upper (group 1 groups)).
Proof.
  cbn [parse_question_block correct_answer]. split.
  - symmetry. apply first_answer_none.
  - intros earlier pattern later groups after Hsplit Hfail Hmatch.
    rewrite Hsplit. apply first_answer_first with (after := after); assumption.
Qed.

(** The parser on the well-formed sample block, and on a sentence in which
    only the third pattern finds a letter: the "a" of "answer". *)
Example parse_sample_block :
  parse_question_block sample_block
  = {| question := "What is X?";
       options := ["foo"; "bar"; "baz"; "qux"];
       correct_answer := Some "B"%string;
       explanation := "because reasons." |}.
Proof. vm_compute. reflexivity. Qed.

Example parse_answer_in_prose :
  correct_answer (parse_question_block "The correct answer is C") = Some "A"%string.
Proof. vm_compute. reflexivity. Qed.

(** ** Properties of the scorers *)

Lemma bind_singleton_fmap {A B : Type} (g : A -> B) (l : list A) :
  (x ← l; [g x]) = g <$> l.
Proof. induction l as [|x l IH]; [reflexivity|]. rewrite bind_cons, IH. reflexivity. Qed.

Lemma nth_seq_suffix (pre rest : list string) (d : string) :
  (fun j => nth j (pre ++ rest) d) <$> seq (length pre) (length rest) = rest.
Proof.
  revert pre. induction rest as [|y rest IH]; intros pre; [reflexivity|].
  cbn [length seq fmap list_fmap]. rewrite nth_middle. f_equal.
  specialize (IH (pre ++ [y])).
  rewrite <- app_assoc, length_app in IH. cbn [length app] in IH.
  rewrite Nat.add_1_r in IH. exact IH.
Qed.

Lemma pairs_from (sim : string -> string -> Q) (all : list string) (n : nat) :
  n = length all ->
  forall rest pre, all = pre ++ rest ->
  (i ← seq (length pre) (length rest);
   j ← seq (i + 1) (n - (i + 1));
   [sim (nth i all EmptyString) (nth j all EmptyString)])
  = (fun pair => sim (fst pair) (snd pair)) <$> all_pairs rest.
Proof.
  intros Hn. induction rest as [|x rest IH]; intros pre Hall; [reflexivity|].
  cbn [length seq all_pairs]. rewrite bind_cons, fmap_app. f_equal.
  - rewrite bind_singleton_fmap.
    assert (Hcount : (n - (length pre + 1) = length rest)%nat).
    { rewrite Hn, Hall, length_app. cbn [length]. lia. }
    rewrite Hcount, Nat.add_1_r.
    assert (Hx : nth (length pre) all EmptyString = x).
    { rewrite Hall. apply nth_middle. }
    rewrite Hx, <- list_fmap_compose.
    transitivity ((fun y => sim x y) <$>
                    ((fun j => nth j ((pre ++ [x]) ++ rest) EmptyString)
                       <$> seq (length (pre ++ [x])) (length rest))).
    + rewrite <- list_fmap_compose, length_app. cbn [length]. rewrite Nat.add_1_r.
      apply list_fmap_ext. intros _ j _. cbn [compose fst snd].
      rewrite Hall, <- app_assoc. reflexivity.
    + rewrite nth_seq_suffix. reflexivity.
  - specialize (IH (pre ++ [x])).
    rewrite length_app in IH. cbn [length] in IH. rewrite Nat.add_1_r in IH.
    apply IH. rewrite Hall, <- app_assoc. reflexivity.
Qed.

(** The nested index loops enumerate exactly the pairs of options. *)
Lemma pairwise_similarities_all_pairs (options : list string) :
  pairwise_similarities options = option_similarity <$> all_pairs options.
Proof.
  unfold pairwise_similarities.
  apply (pairs_from (fun a b => jaccard (word_set a) (word_set b)) options
           (length options) eq_refl options []).
  reflexivity.
Qed.

Lemma fold_left_Qplus_zero (l : list Q) :
  Forall (fun x => x == 0) l -> forall acc, fold_left Qplus l acc == acc.
Proof.
  induction 1 as [|x l Hx _ IH]; intros acc; cbn [fold_left]; [reflexivity|].
  rewrite IH, Hx. ring.
Qed.

Lemma average_zero (l : list Q) : Forall (fun x => x == 0) l -> average l == 0.
Proof.
  intros Hl. destruct l as [|x l]; [reflexivity|].
  unfold average, py_sum. rewrite (fold_left_Qplus_zero _ Hl). apply Qmult_0_l.
Qed.

Lemma num_pos (n : nat) : (0 < n)%nat -> 0 < num n.
Proof.
  intros Hn. unfold num. change 0 with (inject_Z 0). rewrite <- Zlt_Qlt. lia.
Qed.

Lemma jaccard_same (a : gset string) : a <> ∅ -> jaccard a a == 1.
Proof.
  intros Ha. unfold jaccard.
  rewrite (idemp_L (∪) a), (idemp_L (∩) a).
  assert (Hsize : (0 < size a)%nat).
  { destruct (decide (size a = 0%nat)) as [Hz|Hz]; [|lia].
    apply size_empty_inv in Hz. exfalso. apply Ha. apply leibniz_equiv, Hz. }
  destruct (Nat.ltb_spec 0 (size a)) as [_|Hle]; [|lia].
  apply Qmult_inv_r. intros Hzero. pose proof (num_pos _ Hsize) as Hpos.
  rewrite Hzero in Hpos. apply (Qlt_irrefl 0 Hpos).
Qed.

Lemma jaccard_disjoint (a b : gset string) : a ∩ b = ∅ -> jaccard a b == 0.
Proof.
  intros Hab. unfold jaccard. rewrite Hab, size_empty.
  destruct (0 <? size (a ∪ b))%nat; [|reflexivity].
  apply Qmult_0_l.
Qed.

Lemma calculate_sos_short (options : list string) :
  (length options < 2)%nat ->
  calculate_sos options !! "SOS" = Some (VNum 0)
  /\ calculate_sos options !! "option_diversity" = Some (VNum 0).
Proof.
  intros Hlen. unfold calculate_sos.
  destruct (Nat.ltb_spec (length options) 2) as [_|Hge]; [|lia].
  split; reflexivity.
Qed.

(** C8 (as amended). For a list of at least two options, [SOS] is the
    average Jaccard similarity over all option pairs and [option_diversity]
    is [1 - SOS]; two identical options that contain a word give [SOS = 1]
    and diversity 0; options with pairwise disjoint vocabularies give
    [SOS = 0] and diversity 1. For fewer than two options both metrics
    are 0. *)
Theorem sos_and_diversity (options : list string) :
  ((length options < 2)%nat ->
   calculate_sos options !! "SOS" = Some (VNum 0)
   /\ calculate_sos options !! "option_diversity" = Some (VNum 0))
  /\ ((2 <= length options)%nat ->
      let sos := mean_pairwise_similarity options in
      calculate_sos options !! "SOS" = Some (VNum sos)
      /\ calculate_sos options !! "option_diversity" = Some (VNum (1 - sos))
      /\ (forall s, options = [s; s] -> word_set s <> ∅ -> sos == 1 /\ 1 - sos == 0)
      /\ (disjoint_vocabularies options -> sos == 0 /\ 1 - sos == 1)).
Proof.
  split; [apply calculate_sos_short|].
  intros Hlen sos. unfold calculate_sos.
  destruct (Nat.ltb_spec (length options) 2) as [Hlt|_]; [lia|].
  rewrite pairwise_similarities_all_pairs. fold (mean_pairwise_similarity options).
  fold sos. split; [reflexivity|]. split; [reflexivity|]. split.
  - intros s -> Hs.
    assert (Hsos : sos == 1).
    { subst sos. unfold mean_pairwise_similarity, average, py_sum, py_len, option_similarity.
      cbn [all_pairs fmap list_fmap app fold_left length fst snd].
      rewrite (jaccard_same _ Hs). reflexivity. }
    split; [exact Hsos|]. rewrite Hsos. reflexivity.
  - intros Hdisjoint.
    assert (Hsos : sos == 0).
    { subst sos. unfold mean_pairwise_similarity. apply average_zero.
      apply Forall_fmap. eapply Forall_impl; [exact Hdisjoint|].
      intros pair Hpair. apply jaccard_disjoint, Hpair. }
    split; [exact Hsos|]. rewrite Hsos. reflexivity.
Qed.

(** C8 as stated fails on a single option, where the diversity is 0 and
    not [1 - SOS = 1], and on two identical empty options, where [SOS] is
    0 and not 1. *)
Lemma sos_single_option_and_empty_options :
  (calculate_sos ["foo"] !! "SOS" = Some (VNum 0)
   /\ calculate_sos ["foo"] !! "option_diversity" = Some (VNum 0)
   /\ ~ 0 == 1 - 0)
  /\ (calculate_sos [EmptyString; EmptyString] !! "SOS" = Some (VNum 0)
      /\ ~ 0 == 1).
Proof. repeat split; discriminate. Qed.

(** *** Clarity: the ambiguity component *)

Lemma count_if_filter {A : Type} (f : A -> bool) (l : list A) :
  count_if f l = length (List.filter f l).
Proof.
  induction l as [|x l IH]; cbn; [reflexivity|].
  destruct (f x); cbn; rewrite IH; reflexivity.
Qed.

Lemma py_max_zero (x y : Q) :
  x == y -> py_max 0 x == (if Qle_bool y 0 then 0 else y).
Proof.
  intros Hxy. unfold py_max, Qltb.
  rewrite (Qleb_comp x y Hxy 0 0 (Qeq_refl 0)).
  destruct (Qle_bool y 0); cbn [negb]; [reflexivity|exact Hxy].
Qed.

Lemma filter_length_le {A : Type} (f : A -> bool) (l : list A) :
  (length (List.filter f l) <= length l)%nat.
Proof. induction l as [|x l IH]; cbn; [lia|]. destruct (f x); cbn; lia. Qed.

(** C9 (as amended). The ambiguity component of [calculate_clarity] is
    [max(0, 1 - 0.2 * count)] where [count] is the number of entries of the
    ambiguous-word list that occur in the normalised text at all: an entry
    contributes 1 however often it occurs, so [count] is at most 10. *)
Theorem ambiguity_component (question_text : string) :
  exists penalty,
    calculate_clarity question_text !! "ambiguity_score" = Some (VNum penalty)
    /\ penalty == ambiguity_of_count (listed_words_present question_text)
    /\ (listed_words_present question_text <= 10)%nat.
Proof.
  eexists. split; [reflexivity|]. split.
  - unfold ambiguity_of_count, listed_words_present, normalized.
    rewrite <- count_if_filter. apply py_max_zero. ring.
  - apply (filter_length_le _ ambiguous_words).
Qed.

(** C9 as stated fails when a listed word occurs twice: "maybe maybe" has
    two occurrences, which would give 0.6, and the component is 0.8. *)
Lemma ambiguity_repeated_word :
  listed_word_occurrences "maybe maybe" = 2%nat
  /\ calculate_clarity "maybe maybe" !! "ambiguity_score" = Some (VNum (8 # 10))
  /\ ~ 8 # 10 == ambiguity_of_count (listed_word_occurrences "maybe maybe").
Proof.
  split; [reflexivity|]. split; [reflexivity|].
  intros H. vm_compute in H. discriminate H.
Qed.

(** *** The comprehensive evaluation *)

Ltac each_distractor_key k Hk :=
  cbn [distractor_metric_keys In] in Hk;
  repeat (destruct Hk as [<-|Hk]); [..|contradiction].

Lemma clarity_no_distractor_key text k :
  In k distractor_metric_keys -> calculate_clarity text !! k = None.
Proof. intros Hk. each_distractor_key k Hk; reflexivity. Qed.

Lemma relevance_no_distractor_key text opts kb k :
  In k distractor_metric_keys -> calculate_relevance text opts kb !! k = None.
Proof. intros Hk. each_distractor_key k Hk; reflexivity. Qed.

Lemma readability_no_distractor_key text k :
  In k distractor_metric_keys -> calculate_readability_level text !! k = None.
Proof.
  intros Hk. unfold calculate_readability_level.
  destruct (List.filter _ _) as [|s sentences]; [each_distractor_key k Hk; reflexivity|].
  destruct (split _) as [|w words]; each_distractor_key k Hk; reflexivity.
Qed.

Lemma sos_no_distractor_key opts k :
  In k distractor_metric_keys -> calculate_sos opts !! k = None.
Proof.
  intros Hk. unfold calculate_sos.
  destruct (length opts <? 2)%nat; each_distractor_key k Hk; reflexivity.
Qed.

Lemma rationale_no_distractor_key rationale text answer k :
  In k distractor_metric_keys ->
  calculate_rationale_quality rationale text answer !! k = None.
Proof.
  intros Hk. unfold calculate_rationale_quality.
  destruct (_ || _); each_distractor_key k Hk; reflexivity.
Qed.


Lemma nonempty_true (s : string) : s <> EmptyString -> nonempty s = true.
Proof.
  intros Hs. unfold nonempty. destruct (String.eqb_spec s EmptyString); [contradiction|reflexivity].
Qed.


(** ** The properties on sample inputs *)

(** C3 on a session of three responses, two of them correct. *)
Lemma sample_accuracy :
  (1 <= length sample_calls)%nat
  /\ accuracy_rate (replay (init "ann") sample_calls) = inject_Z 2 / inject_Z 3.
Proof.
  assert (Hlen : (1 <= length sample_calls)%nat) by (cbn; lia).
  split; [exact Hlen|].
  exact (proj1 (proj2 (accuracy_rate_exact "ann" sample_calls Hlen))).
Defined.

(** C4 on the first response recorded on a fresh profile. *)
Lemma sample_bookkeeping :
  bookkeeping (init "ann")
  /\ bookkeeping (add_response (init "ann") "2025-03-01T10:00:00" "q_1_0" true 12
                    "medium" "algebra" (Some 4%Z)).
Proof.
  assert (Hinit : bookkeeping (init "ann")).
  { split; [reflexivity|]. split; [reflexivity|].
    intros t m Hm. cbn [init topics_mastery] in Hm.
    rewrite lookup_empty in Hm. discriminate Hm. }
  split; [exact Hinit|].
  apply add_response_preserves_bookkeeping. exact Hinit.
Defined.



(** C7 on a block without any answer and on a block in which the second
    and the fourth pattern match. *)
Lemma sample_correct_answer :
  correct_answer (parse_question_block "Question 1: What? A) x B) y") = None
  /\ correct_answer (parse_question_block "Answer: b **C**") = Some "B"%string.
Proof.
  split.
  - apply (proj1 (correct_answer_first_match "Question 1: What? A) x B) y")).
    intros pattern Hin. cbn [answer_patterns In] in Hin.
    destruct Hin as [<-|[<-|[<-|[<-|[]]]]]; vm_compute; reflexivity.
  - refine (proj2 (correct_answer_first_match "Answer: b **C**")
              (firstn 1 answer_patterns) (nth 1 answer_patterns [])
              (skipn 2 answer_patterns) ["b"%string] " **C**"%string eq_refl _ _).
    + intros q Hin. cbn [answer_patterns firstn In] in Hin.
      destruct Hin as [<-|[]]. vm_compute; reflexivity.
    + vm_compute; reflexivity.
Defined.

(** C8 (as amended) on one option, on two identical options and on three
    options without a common word. *)
Lemma sample_sos :
  (calculate_sos ["red apple"] !! "option_diversity" = Some (VNum 0))
  /\ (mean_pairwise_similarity ["red apple"; "red apple"] == 1)
  /\ (mean_pairwise_similarity ["red apple"; "green pear"; "blue plum"] == 0).
Proof.
  split; [|split].
  - apply (proj1 (sos_and_diversity ["red apple"])). cbn; lia.
  - assert (Hlen : (2 <= length ["red apple"; "red apple"])%nat) by (cbn; lia).
    destruct (proj2 (sos_and_diversity ["red apple"; "red apple"]) Hlen)
      as (_ & _ & Hsame & _).
    apply (Hsame "red apple"%string eq_refl).
    intros Hempty. vm_compute in Hempty. discriminate Hempty.
  - assert (Hlen : (2 <= length ["red apple"; "green pear"; "blue plum"])%nat)
      by (cbn; lia).
    destruct (proj2 (sos_and_diversity ["red apple"; "green pear"; "blue plum"]) Hlen)
      as (_ & _ & _ & Hdisjoint).
    apply Hdisjoint. unfold disjoint_vocabularies. cbn [all_pairs fmap list_fmap app].
    repeat constructor; vm_compute; reflexivity.
Defined.


(** *** The number format of the samples reads back *)












(** ** Further properties of the learner model *)

Lemma times_record_response self e :
  response_times (record_response self e) = response_times self ++ [ev_time_taken e].
Proof. unfold record_response. rewrite add_response_eq. reflexivity. Qed.

Lemma scores_record_response self e :
  confidence_scores (record_response self e)
  = confidence_scores self ++ option_list (kept_confidence e).
Proof.
  unfold record_response. rewrite add_response_eq.
  destruct e as [ts qid c tt df tp [cf|]]; unfold set_skill_level, recorded, kept_confidence;
    cbn [confidence_scores ev_confidence confidence_truthy timestamp question_id
         ev_correct ev_time_taken ev_difficulty ev_topic].
  - destruct (cf =? 0)%Z; cbn [negb option_list]; [rewrite app_nil_r|]; reflexivity.
  - cbn [option_list]. rewrite app_nil_r. reflexivity.
Qed.

Lemma frame_record_response self e :
  user_id (record_response self e) = user_id self
  /\ current_difficulty (record_response self e) = current_difficulty self.
Proof. unfold record_response. rewrite add_response_eq. split; reflexivity. Qed.

Lemma replay_records (calls : list response) : forall self,
  response_times (replay self calls)
    = response_times self ++ (ev_time_taken <$> calls)
  /\ confidence_scores (replay self calls)
     = confidence_scores self ++ omap kept_confidence calls
  /\ user_id (replay self calls) = user_id self
  /\ current_difficulty (replay self calls) = current_difficulty self.
Proof.
  induction calls as [|e rest IH]; intros self.
  - cbn [replay fold_left fmap list_fmap omap list_omap].
    rewrite !app_nil_r. repeat split.
  - cbn [replay fold_left]. fold (replay (record_response self e) rest).
    destruct (IH (record_response self e)) as (Ht & Hc & Hu & Hd).
    rewrite Ht, Hc, Hu, Hd.
    rewrite times_record_response, scores_record_response.
    destruct (frame_record_response self e) as [-> ->].
    rewrite <- !app_assoc.
    split; [reflexivity|]. split; [|split; reflexivity].
    cbn [omap list_omap]. destruct (kept_confidence e); reflexivity.
Qed.

(** X1. Whatever profile a session starts from, it appends to
    [response_times] the [time_taken] of its calls and to
    [confidence_scores] the non-zero confidences provided, both in call
    order, and it changes neither [user_id] nor [current_difficulty]; on a
    fresh profile [response_times] is therefore parallel to
    [performance_history]. *)
Theorem session_records (self : UserProfile) (calls : list response) :
  let p := replay self calls in
  response_times p = response_times self ++ (ev_time_taken <$> calls)
  /\ confidence_scores p = confidence_scores self ++ omap kept_confidence calls
  /\ user_id p = user_id self
  /\ current_difficulty p = current_difficulty self
  /\ (response_times self = ev_time_taken <$> performance_history self ->
      response_times p = ev_time_taken <$> performance_history p).
Proof.
  cbn zeta. destruct (replay_records calls self) as (Ht & Hc & Hu & Hd).
  repeat (split; [assumption|]).
  intros Hself. rewrite Ht, history_replay, fmap_app, Hself. reflexivity.
Qed.

(** *** Topic mastery *)

Lemma count_correct_topic_le t history :
  (count_correct_topic t history <= count_topic t history)%nat.
Proof.
  unfold count_correct_topic, count_topic.
  induction history as [|e history IH]; cbn [count_if]; [lia|].
  destruct (ev_correct e), (String.eqb (ev_topic e) t); cbn [andb]; lia.
Qed.

Lemma mastery_step (tm : gmap string mastery) history e :
  (forall t, tm !! t = mastery_of_history history t) ->
  forall t,
    <[ev_topic e := entry_after tm (ev_topic e) (ev_correct e)]> tm !! t
    = mastery_of_history (history ++ [e]) t.
Proof.
  intros Hinv t.
  unfold mastery_of_history, count_topic, count_correct_topic.
  rewrite !count_if_app. cbn [count_if].
  fold (count_topic t history). fold (count_correct_topic t history).
  destruct (String.eqb_spec (ev_topic e) t) as [Heq|Hne].
  - subst t. rewrite lookup_insert_eq, andb_true_r.
    destruct (Nat.eqb_spec (count_topic (ev_topic e) history + 1) 0) as [Hz|_]; [lia|].
    unfold entry_after. rewrite (Hinv (ev_topic e)). unfold mastery_of_history.
    pose proof (count_correct_topic_le (ev_topic e) history) as Hle.
    destruct (Nat.eqb_spec (count_topic (ev_topic e) history) 0) as [Hz|Hnz];
      cbn [default from_option id tm_correct tm_total].
    + assert (Hc : count_correct_topic (ev_topic e) history = 0%nat) by lia.
      rewrite Hz, Hc. destruct (ev_correct e); reflexivity.
    + f_equal. destruct (ev_correct e); f_equal; lia.
  - rewrite lookup_insert_ne by exact Hne.
    rewrite andb_false_r, !Nat.add_0_r. apply Hinv.
Qed.

Lemma mastery_record_response self e :
  topics_mastery (record_response self e)
  = <[ev_topic e := entry_after (topics_mastery self) (ev_topic e) (ev_correct e)]>
      (topics_mastery self).
Proof. destruct e. apply mastery_add_response. Qed.

(** X2. After any session on a fresh profile, [topics_mastery] has an
    entry exactly for the topics that occur in the session, and the entry of
    a topic holds the number of responses on it and the number of correct
    ones among them. *)
Theorem mastery_counts_session (uid : string) (calls : list response) (t : string) :
  topics_mastery (replay (init uid) calls) !! t = mastery_of_history calls t.
Proof.
  assert (Hgen : forall calls self,
    (forall t, topics_mastery self !! t = mastery_of_history (performance_history self) t) ->
    forall t, topics_mastery (replay self calls) !! t
              = mastery_of_history (performance_history self ++ calls) t).
  { clear. induction calls as [|e rest IH]; intros self Hinv t.
    - cbn [replay fold_left]. rewrite app_nil_r. apply Hinv.
    - cbn [replay fold_left]. fold (replay (record_response self e) rest).
      rewrite (IH (record_response self e)).
      + rewrite history_record_response, <- app_assoc. reflexivity.
      + intros t'. rewrite mastery_record_response, history_record_response.
        apply mastery_step, Hinv. }
  apply (Hgen calls (init uid)). intros t'. apply lookup_empty.
Qed.

(** *** Direction and size of a skill update *)

Lemma multiplier_bounds difficulty :
  8 # 10 <= default 1 (difficulty_multipliers !! difficulty) <= 12 # 10.
Proof.
  rewrite multiplier_lookup. unfold spec_multiplier.
  destruct (String.eqb difficulty "easy"); [lra|].
  destruct (String.eqb difficulty "medium"); [lra|].
  destruct (String.eqb difficulty "hard"); lra.
Qed.

Lemma time_factor_bounds (avg_time time_taken : Q) :
  5 # 10 <= (if Qltb 0 time_taken
             then py_max (5 # 10) (py_min (15 # 10) (avg_time / time_taken))
             else 1) <= 15 # 10.
Proof.
  destruct (Qltb 0 time_taken); [apply py_clamp_bounds|]; lra.
Qed.

Lemma confidence_factor_bounds (confidence : option Z) :
  (forall c, confidence = Some c -> 0 <= c <= 5)%Z ->
  0 <= nonzero_confidence_factor confidence <= 1.
Proof.
  intros Hc. unfold nonzero_confidence_factor.
  destruct confidence as [c|]; [|lra].
  destruct (c =? 0)%Z; [lra|].
  specialize (Hc c eq_refl). split.
  - apply Qle_shift_div_l; [lra|]. rewrite Qmult_0_l.
    change 0 with (inject_Z 0). rewrite <- Zle_Qle. lia.
  - apply Qle_shift_div_r; [lra|].
    change (1 * 5) with (inject_Z 5). rewrite <- Zle_Qle. lia.
Qed.

Lemma py_clamp_step (lo hi old change bound : Q) :
  lo <= old <= hi -> - bound <= change <= bound ->
  old - bound <= py_max lo (py_min hi (old + change)) <= old + bound.
Proof.
  intros Hold Hchange. unfold py_max, py_min.
  destruct (Qltb (old + change) hi) eqn:E1; destruct (Qltb lo _) eqn:E2;
    repeat match goal with
           | H : Qltb _ _ = true |- _ => apply Qltb_true in H
           | H : Qltb _ _ = false |- _ => apply Qltb_false in H
           end; lra.
Qed.

Lemma py_clamp_up (lo hi old change : Q) :
  lo <= old <= hi -> 0 <= change -> old <= py_max lo (py_min hi (old + change)).
Proof.
  intros Hold Hchange. unfold py_max, py_min.
  destruct (Qltb (old + change) hi) eqn:E1; destruct (Qltb lo _) eqn:E2;
    repeat match goal with
           | H : Qltb _ _ = true |- _ => apply Qltb_true in H
           | H : Qltb _ _ = false |- _ => apply Qltb_false in H
           end; lra.
Qed.

Lemma py_clamp_down (lo hi old change : Q) :
  lo <= old <= hi -> change <= 0 -> py_max lo (py_min hi (old + change)) <= old.
Proof.
  intros Hold Hchange. unfold py_max, py_min.
  destruct (Qltb (old + change) hi) eqn:E1; destruct (Qltb lo _) eqn:E2;
    repeat match goal with
           | H : Qltb _ _ = true |- _ => apply Qltb_true in H
           | H : Qltb _ _ = false |- _ => apply Qltb_false in H
           end; lra.
Qed.

(** X3. On a profile whose skill level is within its bounds, a correct
    response never lowers the skill level and an incorrect one never raises
    it, as long as the confidence is absent or not negative. *)
Theorem skill_moves_with_correctness
    self now qid correct time_taken difficulty topic confidence :
  800 <= skill_level self <= 2200 ->
  (forall c, confidence = Some c -> 0 <= c)%Z ->
  let self' := add_response self now qid correct time_taken difficulty topic confidence in
  if correct then skill_level self <= skill_level self'
  else skill_level self' <= skill_level self.
Proof.
  intros Hold Hconf. cbn zeta. unfold add_response.
  destruct (update_skill_level_cases
              (recorded self now qid correct time_taken difficulty topic confidence)
              correct difficulty time_taken confidence) as [[-> _]|[-> _]].
  { change (skill_level (recorded self now qid correct time_taken difficulty topic
                           confidence)) with (skill_level self).
    destruct correct; lra. }
  unfold set_skill_level, recorded. cbn [skill_level response_times].
  pose proof (multiplier_bounds difficulty) as Hm.
  set (m := default 1 (difficulty_multipliers !! difficulty)) in *.
  match goal with
  | |- context [if Qltb 0 time_taken then py_max _ (py_min _ (?a / _)) else 1] =>
      pose proof (time_factor_bounds a time_taken) as Htf;
      set (tf := if Qltb 0 time_taken then py_max (5 # 10) (py_min (15 # 10) (a / time_taken))
                 else 1) in *
  end.
  assert (Hcf : 0 <= nonzero_confidence_factor confidence).
  { unfold nonzero_confidence_factor. destruct confidence as [c|]; [|lra].
    destruct (c =? 0)%Z; [lra|].
    apply Qle_shift_div_l; [lra|]. rewrite Qmult_0_l.
    change 0 with (inject_Z 0). rewrite <- Zle_Qle. apply Hconf. reflexivity. }
  set (cf := nonzero_confidence_factor confidence) in *.
  destruct correct.
  - apply py_clamp_up; [exact Hold|].
    apply Qmult_le_0_compat; [|exact Hcf].
    apply Qmult_le_0_compat; lra.
  - apply py_clamp_down; [exact Hold|].
    assert (0 <= 30 * m * cf) by (apply Qmult_le_0_compat; lra). lra.
Qed.

(** X4. On a profile whose skill level is within its bounds, one response
    moves the skill level by less than 55 points, and by less than 37 for
    an incorrect one, when the confidence is absent or between 0 and 5. In
    exact arithmetic the largest moves are 54 and 36 points; the margin
    covers the rounding of the float operations of the source. *)
Theorem skill_step_bounded
    self now qid correct time_taken difficulty topic confidence :
  800 <= skill_level self <= 2200 ->
  (forall c, confidence = Some c -> 0 <= c <= 5)%Z ->
  let self' := add_response self now qid correct time_taken difficulty topic confidence in
  let bound := if correct then 55 else 37 in
  skill_level self - bound < skill_level self' < skill_level self + bound.
Proof.
  intros Hold Hconf. cbn zeta. unfold add_response.
  destruct (update_skill_level_cases
              (recorded self now qid correct time_taken difficulty topic confidence)
              correct difficulty time_taken confidence) as [[-> _]|[-> _]].
  { change (skill_level (recorded self now qid correct time_taken difficulty topic
                           confidence)) with (skill_level self).
    destruct correct; lra. }
  unfold set_skill_level, recorded. cbn [skill_level response_times].
  pose proof (multiplier_bounds difficulty) as Hm.
  set (m := default 1 (difficulty_multipliers !! difficulty)) in *.
  match goal with
  | |- context [if Qltb 0 time_taken then py_max _ (py_min _ (?a / _)) else 1] =>
      pose proof (time_factor_bounds a time_taken) as Htf;
      set (tf := if Qltb 0 time_taken then py_max (5 # 10) (py_min (15 # 10) (a / time_taken))
                 else 1) in *
  end.
  pose proof (confidence_factor_bounds confidence Hconf) as Hcf1.
  set (cf := nonzero_confidence_factor confidence) in *.
  assert (Hbase : 0 <= 30 * m * cf <= 36).
  { split; [apply Qmult_le_0_compat; lra|].
    assert (30 * m * cf <= 36 * 1).
    { apply Qmult_le_compat_nonneg; split; lra. }
    lra. }
  destruct correct.
  - assert (Hprod : 0 <= 30 * m * tf * cf <= 54).
    { split; [apply Qmult_le_0_compat; [apply Qmult_le_0_compat|]; lra|].
      assert (H1 : 30 * m * tf <= 36 * (15 # 10)).
      { apply Qmult_le_compat_nonneg; split; lra. }
      assert (H2 : 30 * m * tf * cf <= 36 * (15 # 10) * 1).
      { apply Qmult_le_compat_nonneg; split; try lra.
        apply Qmult_le_0_compat; lra. }
      lra. }
    pose proof (py_clamp_step 800 2200 (skill_level self) (30 * m * tf * cf) 54 Hold)
      as Hstep.
    lra.
  - pose proof (py_clamp_step 800 2200 (skill_level self) (- (30 * m) * cf) 36 Hold)
      as Hstep.
    lra.
Qed.

(** *** Statistics *)

(** X5. After a session on a fresh profile, [get_stats] reports the number
    of calls as [total_questions] and the mean of their [time_taken] as
    [avg_response_time], which is 0 (no division) for the empty session. *)
Theorem get_stats_session (uid : string) (calls : list response) :
  let s := get_stats (replay (init uid) calls) in
  st_total_questions s = length calls
  /\ st_avg_response_time s = average (ev_time_taken <$> calls)
  /\ st_user_id s = uid.
Proof.
  cbn zeta. unfold get_stats.
  cbn [st_total_questions st_avg_response_time st_user_id].
  destruct (replay_records calls (init uid)) as (Ht & _ & Hu & _).
  rewrite Ht, Hu, history_replay. cbn [init response_times performance_history user_id app].
  repeat split.
Qed.

(** *** Loading *)

Lemma dict_get_set (d : list (string * json)) k v k' :
  dict_get (dict_set d k v) k' = if String.eqb k k' then Some v else dict_get d k'.
Proof.
  unfold dict_get.
  induction d as [|[k0 v0] d IH]; cbn [dict_set List.find fst snd].
  - destruct (String.eqb k k'); reflexivity.
  - destruct (String.eqb_spec k0 k) as [->|Hne]; cbn [List.find fst snd].
    + destruct (String.eqb k k'); reflexivity.
    + destruct (String.eqb_spec k0 k') as [->|Hne'].
      * destruct (String.eqb_spec k k') as [->|_]; [contradiction|reflexivity].
      * exact IH.
Qed.

Lemma dict_get_absent (data : list (string * json)) k :
  k ∉ data.*1 -> dict_get data k = None.
Proof.
  unfold dict_get. induction data as [|[k0 v0] data IH]; intros Hk; [reflexivity|].
  cbn [List.find fst snd fmap list_fmap] in *.
  destruct (String.eqb_spec k0 k) as [->|Hne].
  - exfalso. apply Hk. left.
  - apply IH. intros Hin. apply Hk. right. exact Hin.
Qed.

Lemma dict_get_update (data d : list (string * json)) k :
  NoDup data.*1 ->
  dict_get (dict_update d data) k
  = match dict_get data k with
    | Some v => Some v
    | None => dict_get d k
    end.
Proof.
  revert d. induction data as [|[k0 v0] data IH]; intros d Hnd; [reflexivity|].
  cbn [fmap list_fmap fst] in Hnd. apply NoDup_cons in Hnd as [Hk0 Hnd].
  unfold dict_update. cbn [fold_left fst snd]. fold (dict_update (dict_set d k0 v0) data).
  rewrite (IH _ Hnd), dict_get_set.
  unfold dict_get at 3. cbn [List.find fst snd].
  destruct (String.eqb_spec k0 k) as [->|Hne]; [|reflexivity].
  rewrite (dict_get_absent data k Hk0). reflexivity.
Qed.

(** X6. Loading a profile file that holds a JSON object gives a profile
    object in which every attribute present in the file has the file's
    value and every other attribute keeps its default from [__init__]. *)
Theorem load_merges_defaults (fs : gmap string file) (uid : string)
    (data : list (string * json)) :
  fs !! profile_path uid = Some (Readable (Document data)) ->
  NoDup data.*1 ->
  exists attrs,
    load fs uid = Returns attrs
    /\ forall k, dict_get attrs k
                 = match dict_get data k with
                   | Some v => Some v
                   | None => dict_get (profile_dict (init uid)) k
                   end.
Proof.
  intros Hfile Hnd. unfold load, open_read. rewrite Hfile.
  cbn [bind_result json_load dict_update_from].
  eexists. split; [reflexivity|]. intros k. apply dict_get_update, Hnd.
Qed.


(** ** Words of a text *)

Lemma append_cons (c : ascii) (a b : string) :
  (String c a ++ b)%string = String c (a ++ b)%string.
Proof. reflexivity. Qed.

Lemma append_empty_l (b : string) : (EmptyString ++ b)%string = b.
Proof. reflexivity. Qed.

Lemma append_empty_r (a : string) : (a ++ EmptyString)%string = a.
Proof.
  induction a as [|c a IH]; [reflexivity|]. rewrite append_cons, IH. reflexivity.
Qed.

Lemma append_inj_l (p a b : string) : (p ++ a = p ++ b)%string -> a = b.
Proof.
  induction p as [|c p IH]; intros H; [exact H|].
  change (String c (p ++ a) = String c (p ++ b))%string in H.
  injection H as H. apply IH, H.
Qed.

Lemma append_assoc (a b c : string) : ((a ++ b) ++ c)%string = (a ++ (b ++ c))%string.
Proof.
  induction a as [|x a IH]; [reflexivity|]. rewrite !append_cons, IH. reflexivity.
Qed.

Lemma no_space_app (a b : string) :
  no_space (a ++ b) = no_space a && no_space b.
Proof.
  induction a as [|c a IH]; [reflexivity|].
  rewrite append_cons. cbn [no_space]. rewrite IH, andb_assoc. reflexivity.
Qed.

Lemma split_from_words (s cur : string) :
  no_space cur = true -> Forall is_word (split_from cur s).
Proof.
  revert cur. induction s as [|c s IH]; intros cur Hcur; cbn [split_from].
  - destruct cur as [|c' cur']; constructor; [|constructor].
    split; [discriminate|exact Hcur].
  - destruct (isspace c) eqn:Hc.
    + destruct cur as [|c' cur']; [apply IH; reflexivity|].
      constructor; [split; [discriminate|exact Hcur]|apply IH; reflexivity].
    + apply IH. rewrite no_space_app, Hcur. cbn [no_space]. rewrite Hc. reflexivity.
Qed.

Lemma split_words (s : string) : Forall is_word (split s).
Proof. apply split_from_words. reflexivity. Qed.

Lemma split_from_word (w s cur : string) :
  no_space w = true -> split_from cur (w ++ s) = split_from (cur ++ w) s.
Proof.
  revert cur. induction w as [|c w IH]; intros cur Hw.
  - rewrite append_empty_l, append_empty_r. reflexivity.
  - cbn [no_space] in Hw. apply andb_prop in Hw as [Hc Hw].
    rewrite append_cons. cbn [split_from].
    apply negb_true_iff in Hc. rewrite Hc.
    rewrite (IH _ Hw), append_assoc. reflexivity.
Qed.

(** Splitting the words joined by single spaces gives the words back. *)
Lemma split_join (ws : list string) :
  Forall is_word ws -> split (join " " ws) = ws.
Proof.
  unfold split. induction 1 as [|w ws [Hne Hw] Hws IH]; [reflexivity|].
  destruct ws as [|w' ws'].
  - cbn [join]. rewrite <- (append_empty_r w) at 1.
    rewrite (split_from_word w EmptyString EmptyString Hw).
    rewrite append_empty_l. cbn [split_from].
    destruct w; [contradiction|reflexivity].
  - change (join " " (w :: w' :: ws'))
      with (w ++ String " " (join " " (w' :: ws')))%string.
    rewrite (split_from_word w _ EmptyString Hw), append_empty_l.
    cbn [split_from]. change (isspace " ") with true. cbn iota.
    destruct w; [contradiction|]. rewrite IH. reflexivity.
Qed.


(** ** Further properties of the parser and of the evaluation *)

Lemma match_star_eq p rest cur caps s :
  match_here (Star p :: rest) cur caps s
  = match s with
    | String c s' =>
        if p c
        then match match_here (Star p :: rest) (push cur c) caps s' with
             | Some r => Some r
             | None => match_here rest cur caps s
             end
        else match_here rest cur caps s
    | EmptyString => match_here rest cur caps s
    end.
Proof. destruct s; reflexivity. Qed.

Lemma match_lazy_eq p rest cur caps s :
  match_here (LazyStar p :: rest) cur caps s
  = match match_here rest cur caps s with
    | Some r => Some r
    | None =>
        match s with
        | String c s' =>
            if p c then match_here (LazyStar p :: rest) (push cur c) caps s' else None
        | EmptyString => None
        end
    end.
Proof. destruct s; reflexivity. Qed.

(** Outside a group, items that capture nothing leave the groups as they
    are. *)
Lemma match_plain (its k : list item) :
  forallb is_plain its = true ->
  forall caps s r,
    match_here (its ++ k) None caps s = Some r ->
    exists s', match_here k None caps s' = Some r.
Proof.
  induction its as [|it its IH]; intros Hplain caps s r Hm.
  - exists s. exact Hm.
  - cbn [forallb] in Hplain. apply andb_prop in Hplain as [Hit Hplain].
    specialize (IH Hplain). cbn [app] in Hm.
    destruct it as [p|p|p| | |f]; try discriminate Hit; clear Hit.
    + cbn [match_here] in Hm. destruct s as [|c s']; [discriminate|].
      destruct (p c); [|discriminate]. apply (IH caps s' r Hm).
    + induction s as [|c s' IHs]; rewrite match_star_eq in Hm.
      * apply (IH caps _ r Hm).
      * destruct (p c); [|apply (IH caps _ r Hm)].
        cbn [push] in Hm.
        destruct (match_here (Star p :: its ++ k) None caps s') as [r'|] eqn:Hstar.
        -- injection Hm as ->. apply IHs. reflexivity.
        -- apply (IH caps _ r Hm).
    + induction s as [|c s' IHs]; rewrite match_lazy_eq in Hm.
      * destruct (match_here (its ++ k) None caps EmptyString) as [r'|] eqn:Hrest;
          [|discriminate].
        injection Hm as ->. apply (IH caps _ r Hrest).
      * destruct (match_here (its ++ k) None caps (String c s')) as [r'|] eqn:Hrest.
        -- injection Hm as ->. apply (IH caps _ r Hrest).
        -- destruct (p c); [|discriminate]. cbn [push] in Hm. apply IHs, Hm.
    + cbn [match_here] in Hm. destruct (f s); [|discriminate].
      apply (IH caps s r Hm).
Qed.

(** A pattern with one group around a single letter of [[ABCD]], and
    nothing else captured: its match captures that letter. *)
Lemma match_letter_group (before after : list item) (s : string) groups rest :
  forallb is_plain before = true ->
  forallb is_plain after = true ->
  match_here (before ++ [Open; One abcd_i; Close] ++ after) None [] s
    = Some (groups, rest) ->
  exists c, abcd_i c = true /\ groups = [String c EmptyString].
Proof.
  intros Hb Ha Hm.
  apply (match_plain before _ Hb) in Hm as [s1 Hm].
  cbn [app match_here] in Hm.
  destruct s1 as [|c s2]; [discriminate|].
  destruct (abcd_i c) eqn:Hc; [|discriminate].
  cbn [push default from_option id app] in Hm.
  rewrite <- (app_nil_r after) in Hm.
  apply (match_plain after [] Ha) in Hm as [s3 Hm].
  cbn [match_here] in Hm. injection Hm as <- _.
  exists c. split; [exact Hc|reflexivity].
Qed.

Lemma search_match (its : list item) (s : string) r :
  search its s = Some r -> exists s', match_here its None [] s' = Some r.
Proof.
  induction s as [|c s IH]; cbn [search]; intros Hs.
  - destruct (match_here its None [] EmptyString) eqn:Hm; [|discriminate].
    injection Hs as ->. eauto.
  - destruct (match_here its None [] (String c s)) eqn:Hm.
    + injection Hs as ->. eauto.
    + apply IH, Hs.
Qed.

Lemma upper_letter (c : ascii) :
  abcd_i c = true -> In (upper (String c EmptyString)) answer_letters.
Proof.
  destruct c as [[] [] [] [] [] [] [] []]; intros H; try discriminate H;
    cbn; auto.
Qed.

Lemma first_answer_letter (patterns : list (list item)) (block : string) answer :
  Forall letter_pattern patterns ->
  first_answer patterns block = Some answer ->
  In answer answer_letters.
Proof.
  induction 1 as [|p patterns Hp _ IH]; cbn [first_answer]; [discriminate|].
  destruct (search p block) as [[groups rest]|] eqn:Hs; [|exact IH].
  intros [= <-].
  apply search_match in Hs as [s' Hm].
  destruct Hp as (before & after & -> & Hb & Ha).
  apply (match_letter_group before after s' groups rest Hb Ha) in Hm as (c & Hc & ->).
  apply upper_letter, Hc.
Qed.

Lemma letter_pattern_intro (before after : list item) :
  forallb is_plain before = true ->
  forallb is_plain after = true ->
  letter_pattern (before ++ [Open; One abcd_i; Close] ++ after).
Proof. intros Hb Ha. exists before. exists after. auto. Qed.

Lemma extract_patterns_shape : Forall letter_pattern extract_patterns.
Proof.
  unfold extract_patterns.
  constructor.
  { exact (letter_pattern_intro
             (lit_i "correct" ++ [One isspace; Star isspace] ++ lit_i "answer"
              ++ [Star colon_or_space]) [] eq_refl eq_refl). }
  constructor.
  { exact (letter_pattern_intro (lit_i "answer" ++ [Star colon_or_space]) []
             eq_refl eq_refl). }
  constructor.
  { exact (letter_pattern_intro (lit_i "correct" ++ [Star colon_or_space]) []
             eq_refl eq_refl). }
  constructor.
  { exact (letter_pattern_intro (lit_i "**") (lit_i "**") eq_refl eq_refl). }
  constructor.
  { exact (letter_pattern_intro []
             ([Star isspace] ++ lit_i "is" ++ [Star isspace] ++ lit_i "correct")
             eq_refl eq_refl). }
  constructor; [|constructor].
  exact (letter_pattern_intro (lit_i "option" ++ [Star isspace])
           ([Star isspace] ++ lit_i "is" ++ [Star isspace] ++ lit_i "correct")
           eq_refl eq_refl).
Qed.

Lemma answer_patterns_prefix :
  extract_patterns = answer_patterns ++ skipn 4 extract_patterns.
Proof. reflexivity. Qed.

Lemma answer_patterns_shape : Forall letter_pattern answer_patterns.
Proof.
  pose proof extract_patterns_shape as H.
  rewrite answer_patterns_prefix in H. apply Forall_app in H as [H _]. exact H.
Qed.

(** X9. The [correct_answer] that [parse_question_block] returns is unset
    or one of the upper-case letters "A", "B", "C", "D", whatever the
    block is. *)
Theorem parsed_answer_is_letter (block : string) (answer : string) :
  correct_answer (parse_question_block block) = Some answer ->
  In answer answer_letters.
Proof.
  cbn [parse_question_block correct_answer].
  apply first_answer_letter, answer_patterns_shape.
Qed.

Lemma first_answer_app (ps qs : list (list item)) (block : string) :
  first_answer (ps ++ qs) block
  = match first_answer ps block with
    | Some answer => Some answer
    | None => first_answer qs block
    end.
Proof.
  induction ps as [|p ps IH]; cbn [app first_answer]; [reflexivity|].
  destruct (search p block) as [[groups rest]|]; [reflexivity|exact IH].
Qed.

(** X10. [extract_correct_answer] returns the answer of
    [parse_question_block] whenever the parser finds one (its two further
    patterns only add answers); what it returns is a letter "A" to "D" or
    nothing, and it prints its two debugging lines exactly when it returns
    nothing. *)
Theorem extract_correct_answer_agrees (block : string) :
  (forall answer,
     correct_answer (parse_question_block block) = Some answer ->
     fst (extract_correct_answer block) = Some answer)
  /\ (fst (extract_correct_answer block) = None ->
      correct_answer (parse_question_block block) = None)
  /\ (forall answer,
        fst (extract_correct_answer block) = Some answer -> In answer answer_letters)
  /\ (fst (extract_correct_answer block) = None <->
      snd (extract_correct_answer block) <> []).
Proof.
  cbn [parse_question_block correct_answer]. unfold extract_correct_answer.
  pose proof (first_answer_letter extract_patterns block) as Hletter.
  rewrite answer_patterns_prefix, first_answer_app in *.
  destruct (first_answer answer_patterns block) as [a|] eqn:Hparse.
  - cbn [fst snd]. repeat split.
    + intros answer [= <-]. reflexivity.
    + discriminate.
    + intros answer [= <-]. apply Hletter; [|reflexivity].
      rewrite <- answer_patterns_prefix. apply extract_patterns_shape.
    + discriminate.
    + intros H. exfalso. apply H. reflexivity.
  - destruct (first_answer (skipn 4 extract_patterns) block) as [a|] eqn:Hextra;
      cbn [fst snd]; repeat split; try discriminate; try reflexivity.
    + intros answer [= <-]. apply Hletter; [|reflexivity].
      rewrite <- answer_patterns_prefix. apply extract_patterns_shape.
    + intros H. exfalso. apply H. reflexivity.
Qed.

(** *** When the evaluation raises *)

Lemma evaluate_returns (qd : question_data) (kb : option string) :
  (correct_answer qd = None
   \/ correct_answer qd = Some EmptyString
   \/ exists c, correct_answer qd = Some (String c EmptyString)) ->
  exists results, evaluate_question_comprehensive qd kb = Returns results.
Proof.
  intros Hanswer. unfold evaluate_question_comprehensive.
  destruct Hanswer as [->|[->|[c ->]]];
    cbn [truthy nonempty String.eqb negb default from_option id ord_minus_A];
    rewrite ?andb_false_r; cbn [bind_result];
    repeat match goal with
           | |- context [if ?b then Returns _ else Returns _] => destruct b
           | |- context [bind_result (if ?b then _ else _) _] => destruct b
           | |- context [bind_result (Returns _) _] => cbn [bind_result]
           end; eexists; reflexivity.
Qed.

Lemma options_or_explanation (qd : question_data) :
  (options qd <> [] \/ explanation qd <> EmptyString)
  \/ (options qd = [] /\ explanation qd = EmptyString).
Proof.
  destruct (options qd) as [|o opts]; [|left; left; discriminate].
  destruct (String.eqb_spec (explanation qd) EmptyString) as [He|He]; auto.
Qed.

Lemma evaluate_raises (qd : question_data) (kb : option string) c1 c2 s :
  correct_answer qd = Some (String c1 (String c2 s)) ->
  options qd <> [] \/ explanation qd <> EmptyString ->
  evaluate_question_comprehensive qd kb = Raises TypeError.
Proof.
  intros Hanswer Hused. unfold evaluate_question_comprehensive.
  rewrite Hanswer. cbn [truthy nonempty String.eqb negb default from_option id ord_minus_A].
  destruct (options qd) as [|o opts].
  - destruct Hused as [H|H]; [contradiction|].
    cbn [nonempty_list andb bind_result].
    rewrite (nonempty_true _ H). reflexivity.
  - cbn [nonempty_list]. rewrite andb_true_r. reflexivity.
Qed.

(** X11. [evaluate_question_comprehensive] raises only a [TypeError], and
    it does so exactly when [correct_answer] is a string of two or more
    characters while the record has an option or an explanation; in every
    other case it returns its metrics. *)
Theorem evaluate_raises_iff (qd : question_data) (kb : option string) :
  ((exists e, evaluate_question_comprehensive qd kb = Raises e) <->
   (exists s, correct_answer qd = Some s
              /\ (2 <= String.length s)%nat
              /\ (options qd <> [] \/ explanation qd <> EmptyString)))
  /\ (forall e, evaluate_question_comprehensive qd kb = Raises e -> e = TypeError).
Proof.
  destruct (correct_answer qd) as [[|c1 [|c2 s]]|] eqn:Hanswer.
  - destruct (evaluate_returns qd kb) as [r Hr]; [auto|]. rewrite Hr.
    split; [|discriminate]. split; [intros [e He]; discriminate He|].
    intros (s & [= <-] & Hlen & _). cbn in Hlen. lia.
  - destruct (evaluate_returns qd kb) as [r Hr]; [eauto|]. rewrite Hr.
    split; [|discriminate]. split; [intros [e He]; discriminate He|].
    intros (s & [= <-] & Hlen & _). cbn in Hlen. lia.
  - destruct (options_or_explanation qd) as [Hused|Hunused].
    + rewrite (evaluate_raises qd kb c1 c2 s Hanswer Hused).
      split; [|intros e [= <-]; reflexivity].
      split; [|eauto]. intros _. exists (String c1 (String c2 s)).
      split; [reflexivity|]. split; [cbn; lia|exact Hused].
    + destruct Hunused as [Hopts Hexpl].
      unfold evaluate_question_comprehensive.
      rewrite Hanswer, Hopts, Hexpl.
      cbn [nonempty_list nonempty String.eqb negb andb bind_result].
      split.
      * split.
        -- intros [e He]. repeat match type of He with
             | context [if ?b then _ else _] => destruct b
             end; discriminate He.
        -- intros (_ & _ & _ & [H|H]); contradiction.
      * intros e He. repeat match type of He with
             | context [if ?b then _ else _] => destruct b
             end; discriminate He.
  - destruct (evaluate_returns qd kb) as [r Hr]; [auto|]. rewrite Hr.
    split; [|discriminate]. split; [intros [e He]; discriminate He|].
    intros (s & [=] & _).
Qed.

Lemma parsed_block_evaluates (block : string) (kb : option string) :
  exists results,
    evaluate_question_comprehensive (parse_question_block block) kb = Returns results.
Proof.
  apply evaluate_returns.
  destruct (correct_answer (parse_question_block block)) as [answer|] eqn:Hanswer;
    [|left; reflexivity].
  right; right.
  assert (Hletter : In answer answer_letters).
  { revert Hanswer. cbn [parse_question_block correct_answer].
    apply first_answer_letter, answer_patterns_shape. }
  cbn [answer_letters In] in Hletter.
  destruct Hletter as [<-|[<-|[<-|[<-|[]]]]]; eexists; reflexivity.
Qed.

(** X12. The evaluation never raises on a record that
    [parse_question_block] produced, whatever the block and the knowledge
    base are. *)
Theorem evaluate_parsed_block_returns (block : string) (kb : option string) :
  exists results,
    evaluate_question_comprehensive (parse_question_block block) kb = Returns results.
Proof. apply parsed_block_evaluates. Qed.

(** ** Further properties of the scorers *)

Lemma num_nonneg (n : nat) : 0 <= num n.
Proof. unfold num. change 0 with (inject_Z 0). rewrite <- Zle_Qle. lia. Qed.

Lemma num_le (n m : nat) : (n <= m)%nat -> num n <= num m.
Proof. intros H. unfold num. rewrite <- Zle_Qle. lia. Qed.

Lemma num_S (n : nat) : num (S n) == num n + 1.
Proof. unfold num. rewrite Nat2Z.inj_succ, <- Z.add_1_r, inject_Z_plus. reflexivity. Qed.

Lemma ratio_bounds (n m : nat) : (n <= m)%nat -> (0 < m)%nat -> 0 <= num n / num m <= 1.
Proof.
  intros Hle Hpos. pose proof (num_pos m Hpos) as Hm.
  pose proof (num_nonneg n) as Hn. pose proof (num_le n m Hle) as Hnm. split.
  - apply Qle_shift_div_l; [exact Hm|]. lra.
  - apply Qle_shift_div_r; [exact Hm|]. lra.
Qed.

Lemma py_min_one_bounds (x : Q) : 0 <= x -> 0 <= py_min x 1 <= 1.
Proof.
  intros Hx. unfold py_min. destruct (Qltb 1 x) eqn:E; [lra|].
  apply Qltb_false in E. lra.
Qed.

Lemma py_max_zero_bounds (x : Q) : x <= 1 -> 0 <= py_max 0 x <= 1.
Proof.
  intros Hx. unfold py_max. destruct (Qltb 0 x) eqn:E; [|lra].
  apply Qltb_true in E. lra.
Qed.

Lemma fold_left_Qplus_bounds (lo hi : Q) (l : list Q) :
  Forall (fun x => lo <= x <= hi) l ->
  forall acc,
    acc + lo * num (length l) <= fold_left Qplus l acc <= acc + hi * num (length l).
Proof.
  induction 1 as [|x l Hx _ IH]; intros acc; cbn [fold_left length].
  - change (num 0) with 0. lra.
  - specialize (IH (acc + x)). rewrite num_S. lra.
Qed.

Lemma mean_bounds (lo hi : Q) (l : list Q) :
  Forall (fun x => lo <= x <= hi) l -> l <> [] ->
  lo <= py_sum l / py_len l <= hi.
Proof.
  intros Hl Hne. unfold py_sum, py_len. fold (num (length l)).
  assert (Hpos : 0 < num (length l)).
  { apply num_pos. destruct l; [contradiction|cbn; lia]. }
  pose proof (fold_left_Qplus_bounds lo hi l Hl 0) as Hsum. split.
  - apply Qle_shift_div_l; [exact Hpos|]. lra.
  - apply Qle_shift_div_r; [exact Hpos|]. lra.
Qed.

Lemma average_unit (l : list Q) :
  Forall (fun x => 0 <= x <= 1) l -> 0 <= average l <= 1.
Proof.
  intros Hl. destruct l as [|x l]; [cbn; lra|].
  apply (mean_bounds 0 1 (x :: l) Hl). discriminate.
Qed.

Lemma jaccard_unit (a b : gset string) : 0 <= jaccard a b <= 1.
Proof.
  unfold jaccard. destruct (Nat.ltb_spec 0 (size (a ∪ b))) as [Hpos|_]; [|lra].
  apply ratio_bounds; [|exact Hpos].
  apply subseteq_size. intros x Hx. apply elem_of_intersection in Hx as [Hx _].
  apply elem_of_union. left. exact Hx.
Qed.

(** Lookup in a literal bundle, one key at a time. *)
Ltac bundle_key H :=
  first [ apply lookup_insert_Some in H as [[<- H]|[_ H]]
        | apply lookup_singleton_Some in H as [<- H] ].

(** X13. Every metric of [calculate_clarity] other than [word_count] lies
    in [0, 1], and the clarity score itself is at least 0.335. *)
Theorem clarity_metrics_unit (question_text : string) (k : string) (v : Q) :
  k <> "word_count"%string ->
  calculate_clarity question_text !! k = Some (VNum v) ->
  0 <= v <= 1 /\ (k = "clarity"%string -> 335 # 1000 <= v).
Proof.
  intros Hk H. unfold calculate_clarity in H. cbv zeta in H.
  match type of H with
  | context [py_max 0 ?x] =>
      assert (Hamb : 0 <= py_max 0 x <= 1)
        by (apply py_max_zero_bounds;
            match goal with |- 1 - num ?n * _ <= 1 => pose proof (num_nonneg n) end; lra);
      generalize dependent (py_max 0 x); intros amb H Hamb
  end.
  match type of H with
  | context [if ?c then 1 else if ?d then 7 # 10 else 4 # 10] =>
      assert (Hls : 4 # 10 <= (if c then 1 else if d then 7 # 10 else 4 # 10) <= 1)
        by (destruct c; [lra|destruct d; lra]);
      generalize dependent (if c then 1 else if d then 7 # 10 else 4 # 10);
      intros ls H Hls
  end.
  match type of H with
  | context [if ?c then 1 else if ?d then 5 # 10 else 3 # 10] =>
      assert (Hsq : 3 # 10 <= (if c then 1 else if d then 5 # 10 else 3 # 10) <= 1)
        by (destruct c; [lra|destruct d; lra]);
      generalize dependent (if c then 1 else if d then 5 # 10 else 3 # 10);
      intros sq H Hsq
  end.
  match type of H with
  | context [if ?c then 1 else if ?d then 9 # 10 else 5 # 10] =>
      assert (Hneg : 5 # 10 <= (if c then 1 else if d then 9 # 10 else 5 # 10) <= 1)
        by (destruct c; [lra|destruct d; lra]);
      generalize dependent (if c then 1 else if d then 9 # 10 else 5 # 10);
      intros neg H Hneg
  end.
  match type of H with
  | context [if ?c then 1 else 3 # 10] =>
      assert (Hqm : 3 # 10 <= (if c then 1 else 3 # 10) <= 1) by (destruct c; lra);
      generalize dependent (if c then 1 else 3 # 10); intros qm H Hqm
  end.
  match type of H with
  | context [if ?c then 1 else 6 # 10] =>
      assert (Hint : 6 # 10 <= (if c then 1 else 6 # 10) <= 1) by (destruct c; lra);
      generalize dependent (if c then 1 else 6 # 10); intros intr H Hint
  end.
  repeat (bundle_key H;
          [injection H as <-;
           split; [|intros Hkey; try discriminate Hkey]; lra|]).
  bundle_key H. contradiction.
Qed.

Lemma all_pairs_length {A : Type} (l : list A) :
  (2 * length (all_pairs l) = length l * (length l - 1))%nat.
Proof.
  induction l as [|x l IH]; [reflexivity|].
  cbn [all_pairs length]. rewrite length_app, length_fmap. nia.
Qed.

Lemma similarities_unit (options : list string) :
  Forall (fun x => 0 <= x <= 1) (pairwise_similarities options).
Proof.
  rewrite pairwise_similarities_all_pairs. apply Forall_fmap, Forall_true.
  intros pair. apply jaccard_unit.
Qed.

(** X14. For every list of options, [SOS] and [option_diversity] lie in
    [0, 1] and so does every pairwise similarity; with at least two
    options, [num_pairs] is n(n-1)/2 for n options. *)
Theorem sos_metrics_unit (options : list string) :
  exists sos diversity,
    calculate_sos options !! "SOS" = Some (VNum sos)
    /\ calculate_sos options !! "option_diversity" = Some (VNum diversity)
    /\ 0 <= sos <= 1 /\ 0 <= diversity <= 1
    /\ ((2 <= length options)%nat ->
        exists similarities,
          calculate_sos options !! "pairwise_similarities" = Some (VList similarities)
          /\ calculate_sos options !! "num_pairs"
             = Some (VNum (num (length similarities)))
          /\ (2 * length similarities = length options * (length options - 1))%nat
          /\ Forall (fun x => 0 <= x <= 1) similarities).
Proof.
  unfold calculate_sos.
  destruct (Nat.ltb_spec (length options) 2) as [Hshort|Hlong].
  - exists 0, 0. repeat split; try reflexivity; try lra. intros H. lia.
  - pose proof (average_unit _ (similarities_unit options)) as Havg.
    exists (average (pairwise_similarities options)),
           (1 - average (pairwise_similarities options)).
    split; [reflexivity|]. split; [reflexivity|].
    split; [exact Havg|]. split; [lra|]. intros _.
    exists (pairwise_similarities options).
    split; [reflexivity|]. split; [reflexivity|]. split.
    + rewrite pairwise_similarities_all_pairs, length_fmap. apply all_pairs_length.
    + apply similarities_unit.
Qed.

(** X15. [calculate_dps] returns a [DPS] in [0, 1]: it is 0 without
    distractors, and otherwise the mean of per-distractor scores that all
    lie in [0, 1], one for each distractor. *)
Theorem dps_unit (question correct : string) (distractors : list string)
    (kb : option string) :
  exists dps,
    calculate_dps question correct distractors kb !! "DPS" = Some (VNum dps)
    /\ 0 <= dps <= 1
    /\ (distractors = [] -> dps = 0)
    /\ (distractors <> [] ->
        exists scores,
          calculate_dps question correct distractors kb !! "DPS_per_distractor"
            = Some (VList scores)
          /\ length scores = length distractors
          /\ Forall (fun x => 0 <= x <= 1) scores
          /\ dps = py_sum scores / py_len scores).
Proof.
  unfold calculate_dps. destruct distractors as [|d ds].
  - exists 0. repeat split; try reflexivity; try lra. intros H. contradiction.
  - cbv zeta.
    set (scores := (fun distractor : string => _) <$> d :: ds).
    assert (Hscores : Forall (fun x => 0 <= x <= 1) scores).
    { subst scores. apply Forall_fmap, Forall_true. intros x. cbn [compose].
      pose proof (jaccard_unit (word_set question) (word_set x)).
      pose proof (jaccard_unit (word_set correct) (word_set x)). lra. }
    exists (average scores). split; [reflexivity|].
    split; [apply average_unit, Hscores|]. split; [discriminate|]. intros _.
    exists scores. split; [reflexivity|].
    split; [subst scores; apply length_fmap|]. split; [exact Hscores|].
    subst scores. reflexivity.
Qed.

Lemma fold_left_Qplus_nonneg (l : list Q) :
  Forall (fun x => 0 <= x) l -> forall acc, acc <= fold_left Qplus l acc.
Proof.
  induction 1 as [|x l Hx _ IH]; intros acc; cbn [fold_left]; [lra|].
  specialize (IH (acc + x)). lra.
Qed.

Lemma Qsquare_nonneg (x : Q) : 0 <= x * x.
Proof.
  destruct (Qlt_le_dec x 0) as [Hneg|Hpos].
  - assert (H : 0 <= (- x) * (- x)) by (apply Qmult_le_0_compat; lra).
    assert (Heq : (- x) * (- x) == x * x) by ring.
    rewrite Heq in H. exact H.
  - apply Qmult_le_0_compat; exact Hpos.
Qed.

Lemma variance_nonneg (m : Q) (l : list Q) : 0 <= variance m l.
Proof.
  unfold variance, py_sum, py_len. fold (num (length ((fun x => (x - m) * (x - m)) <$> l))).
  destruct l as [|x l]; [cbv; discriminate|].
  apply Qle_shift_div_l; [apply num_pos; cbn; lia|].
  rewrite Qmult_0_l. apply fold_left_Qplus_nonneg.
  apply Forall_fmap, Forall_true. intros y. cbn [compose].
  apply Qsquare_nonneg.
Qed.

Lemma overlap_ratio_unit (a b : gset string) :
  0 <= py_min (num (size (a ∩ b)) / num (Nat.max (size a) 1)) 1 <= 1.
Proof.
  apply py_min_one_bounds. apply Qle_shift_div_l; [apply num_pos; lia|].
  rewrite Qmult_0_l. apply num_nonneg.
Qed.

(** X16. Every metric of [calculate_relevance] lies in [0, 1], for any
    question, any options and with or without a knowledge base. *)
Theorem relevance_metrics_unit (question_text : string) (options : list string)
    (kb : option string) (k : string) (v : Q) :
  calculate_relevance question_text options kb !! k = Some (VNum v) ->
  0 <= v <= 1.
Proof.
  intros H. unfold calculate_relevance in H. cbv zeta in H.
  set (qk := word_set question_text ∖ relevance_stop_words) in H.
  set (scores := (fun option : string => _) <$> options) in H.
  assert (Hscores : Forall (fun x => 0 <= x <= 1) scores).
  { subst scores. apply Forall_fmap, Forall_true. intros x. apply jaccard_unit. }
  pose proof (average_unit scores Hscores) as Havg.
  set (avg := average scores) in *.
  match type of H with
  | context [_ + (25 # 100) * ?x] => assert (Hkb : 0 <= x <= 1); [|remember x as kbr eqn:E; clear E]
  end.
  { destruct kb as [[|c kb']|]; [lra| |lra].
    destruct (Nat.ltb_spec 0 (size qk)) as [Hpos|_]; [|lra].
    apply py_min_one_bounds. apply Qle_shift_div_l; [apply num_pos, Hpos|].
    rewrite Qmult_0_l. apply num_nonneg. }
  match type of H with
  | context [_ + _ + (20 # 100) * ?x + _] => assert (Htech : 0 <= x <= 1); [|remember x as tech eqn:E; clear E]
  end.
  { apply py_min_one_bounds.
    destruct (Nat.ltb_spec 0 (size qk)) as [Hpos|_]; [|unfold Qdiv; lra].
    apply Qle_shift_div_l; [lra|]. rewrite Qmult_0_l.
    apply Qle_shift_div_l; [apply num_pos, Hpos|].
    rewrite Qmult_0_l. apply num_nonneg. }
  match type of H with
  | context [_ + _ + _ + (20 # 100) * ?x] => assert (Hcons : 0 <= x <= 1); [|remember x as cons eqn:E; clear E]
  end.
  { destruct scores as [|s0 scores0] eqn:Es; [lra|]. rewrite <- Es.
    pose proof (variance_nonneg avg scores) as Hvar.
    pose proof (py_min_one_bounds _ Hvar). lra. }
  clearbody avg.
  repeat (bundle_key H; [injection H as <-; lra|]).
  bundle_key H. injection H as <-. lra.
Qed.


Lemma size_list_to_set_le (l : list string) :
  (size (list_to_set l : gset string) <= length l)%nat.
Proof.
  induction l as [|x l IH]; cbn [list_to_set foldr length].
  - rewrite size_empty. lia.
  - rewrite size_union_alt, size_singleton.
    assert (size (list_to_set l ∖ {[x]} : gset string) <= size (list_to_set l : gset string))%nat.
    { apply subseteq_size. intros y Hy. apply elem_of_difference in Hy as [Hy _]. exact Hy. }
    lia.
Qed.

Lemma inverse_unit (y : Q) : 0 <= y -> 0 <= 1 / (1 + y) <= 1.
Proof.
  intros Hy. split.
  - apply Qle_shift_div_l; lra.
  - apply Qle_shift_div_r; lra.
Qed.

(** X18. Every metric of [calculate_distractor_quality_detailed] other
    than the raw [avg_length] and [length_variance] lies in [0, 1]. *)
Theorem detailed_metrics_unit (question correct : string) (distractors : list string)
    (k : string) (v : Q) :
  k <> "avg_length"%string -> k <> "length_variance"%string ->
  calculate_distractor_quality_detailed question correct distractors !! k
    = Some (VNum v) ->
  0 <= v <= 1.
Proof.
  intros Hk1 Hk2 H. unfold calculate_distractor_quality_detailed in H.
  destruct distractors as [|d ds].
  { bundle_key H. injection H as <-. lra. }
  cbv zeta in H.
  match type of H with
  | context [<["homogeneity" := VNum ?x]> _] =>
      assert (Hhom : 0 <= x <= 1); [|remember x as hom eqn:E; clear E]
  end.
  { apply inverse_unit. apply Qle_shift_div_l; [lra|]. rewrite Qmult_0_l.
    apply variance_nonneg. }
  match type of H with
  | context [<["grammatical_parallelism" := VNum ?x]> _] =>
      assert (Hpar : 0 <= x <= 1); [|remember x as par eqn:E; clear E]
  end.
  { match goal with
    | |- 0 <= 1 - num (size (list_to_set ?l)) / py_len ?l <= 1 =>
        pose proof (ratio_bounds (size (list_to_set l : gset string)) (length l)
                      (size_list_to_set_le l)) as Hr
    end.
    match type of Hr with
    | (0 < ?n)%nat -> _ =>
        assert (Hn : (0 < n)%nat) by (cbn [length fmap list_fmap]; lia);
        specialize (Hr Hn)
    end.
    unfold py_len, num in *. lra. }
  match type of H with
  | context [<["no_obvious_patterns" := VNum ?x]> _] =>
      assert (Hpat : 0 <= x <= 1); [|remember x as pat eqn:E; clear E]
  end.
  { match goal with
    | |- 0 <= match ?l with [] => 1 | _ => _ end <= 1 =>
        assert (Hl : Forall (fun x => 0 <= x <= 1) l)
          by (apply Forall_fmap, Forall_true; intros x; cbn [compose];
              destruct (existsb _ obvious_patterns); lra);
        pose proof (average_unit l Hl) as Ha; unfold average in Ha;
        destruct l; [lra|exact Ha]
    end. }
  match type of H with
  | context [<["keyword_relevance" := VNum ?x]> _] =>
      assert (Hrel : 0 <= x <= 1); [|remember x as rel eqn:E; clear E]
  end.
  { apply average_unit, Forall_fmap, Forall_true. intros x. cbn [compose].
    apply overlap_ratio_unit. }
  match type of H with
  | context [<["substantiveness" := VNum ?x]> _] =>
      assert (Hsub : 0 <= x <= 1); [|remember x as sub eqn:E; clear E]
  end.
  { apply average_unit, Forall_fmap, Forall_true. intros x. cbn [compose].
    destruct (10 <=? _)%nat; [lra|]. destruct (5 <=? _)%nat; lra. }
  repeat (bundle_key H; [first [contradiction | injection H as <-; lra]|]).
  bundle_key H. contradiction.
Qed.

(** *** Syllables *)

Lemma vowel_groups_nonneg (word : string) (previous : bool) :
  (0 <= vowel_groups previous word)%Z.
Proof.
  revert previous. induction word as [|c word IH]; intros previous; cbn [vowel_groups]; [lia|].
  specialize (IH (is_vowel c)). destruct (is_vowel c && negb previous); lia.
Qed.

Lemma vowel_groups_final_vowel (word : string) :
  endswith "e" word = true -> (1 <= vowel_groups false word)%Z.
Proof.
  induction word as [|c word IH]; [discriminate|].
  cbn [endswith vowel_groups negb]. rewrite andb_true_r.
  destruct (String.eqb_spec (String c word) "e") as [Heq|Hne].
  - intros _. injection Heq as -> ->. cbn. lia.
  - intros Hend. destruct (is_vowel c).
    + pose proof (vowel_groups_nonneg word true). lia.
    + specialize (IH Hend). lia.
Qed.

(** X19. [count_syllables] gives every word at least one syllable, also a
    word without a vowel, the empty word and a word whose only vowel is a
    final "e". *)
Theorem count_syllables_positive (word : string) : (1 <= count_syllables word)%Z.
Proof.
  unfold count_syllables.
  pose proof (vowel_groups_nonneg (lower word) false) as Hnonneg.
  destruct (endswith "e" (lower word)) eqn:Hend.
  - pose proof (vowel_groups_final_vowel _ Hend).
    destruct (Z.eqb_spec (vowel_groups false (lower word) - 1) 0); lia.
  - destruct (Z.eqb_spec (vowel_groups false (lower word)) 0); lia.
Qed.

(** *** Clarity and whitespace *)

(** X24. [calculate_clarity] reports as [word_count] the number of
    whitespace-separated words of the text it is given, and it gives the
    same metrics for two texts that have the same words, however their
    whitespace differs. *)
Theorem clarity_depends_on_words (text : string) :
  calculate_clarity text !! "word_count" = Some (VNum (num (length (split text))))
  /\ forall text', split text' = split text ->
                   calculate_clarity text' = calculate_clarity text.
Proof.
  split.
  - unfold calculate_clarity. cbv zeta.
    rewrite (split_join (split text) (split_words text)). reflexivity.
  - intros text' Hwords. unfold calculate_clarity. rewrite Hwords. reflexivity.
Qed.

(** *** When the evaluation scores the distractors *)

Lemma update_lookup_skip (results bundle : gmap string value) k :
  bundle !! k = None -> update results bundle !! k = results !! k.
Proof. intros Hnone. unfold update. apply lookup_union_r, Hnone. Qed.

Lemma update_lookup_new (results bundle : gmap string value) k v :
  bundle !! k = Some v -> update results bundle !! k = Some v.
Proof. intros Hsome. unfold update. apply lookup_union_Some_l, Hsome. Qed.

Lemma dps_key_in_keys : In "DPS"%string distractor_metric_keys.
Proof. left. reflexivity. Qed.

Lemma detailed_no_dps question correct distractors :
  calculate_distractor_quality_detailed question correct distractors !! "DPS" = None.
Proof.
  unfold calculate_distractor_quality_detailed. destruct distractors; reflexivity.
Qed.

Lemma dps_has_dps question correct distractors kb :
  is_Some (calculate_dps question correct distractors kb !! "DPS").
Proof. unfold calculate_dps. destruct distractors; eexists; reflexivity. Qed.

Ltac skip_bundles :=
  repeat match goal with
         | |- context [update ?r (calculate_sos ?o) !! "DPS"] =>
             rewrite (update_lookup_skip r (calculate_sos o) "DPS"
                        (sos_no_distractor_key o _ dps_key_in_keys))
         | |- context [update ?r (calculate_rationale_quality ?a ?b ?c) !! "DPS"] =>
             rewrite (update_lookup_skip r (calculate_rationale_quality a b c) "DPS"
                        (rationale_no_distractor_key a b c _ dps_key_in_keys))
         | |- context [update ?r (calculate_readability_level ?t) !! "DPS"] =>
             rewrite (update_lookup_skip r (calculate_readability_level t) "DPS"
                        (readability_no_distractor_key t _ dps_key_in_keys))
         | |- context [update ?r (calculate_relevance ?a ?b ?c) !! "DPS"] =>
             rewrite (update_lookup_skip r (calculate_relevance a b c) "DPS"
                        (relevance_no_distractor_key a b c _ dps_key_in_keys))
         | |- context [update ?r (calculate_clarity ?t) !! "DPS"] =>
             rewrite (update_lookup_skip r (calculate_clarity t) "DPS"
                        (clarity_no_distractor_key t _ dps_key_in_keys))
         | |- context [update ?r (calculate_distractor_quality_detailed ?a ?b ?c) !! "DPS"] =>
             rewrite (update_lookup_skip r (calculate_distractor_quality_detailed a b c)
                        "DPS" (detailed_no_dps a b c))
         end.

(** The results hold no [DPS] when the distractor block is not entered. *)
Ltac no_dps H :=
  repeat match type of H with
         | context [if ?b then _ else _] => destruct b
         end;
  cbn [bind_result] in H; injection H as <-;
  skip_bundles;
  match goal with
  | |- is_Some (∅ !! _) -> _ => rewrite lookup_empty; intros [? ?]; discriminate
  end.

(** X25. The result of an evaluation holds a [DPS] exactly when
    [correct_answer] is a single character whose distance from "A" is the
    index of an existing option: a letter beyond the options, an unset
    answer or an empty option list mean that the distractors are not
    scored. *)
Theorem dps_present_iff (qd : question_data) (kb : option string)
    (results : gmap string value) :
  evaluate_question_comprehensive qd kb = Returns results ->
  (is_Some (results !! "DPS") <->
   exists c, correct_answer qd = Some (String c EmptyString)
             /\ (65 <= nat_of_ascii c < 65 + length (options qd))%nat).
Proof.
  intros H. unfold evaluate_question_comprehensive in H.
  destruct (correct_answer qd) as [[|c [|c2 s]]|] eqn:Hanswer;
    cbn [truthy nonempty String.eqb negb default from_option id ord_minus_A] in H.
  - rewrite andb_false_r in H. cbn [bind_result] in H.
    split; [no_dps H|intros (c0 & [=] & _)].
  - destruct (options qd) as [|o opts] eqn:Hopts.
    + cbn [nonempty_list andb bind_result] in H.
      split; [no_dps H|]. intros (c' & _ & Hrange). cbn [length] in Hrange. lia.
    + cbn [nonempty_list andb bind_result] in H.
      destruct ((0 <=? Z.of_nat (nat_of_ascii c) - 65)
                && (Z.of_nat (nat_of_ascii c) - 65 <? Z.of_nat (length (o :: opts))))%Z
        eqn:Hrange.
      * apply andb_prop in Hrange as [Hlo Hhi].
        apply Z.leb_le in Hlo. apply Z.ltb_lt in Hhi.
        split; [|].
        -- intros _. exists c. split; [reflexivity|]. lia.
        -- intros _. cbn [bind_result] in H.
           repeat match type of H with
                  | context [if ?b then _ else _] => destruct b
                  end;
             cbn [bind_result] in H; injection H as <-;
             skip_bundles; 
             match goal with
             | |- is_Some (update _ (calculate_dps ?q ?a ?d ?k) !! _) =>
                 destruct (dps_has_dps q a d k) as [v Hv];
                 rewrite (update_lookup_new _ _ _ _ Hv); eauto
             end.
      * split; [no_dps H|]. intros (c' & [= <-] & Hr).
        apply andb_false_iff in Hrange as [Hlo|Hhi].
        -- apply Z.leb_gt in Hlo. lia.
        -- apply Z.ltb_ge in Hhi. lia.
  - split; [|intros (c0 & [=] & _)].
    destruct (options qd) as [|o opts].
    + cbn [nonempty_list andb bind_result] in H.
      destruct (nonempty (explanation qd)); [discriminate H|].
      no_dps H.
    + cbn [nonempty_list andb bind_result] in H. discriminate H.
  - cbn [bind_result] in H.
    rewrite andb_false_r in H. cbn [bind_result] in H.
    split; [no_dps H|intros (c0 & [=] & _)].
Qed.
(** *** Readability: rounding keeps bounds *)

(** [round] never crosses an integer. *)
Lemma round_half_even_lower (n : Z) (y : Q) :
  inject_Z n <= y -> (n <= round_half_even y)%Z.
Proof.
  intros H. assert (Hf : (n <= Qfloor y)%Z).
  { rewrite <- (Qfloor_Z n). apply Qfloor_resp_le. exact H. }
  unfold round_half_even.
  repeat match goal with |- context [if ?c then _ else _] => destruct c end; lia.
Qed.

Lemma round_half_even_upper (n : Z) (y : Q) :
  y <= inject_Z n -> (round_half_even y <= n)%Z.
Proof.
  intros H. assert (Hf : (Qfloor y <= n)%Z).
  { rewrite <- (Qfloor_Z n). apply Qfloor_resp_le. exact H. }
  unfold round_half_even.
  destruct (Z.eq_dec (Qfloor y) n) as [E|E].
  - assert (Hr : Qltb (y - inject_Z (Qfloor y)) (1 # 2) = true).
    { apply Qltb_true. rewrite E. lra. }
    rewrite Hr. lia.
  - repeat match goal with |- context [if ?c then _ else _] => destruct c end; lia.
Qed.

Lemma scale_pos (ndigits : nat) : 0 < inject_Z (10 ^ Z.of_nat ndigits).
Proof.
  change 0 with (inject_Z 0). rewrite <- Zlt_Qlt. apply Z.pow_pos_nonneg; lia.
Qed.

Lemma py_round_lower (n : Z) (x : Q) (ndigits : nat) :
  inject_Z n <= x -> inject_Z n <= py_round x ndigits.
Proof.
  intros H. unfold py_round. pose proof (scale_pos ndigits) as Hs.
  set (scale := inject_Z (10 ^ Z.of_nat ndigits)) in *.
  apply Qle_shift_div_l; [exact Hs|].
  unfold scale at 1. rewrite <- inject_Z_mult, <- Zle_Qle.
  apply round_half_even_lower. rewrite inject_Z_mult. fold scale.
  apply Qmult_le_compat_r; [exact H|lra].
Qed.

Lemma py_round_upper (n : Z) (x : Q) (ndigits : nat) :
  x <= inject_Z n -> py_round x ndigits <= inject_Z n.
Proof.
  intros H. unfold py_round. pose proof (scale_pos ndigits) as Hs.
  set (scale := inject_Z (10 ^ Z.of_nat ndigits)) in *.
  apply Qle_shift_div_r; [exact Hs|].
  unfold scale at 2. rewrite <- inject_Z_mult, <- Zle_Qle.
  apply round_half_even_upper. rewrite inject_Z_mult. fold scale.
  apply Qmult_le_compat_r; [exact H|lra].
Qed.

Lemma syllables_total (words : list string) :
  (Z.of_nat (length words) <= foldr Z.add 0 (count_syllables <$> words))%Z.
Proof.
  induction words as [|w words IH]; [cbn; lia|].
  cbn [fmap list_fmap foldr length].
  assert (1 <= count_syllables w)%Z.
  { unfold count_syllables.
    pose proof (vowel_groups_nonneg (lower w) false) as Hnonneg.
    destruct (endswith "e" (lower w)) eqn:Hend.
    - pose proof (vowel_groups_final_vowel _ Hend).
      destruct (Z.eqb_spec (vowel_groups false (lower w) - 1) 0); lia.
    - destruct (Z.eqb_spec (vowel_groups false (lower w)) 0); lia. }
  change (foldr Z.add 0%Z (list_fmap _ _ count_syllables words))
    with (foldr Z.add 0%Z (count_syllables <$> words)). lia.
Qed.

Lemma py_max_lower (lo x : Q) : lo <= py_max lo x.
Proof.
  unfold py_max. destruct (Qltb lo x) eqn:E; [|lra]. apply Qltb_true in E. lra.
Qed.

(** X26. [calculate_readability_level] always returns its five keys, with
    a grade that is not negative, a reading ease in [0, 100] and a
    sentence length that is not negative. The level is "Unknown" exactly
    when the cleaned text has no sentence or no word, and then the four
    numbers are 0; otherwise the reported number of syllables per word is at
    least 1. *)
Theorem readability_bounds (text : string) :
  let r := calculate_readability_level text in
  exists grade ease sentence_length syllables level,
    r !! "flesch_kincaid_grade" = Some (VNum grade)
    /\ r !! "flesch_reading_ease" = Some (VNum ease)
    /\ r !! "avg_sentence_length" = Some (VNum sentence_length)
    /\ r !! "avg_syllables_per_word" = Some (VNum syllables)
    /\ r !! "readability_level" = Some (VStr level)
    /\ 0 <= grade /\ 0 <= ease <= 100 /\ 0 <= sentence_length
    /\ (level = "Unknown"%string <-> sentences_of text = [] \/ words_of text = [])
    /\ (level = "Unknown"%string ->
        grade = 0 /\ ease = 0 /\ sentence_length = 0 /\ syllables = 0)
    /\ (level <> "Unknown"%string -> 1 <= syllables).
Proof.
  cbv zeta. unfold calculate_readability_level. cbv zeta.
  fold (sentences_of text). fold (words_of text).
  destruct (sentences_of text) as [|s ss] eqn:Hs.
  { exists 0, 0, 0, 0, "Unknown"%string. repeat (split; [reflexivity|]).
    repeat split; try lra; auto. intros H; contradiction. }
  destruct (words_of text) as [|w ws] eqn:Hw.
  { exists 0, 0, 0, 0, "Unknown"%string. repeat (split; [reflexivity|]).
    repeat split; try lra; auto. intros H; contradiction. }
  set (words := w :: ws). set (sents := s :: ss).
  assert (Hnw : 0 < py_len words) by (apply num_pos; cbn; lia).
  assert (Hns : 0 < py_len sents) by (apply num_pos; cbn; lia).
  eexists _, _, _, _, _. repeat (split; [reflexivity|]).
  split; [|split; [|split; [|split; [|split]]]].
  - apply (py_round_lower 0). apply py_max_lower.
  - split.
    + apply (py_round_lower 0). apply py_max_lower.
    + apply (py_round_upper 100). apply (py_clamp_bounds 0 100). lra.
  - apply (py_round_lower 0). change (inject_Z 0) with 0.
    apply Qle_shift_div_l; [exact Hns|]. lra.
  - split.
    + intros H. exfalso.
      repeat match type of H with
             | (if ?c then _ else _) = _ => destruct c
             end; discriminate H.
    + intros [H|H]; discriminate H.
  - intros H. exfalso.
    repeat match type of H with
           | (if ?c then _ else _) = _ => destruct c
           end; discriminate H.
  - intros _. apply (py_round_lower 1). change (inject_Z 1) with 1.
    apply Qle_shift_div_l; [exact Hnw|].
    unfold py_len, num. rewrite Qmult_1_l, <- Zle_Qle. apply syllables_total.
Qed.


(** ** Properties of the evaluation of a question set *)

Lemma stat_key_inj (st st' : stat) (a b : string) :
  (stat_prefix st ++ a = stat_prefix st' ++ b)%string -> st = st' /\ a = b.
Proof.
  destruct st, st'; cbn [stat_prefix]; intros H;
    first [ split; [reflexivity|]; apply (append_inj_l _ _ _ H)
          | exfalso;
            match type of H with
            | (String ?c ?p ++ _ = String ?c' ?p' ++ _)%string =>
                change (String c (p ++ a) = String c' (p' ++ b))%string in H
            end; discriminate H ].
Qed.

Lemma aggregate_metric_lookup results metric0 (acc : gmap string Q) st metric :
  aggregate_metric results metric0 acc !! (stat_prefix st ++ metric)%string
  = if String.eqb metric0 metric
    then match metric_stats results metric with
         | Some t => Some (stat_pick st t)
         | None => acc !! (stat_prefix st ++ metric)%string
         end
    else acc !! (stat_prefix st ++ metric)%string.
Proof.
  unfold aggregate_metric, metric_stats.
  destruct (String.eqb_spec metric0 metric) as [->|Hne].
  - destruct (existsb (String.eqb metric) exclude_from_avg); [reflexivity|].
    destruct (numeric_values metric results) as [|first rest]; [reflexivity|].
    cbv zeta.
    destruct st; cbn [stat_pick fst snd].
    + rewrite lookup_insert_ne by (intros H; apply (stat_key_inj Max Avg) in H as [[=] _]).
      rewrite lookup_insert_ne by (intros H; apply (stat_key_inj Min Avg) in H as [[=] _]).
      apply (lookup_insert_eq (M := gmap string)).
    + rewrite lookup_insert_ne by (intros H; apply (stat_key_inj Max Min) in H as [[=] _]).
      apply (lookup_insert_eq (M := gmap string)).
    + apply (lookup_insert_eq (M := gmap string)).
  - destruct (existsb (String.eqb metric0) exclude_from_avg); [reflexivity|].
    destruct (numeric_values metric0 results) as [|first rest]; [reflexivity|].
    cbv zeta.
    rewrite lookup_insert_ne
      by (intros H; apply (stat_key_inj Max st) in H as [_ H]; contradiction).
    rewrite lookup_insert_ne
      by (intros H; apply (stat_key_inj Min st) in H as [_ H]; contradiction).
    rewrite lookup_insert_ne
      by (intros H; apply (stat_key_inj Avg st) in H as [_ H]; contradiction).
    reflexivity.
Qed.

Lemma aggregate_fold_lookup results (ms : list string) st metric :
  foldr (aggregate_metric results) ∅ ms !! (stat_prefix st ++ metric)%string
  = if bool_decide (metric ∈ ms) then stat_pick st <$> metric_stats results metric
    else None.
Proof.
  induction ms as [|m0 ms IH]; cbn [foldr].
  - rewrite lookup_empty. reflexivity.
  - rewrite aggregate_metric_lookup, IH.
    destruct (String.eqb_spec m0 metric) as [->|Hne].
    + rewrite (bool_decide_eq_true_2 (metric ∈ metric :: ms)) by left.
      destruct (metric_stats results metric) as [t|]; [reflexivity|].
      destruct (bool_decide (metric ∈ ms)); reflexivity.
    + destruct (decide (metric ∈ ms)) as [Hin|Hout].
      * rewrite !bool_decide_eq_true_2; [reflexivity|right; exact Hin|exact Hin].
      * rewrite !bool_decide_eq_false_2; [reflexivity| |exact Hout].
        intros Hin. apply elem_of_cons in Hin as [->|Hin]; contradiction.
Qed.

Lemma numeric_values_unseen metric results :
  metric ∉ all_metrics results -> numeric_values metric results = [].
Proof.
  unfold all_metrics, numeric_values.
  induction results as [|r results IH]; intros Hout; [reflexivity|].
  cbn [fmap list_fmap union_list foldr] in Hout.
  apply not_elem_of_union in Hout as [Hr Hrest].
  cbn [omap list_omap]. apply not_elem_of_dom in Hr. rewrite Hr. apply IH, Hrest.
Qed.

Lemma aggregate_metrics_lookup results st metric :
  aggregate_metrics results !! (stat_prefix st ++ metric)%string
  = stat_pick st <$> metric_stats results metric.
Proof.
  unfold aggregate_metrics.
  destruct results as [|r results].
  - rewrite lookup_empty. unfold metric_stats.
    destruct (existsb _ _); reflexivity.
  - rewrite aggregate_fold_lookup.
    destruct (decide (metric ∈ elements (all_metrics (r :: results)))) as [Hin|Hout].
    + rewrite bool_decide_eq_true_2 by exact Hin. reflexivity.
    + rewrite bool_decide_eq_false_2 by exact Hout.
      unfold metric_stats. rewrite numeric_values_unseen.
      * destruct (existsb _ _); reflexivity.
      * intros Hin. apply Hout, elem_of_elements, Hin.
Qed.

Lemma list_min_spec (first : Q) (rest : list Q) :
  In (list_min first rest) (first :: rest)
  /\ Forall (fun x => list_min first rest <= x) (first :: rest).
Proof.
  unfold list_min. revert first.
  induction rest as [|y rest IH]; intros first; cbn [fold_left].
  - split; [left; reflexivity|]. repeat constructor. lra.
  - destruct (Qltb y first) eqn:E.
    + apply Qltb_true in E. destruct (IH y) as [Hin Hall]. split.
      * right. exact Hin.
      * apply Forall_cons_1 in Hall. destruct Hall as [Hy Hrest].
        constructor; [lra|]. constructor; assumption.
    + apply Qltb_false in E. destruct (IH first) as [Hin Hall]. split.
      * destruct Hin as [Hin|Hin]; [left; exact Hin|right; right; exact Hin].
      * apply Forall_cons_1 in Hall. destruct Hall as [Hf Hrest].
        constructor; [exact Hf|]. constructor; [lra|exact Hrest].
Qed.

Lemma list_max_spec (first : Q) (rest : list Q) :
  In (list_max first rest) (first :: rest)
  /\ Forall (fun x => x <= list_max first rest) (first :: rest).
Proof.
  unfold list_max. revert first.
  induction rest as [|y rest IH]; intros first; cbn [fold_left].
  - split; [left; reflexivity|]. repeat constructor. lra.
  - destruct (Qltb first y) eqn:E.
    + apply Qltb_true in E. destruct (IH y) as [Hin Hall]. split.
      * right. exact Hin.
      * apply Forall_cons_1 in Hall. destruct Hall as [Hy Hrest].
        constructor; [lra|]. constructor; assumption.
    + apply Qltb_false in E. destruct (IH first) as [Hin Hall]. split.
      * destruct Hin as [Hin|Hin]; [left; exact Hin|right; right; exact Hin].
      * apply Forall_cons_1 in Hall. destruct Hall as [Hf Hrest].
        constructor; [exact Hf|]. constructor; [lra|exact Hrest].
Qed.

(** X20. In the aggregated metrics of a batch, a metric that is excluded
    by name or has no numeric value in any result (a list or a label, or
    absent) gets no [avg_], [min_] or [max_] entry; every other metric gets
    all three: the mean of its numeric values, and a minimum and a maximum
    that are among these values and bound all of them. *)
Theorem aggregate_metric_summary (all_results : list (gmap string value))
    (metric : string) :
  let values := numeric_values metric all_results in
  let m := aggregate_metrics all_results in
  if existsb (String.eqb metric) exclude_from_avg
     || match values with [] => true | _ => false end
  then m !! ("avg_" ++ metric)%string = None
       /\ m !! ("min_" ++ metric)%string = None
       /\ m !! ("max_" ++ metric)%string = None
  else exists lo hi,
       m !! ("avg_" ++ metric)%string = Some (py_sum values / py_len values)
       /\ m !! ("min_" ++ metric)%string = Some lo
       /\ m !! ("max_" ++ metric)%string = Some hi
       /\ In lo values /\ In hi values
       /\ Forall (fun x => lo <= x <= hi) values.
Proof.
  cbn zeta.
  pose proof (aggregate_metrics_lookup all_results Avg metric) as Havg.
  pose proof (aggregate_metrics_lookup all_results Min metric) as Hmin.
  pose proof (aggregate_metrics_lookup all_results Max metric) as Hmax.
  cbn [stat_prefix] in Havg, Hmin, Hmax. rewrite Havg, Hmin, Hmax.
  unfold metric_stats.
  destruct (existsb (String.eqb metric) exclude_from_avg); cbn [orb].
  { repeat split. }
  destruct (numeric_values metric all_results) as [|first rest].
  { repeat split. }
  destruct (list_min_spec first rest) as [Hmin_in Hmin_all].
  destruct (list_max_spec first rest) as [Hmax_in Hmax_all].
  assert (Hall : Forall (fun x => list_min first rest <= x <= list_max first rest)
                        (first :: rest)).
  { apply Forall_forall. intros x Hx.
    rewrite Forall_forall in Hmin_all, Hmax_all. split; auto. }
  exists (list_min first rest), (list_max first rest).
  cbn [fmap option_fmap option_map stat_pick fst snd].
  repeat (split; [first [reflexivity|assumption]|]).
  exact Hall.
Qed.

Lemma evaluate_all_parsed (blocks : list string) (kb : option string) :
  exists all_results,
    evaluate_all (parse_question_block <$> blocks) kb = Returns all_results
    /\ length all_results = length blocks.
Proof.
  induction blocks as [|block blocks (all_results & Hall & Hlen)].
  - exists []. split; reflexivity.
  - destruct (parsed_block_evaluates block kb) as [results Hresults].
    exists (results :: all_results).
    cbn [fmap list_fmap evaluate_all]. rewrite Hresults. cbn [bind_result].
    change (list_fmap _ _ parse_question_block blocks)
      with (parse_question_block <$> blocks).
    rewrite Hall. cbn [bind_result length]. rewrite Hlen. split; reflexivity.
Qed.

(** X21. [evaluate_question_set_comprehensive] raises only when opening
    or reading the questions file raises, and then with that error; a
    knowledge-base file that cannot be opened or read is ignored. When the
    questions file is read, the call returns one result for each question
    block of its text and reports their number as [num_questions]. *)
Theorem evaluate_question_set_outcome (files : gmap string text_file)
    (questions_file : string) (kb_file reference_file : option string) :
  match read_text files questions_file with
  | Raises e =>
      evaluate_question_set_comprehensive files questions_file kb_file reference_file
      = Raises e
  | Returns questions_text =>
      exists report,
        evaluate_question_set_comprehensive files questions_file kb_file reference_file
        = Returns report
        /\ num_questions report = length (question_blocks questions_text)
        /\ length (per_question_results report) = num_questions report
        /\ metrics report = aggregate_metrics (per_question_results report)
  end.
Proof.
  unfold evaluate_question_set_comprehensive.
  destruct (read_text files questions_file) as [questions_text|e]; [|reflexivity].
  cbn [bind_result].
  match goal with
  | |- context [evaluate_all _ ?kb] =>
      destruct (evaluate_all_parsed (question_blocks questions_text) kb)
        as (all_results & Hall & Hlen)
  end.
  rewrite Hall. cbn [bind_result]. eexists. split; [reflexivity|].
  cbn [num_questions per_question_results metrics].
  rewrite length_fmap. repeat split. exact Hlen.
Qed.

(** ** Properties of the utilities *)

Lemma py_slice_window {A : Type} (l : list A) (i size : Z) :
  (0 <= i)%Z -> (0 <= size)%Z ->
  py_slice l i (i + size) = take (Z.to_nat size) (drop (Z.to_nat i) l).
Proof.
  intros Hi Hsize. unfold py_slice.
  destruct (Z.ltb_spec i 0) as [?|_]; [lia|].
  destruct (Z.ltb_spec (i + size) 0) as [?|_]; [lia|].
  destruct (Z_le_gt_dec i (Z.of_nat (length l))) as [Hin|Hout].
  - rewrite (Z.min_l i) by lia.
    destruct (Z_le_gt_dec (i + size) (Z.of_nat (length l))) as [Hfit|Hover].
    + rewrite Z.min_l by lia. f_equal. lia.
    + rewrite Z.min_r by lia.
      rewrite !take_ge; [reflexivity|rewrite length_drop; lia|rewrite length_drop; lia].
  - rewrite !Z.min_r by lia.
    rewrite (drop_ge l (Z.to_nat i)) by lia.
    rewrite (drop_ge l (Z.to_nat (Z.of_nat (length l)))) by lia.
    rewrite !take_nil. reflexivity.
Qed.

Lemma windows_cover {A : Type} (step : nat) (k : nat) : forall l : list A,
  (length l <= k * step)%nat ->
  concat ((fun j => take step (drop (j * step) l)) <$> seq 0 k) = l.
Proof.
  induction k as [|k IH]; intros l Hlen.
  - destruct l; [reflexivity|cbn in Hlen; lia].
  - cbn [seq fmap list_fmap concat]. rewrite Nat.mul_0_l, drop_0.
    rewrite <- seq_shift, <- list_fmap_compose.
    rewrite <- (take_drop step l) at 2. f_equal.
    rewrite <- (IH (drop step l)) by (rewrite length_drop; lia).
    f_equal. apply list_fmap_ext. intros _ j _. cbn [compose].
    rewrite drop_drop. f_equal; try (f_equal; lia).
Qed.

(** X22. With [0 <= overlap < chunk_size], [chunk_text] returns
    ceil(n / (chunk_size - overlap)) chunks for a text of n words; every
    chunk holds at most [chunk_size] words, and the first
    [chunk_size - overlap] words of the chunks, taken in order, are exactly
    the words of the text: no word is lost or reordered. *)
Theorem chunk_text_covers (text : string) (chunk_size overlap : Z) :
  (0 <= overlap < chunk_size)%Z ->
  let step := (chunk_size - overlap)%Z in
  exists chunks,
    chunk_text text chunk_size overlap = Some chunks
    /\ Z.of_nat (length chunks) = ((Z.of_nat (length (split text)) + step - 1) / step)%Z
    /\ Forall (fun chunk => (Z.of_nat (length (split chunk)) <= chunk_size)%Z) chunks
    /\ concat ((fun chunk => take (Z.to_nat step) (split chunk)) <$> chunks) = split text.
Proof.
  intros Hsizes step. unfold chunk_text, range_from_zero. fold step.
  destruct (Z.eqb_spec step 0) as [?|_]; [subst step; lia|].
  destruct (Z.ltb_spec step 0) as [?|_]; [subst step; lia|].
  set (words := split text).
  set (k := Z.to_nat ((Z.of_nat (length words) + step - 1) / step)).
  assert (Hstep : (0 < step)%Z) by (subst step; lia).
  assert (Hk : (Z.of_nat (length words) <= Z.of_nat k * step)%Z).
  { subst k. rewrite Z2Nat.id by (apply Z.div_pos; lia).
    pose proof (Z.mul_succ_div_gt (Z.of_nat (length words) + step - 1) step Hstep). lia. }
  eexists. split; [reflexivity|].
  assert (Hchunk : forall j : nat,
    split (join " " (py_slice words (Z.of_nat j * step) (Z.of_nat j * step + chunk_size)))
    = take (Z.to_nat chunk_size) (drop (j * Z.to_nat step) words)).
  { intros j. rewrite py_slice_window by lia.
    replace (Z.to_nat (Z.of_nat j * step)) with (j * Z.to_nat step)%nat by lia.
    apply split_join, Forall_take, Forall_drop, split_words. }
  split; [|split].
  - rewrite !length_fmap, length_seq. subst k.
    apply Z2Nat.id, Z.div_pos; lia.
  - apply Forall_fmap, Forall_fmap, Forall_true. intros j. cbn [compose].
    rewrite Hchunk, length_take. lia.
  - rewrite <- !list_fmap_compose.
    etransitivity; [|apply (windows_cover (Z.to_nat step) k words); lia].
    f_equal. apply list_fmap_ext. intros _ j _. cbn [compose].
    rewrite Hchunk, take_take. f_equal. lia.
Qed.

(** X23. [chunk_text] fails (the [ValueError] of [range]) exactly when
    [chunk_size] equals [overlap]; with [overlap] greater than
    [chunk_size] it returns no chunk at all, and so it does for a text
    without words. *)
Theorem chunk_text_edges (text : string) (chunk_size overlap : Z) :
  (chunk_text text chunk_size overlap = None <-> chunk_size = overlap)
  /\ ((chunk_size < overlap)%Z -> chunk_text text chunk_size overlap = Some [])
  /\ (split text = [] -> chunk_size <> overlap ->
      chunk_text text chunk_size overlap = Some []).
Proof.
  unfold chunk_text, range_from_zero.
  destruct (Z.eqb_spec (chunk_size - overlap) 0) as [Hz|Hnz].
  - split; [split; [lia|reflexivity]|]. split; [lia|]. intros _ Hne. lia.
  - destruct (Z.ltb_spec (chunk_size - overlap) 0) as [Hneg|Hpos].
    + split; [split; [discriminate|lia]|]. split; reflexivity.
    + split; [split; [discriminate|lia]|]. split; [lia|].
      intros Hempty _. rewrite Hempty. cbn [length Z.of_nat].
      rewrite Z.add_0_l, Z.div_small by lia. reflexivity.
Qed.
(** *** Keywords *)

Lemma freq_get_set (word_freq : list (string * Z)) (word : string) (n : Z) (k : string) :
  freq_get (freq_set word_freq word n) k
  = if String.eqb word k then n else freq_get word_freq k.
Proof.
  induction word_freq as [|[w m] rest IH]; cbn [freq_set freq_get].
  - reflexivity.
  - destruct (String.eqb_spec w word) as [->|Hne]; cbn [freq_get].
    + destruct (String.eqb word k); reflexivity.
    + destruct (String.eqb_spec w k) as [->|Hne'].
      * destruct (String.eqb_spec word k) as [->|_]; [contradiction|reflexivity].
      * exact IH.
Qed.

Lemma freq_set_keys (word_freq : list (string * Z)) (word : string) (n : Z) :
  (freq_set word_freq word n).*1
  = if bool_decide (word ∈ word_freq.*1) then word_freq.*1 else word_freq.*1 ++ [word].
Proof.
  induction word_freq as [|[w m] rest IH]; [reflexivity|].
  cbn [freq_set]. destruct (String.eqb_spec w word) as [->|Hne].
  - rewrite fmap_cons. cbn [fst]. rewrite bool_decide_eq_true_2; [reflexivity|left].
  - rewrite !fmap_cons. cbn [fst]. rewrite IH.
    destruct (decide (word ∈ rest.*1)) as [Hin|Hout].
    + rewrite !bool_decide_eq_true_2; [reflexivity|right; exact Hin|exact Hin].
    + rewrite !bool_decide_eq_false_2; [reflexivity| |exact Hout].
      intros Hin. apply elem_of_cons in Hin as [Heq|Hin]; [congruence|tauto].
Qed.

Lemma freq_get_item (word_freq : list (string * Z)) (k : string) (n : Z) :
  NoDup word_freq.*1 -> (k, n) ∈ word_freq -> freq_get word_freq k = n.
Proof.
  induction word_freq as [|[w m] rest IH]; intros Hnd Hin.
  - apply elem_of_nil in Hin. contradiction.
  - rewrite fmap_cons in Hnd. cbn [fst] in Hnd. apply NoDup_cons in Hnd as [Hw Hnd].
    cbn [freq_get]. apply elem_of_cons in Hin as [Heq|Hin].
    + inversion Heq; subst. rewrite String.eqb_refl. reflexivity.
    + destruct (String.eqb_spec w k) as [->|_]; [|exact (IH Hnd Hin)].
      exfalso. apply Hw. apply list_elem_of_fmap. exists (k, n). split; [reflexivity|exact Hin].
Qed.

(** What the loop over the words leaves in [word_freq]. *)
Lemma word_frequencies_spec (words : list string) :
  let word_freq := word_frequencies words in
  let counted := List.filter is_keyword (strip_chars punctuation <$> words) in
  NoDup word_freq.*1
  /\ (forall k, k ∈ word_freq.*1 <-> k ∈ counted)
  /\ (forall k, freq_get word_freq k = Z.of_nat (count_if (String.eqb k) counted)).
Proof.
  cbv zeta. induction words as [|word words IH] using rev_ind.
  - cbn. split; [constructor|]. split; [reflexivity|reflexivity].
  - destruct IH as (Hnd & Hkeys & Hfreq).
    unfold word_frequencies in *. rewrite fold_left_app. cbn [fold_left].
    rewrite fmap_app, List.filter_app. cbn [fmap list_fmap List.filter].
    set (word_freq := fold_left _ words []) in *.
    set (counted := List.filter is_keyword (strip_chars punctuation <$> words)) in *.
    set (w := strip_chars punctuation word).
    destruct (is_keyword w) eqn:Hkeep.
    + split; [|split].
      * rewrite freq_set_keys. case_bool_decide as Hin; [exact Hnd|].
        apply NoDup_app. split; [exact Hnd|]. split; [|apply NoDup_singleton].
        intros x Hx Hx'. apply list_elem_of_singleton in Hx'. subst x. contradiction.
      * intros k. rewrite freq_set_keys, elem_of_app, list_elem_of_singleton.
        case_bool_decide as Hin.
        -- rewrite Hkeys. split; [tauto|]. intros [H| ->]; [exact H|].
           apply Hkeys. exact Hin.
        -- rewrite elem_of_app, list_elem_of_singleton, Hkeys. reflexivity.
      * intros k. rewrite freq_get_set, count_if_app, !Hfreq. cbn [count_if].
        rewrite (String.eqb_sym w k).
        destruct (String.eqb_spec k w) as [->|Hne]; lia.
    + rewrite app_nil_r. split; [exact Hnd|]. split; [exact Hkeys|exact Hfreq].
Qed.

Lemma insert_by_freq_perm (x : string * Z) (sorted : list (string * Z)) :
  insert_by_freq x sorted ≡ₚ x :: sorted.
Proof.
  induction sorted as [|y rest IH]; [reflexivity|].
  cbn [insert_by_freq]. destruct (x.2 <? y.2)%Z; [|reflexivity].
  rewrite IH. apply Permutation_swap.
Qed.

Lemma sorted_by_freq_perm (items : list (string * Z)) : sorted_by_freq items ≡ₚ items.
Proof.
  induction items as [|x items IH]; [reflexivity|].
  cbn [sorted_by_freq foldr]. fold (sorted_by_freq items).
  rewrite insert_by_freq_perm, IH. reflexivity.
Qed.

Lemma insert_by_freq_sorted (x : string * Z) (sorted : list (string * Z)) :
  StronglySorted (fun a b => (b.2 <= a.2)%Z) sorted ->
  StronglySorted (fun a b => (b.2 <= a.2)%Z) (insert_by_freq x sorted).
Proof.
  induction 1 as [|y rest Hrest IH Hy]; cbn [insert_by_freq].
  - constructor; constructor.
  - destruct (Z.ltb_spec x.2 y.2) as [Hlt|Hge].
    + constructor; [exact IH|].
      rewrite insert_by_freq_perm. constructor; [lia|exact Hy].
    + constructor; [constructor; assumption|].
      constructor; [exact Hge|].
      eapply Forall_impl; [exact Hy|]. intros z Hz. cbn in Hz. lia.
Qed.

Lemma sorted_by_freq_sorted (items : list (string * Z)) :
  StronglySorted (fun a b => (b.2 <= a.2)%Z) (sorted_by_freq items).
Proof.
  induction items as [|x items IH]; [constructor|].
  cbn [sorted_by_freq foldr]. apply insert_by_freq_sorted. exact IH.
Qed.

(** [l[:n]] is a prefix of [l]: the first [n] items, or all but the last
    [-n] for a negative [n]. *)
Lemma py_slice_prefix {A : Type} (l : list A) (n : Z) :
  py_slice l 0 n
  = take (Z.to_nat (if (n <? 0)%Z then Z.of_nat (length l) + n else n)) l.
Proof.
  unfold py_slice. cbn [Z.ltb Z.compare]. rewrite (Z.min_l 0) by lia.
  rewrite Z.sub_0_r. cbn [Z.to_nat skipn drop].
  destruct (Z.ltb_spec n 0) as [Hneg|Hpos].
  - destruct (Z_le_gt_dec 0 (Z.of_nat (length l) + n)).
    + rewrite Z.max_l by lia. reflexivity.
    + rewrite Z.max_r by lia. f_equal. lia.
  - destruct (Z_le_gt_dec n (Z.of_nat (length l))).
    + rewrite Z.min_l by lia. reflexivity.
    + rewrite Z.min_r by lia.
      rewrite !take_ge; [reflexivity|lia|rewrite length_drop; lia].
Qed.

(** X27. The keywords that [extract_keywords] returns are distinct words
    among those it counts (stripped of punctuation, lower-cased, longer than
    three characters and no stop word), in the order of their number of
    occurrences, the most frequent first: a counted word that occurs more
    often than a returned one is returned too. With [top_n] not negative
    there are at most [top_n] of them, and all counted words are returned
    when there are no more than [top_n]. *)
Theorem extract_keywords_ranked (text : string) (top_n : Z) :
  let keywords := extract_keywords text top_n in
  NoDup keywords
  /\ (forall k, k ∈ keywords -> k ∈ counted_words text)
  /\ (forall a b,
        a ∈ keywords -> b ∈ counted_words text ->
        (occurrences text a < occurrences text b)%nat -> b ∈ keywords)
  /\ (forall i j a b,
        keywords !! i = Some a -> keywords !! j = Some b -> (i < j)%nat ->
        (occurrences text b <= occurrences text a)%nat)
  /\ ((0 <= top_n)%Z -> (Z.of_nat (length keywords) <= top_n)%Z)
  /\ ((Z.of_nat (length (counted_words text)) <= top_n)%Z ->
      forall k, k ∈ counted_words text -> k ∈ keywords).
Proof.
  cbv zeta. unfold extract_keywords, occurrences, counted_words. cbv zeta.
  destruct (word_frequencies_spec (split (lower text))) as (Hnd & Hkeys & Hfreq).
  cbv zeta in Hnd, Hkeys, Hfreq.
  set (counted := List.filter is_keyword _) in *.
  set (word_freq := word_frequencies _) in *.
  pose proof (sorted_by_freq_perm word_freq) as Hperm.
  pose proof (sorted_by_freq_sorted word_freq) as Hsorted.
  set (sorted_words := sorted_by_freq word_freq) in *.
  assert (Hnd' : NoDup sorted_words.*1) by (rewrite Hperm; exact Hnd).
  assert (Hitem : forall k n, (k, n) ∈ sorted_words ->
                              k ∈ counted /\ n = Z.of_nat (count_if (String.eqb k) counted)).
  { intros k n Hin. rewrite Hperm in Hin. split.
    - apply Hkeys. apply list_elem_of_fmap. exists (k, n). split; [reflexivity|exact Hin].
    - rewrite <- Hfreq. symmetry. apply freq_get_item; assumption. }
  assert (Hall : forall k, k ∈ counted -> k ∈ sorted_words.*1).
  { intros k Hk. rewrite Hperm. apply Hkeys. exact Hk. }
  rewrite py_slice_prefix.
  set (m := Z.to_nat _).
  assert (Hlen : (length sorted_words <= length counted)%nat).
  { rewrite <- (length_fmap fst sorted_words).
    apply submseteq_length, NoDup_submseteq; [exact Hnd'|].
    intros k Hk. apply list_elem_of_fmap in Hk as ([k' n] & -> & Hin).
    apply (Hitem k' n Hin). }
  rewrite fmap_take.
  rewrite <- (take_drop m sorted_words) in Hsorted.
  split; [|split; [|split; [|split; [|split]]]].
  - rewrite <- (take_drop m (sorted_words.*1)) in Hnd'.
    apply NoDup_app in Hnd' as [Hnd' _]. exact Hnd'.
  - intros k Hk. apply elem_of_take in Hk as (i & Hi & _).
    apply list_lookup_fmap_Some in Hi as ([k' n] & -> & Hi).
    apply list_elem_of_lookup_2 in Hi. apply (Hitem k' n Hi).
  - intros a b Ha Hb Hlt.
    rewrite <- fmap_take in Ha. apply list_elem_of_fmap in Ha as ([a' na] & -> & Ha).
    cbn [fst] in Hlt.
    pose proof (Hall b Hb) as Hb'.
    rewrite <- (take_drop m sorted_words), fmap_app, elem_of_app in Hb'.
    destruct Hb' as [Hb'|Hb']; [rewrite fmap_take in Hb'; exact Hb'|].
    exfalso. apply list_elem_of_fmap in Hb' as ([b' nb] & -> & Hb').
    pose proof (StronglySorted_app_1_elem_of _ _ _ _ _ Hsorted Ha Hb') as Hord.
    cbn [snd fst] in Hord, Hlt.
    apply elem_of_take in Ha as (i & Ha & _). apply list_elem_of_lookup_2 in Ha.
    apply list_elem_of_lookup_1 in Hb' as (j & Hb'). rewrite lookup_drop in Hb'.
    apply list_elem_of_lookup_2 in Hb'.
    destruct (Hitem _ _ Ha) as [_ ->]. destruct (Hitem _ _ Hb') as [_ ->]. lia.
  - intros i j a b Ha Hb Hij.
    rewrite <- fmap_take in Ha, Hb.
    apply list_lookup_fmap_Some in Ha as ([a' na] & -> & Ha).
    apply list_lookup_fmap_Some in Hb as ([b' nb] & -> & Hb). cbn [fst].
    apply lookup_take_Some in Ha as [Ha Him]. apply lookup_take_Some in Hb as [Hb Hjm].
    assert (Hord : (nb <= na)%Z).
    { pose proof (sorted_by_freq_sorted word_freq) as Hs. fold sorted_words in Hs.
      rewrite <- (take_drop j sorted_words) in Hs.
      apply (StronglySorted_app_1_elem_of _ _ _ (a', na) (b', nb) Hs).
      - apply elem_of_take. exists i. split; [exact Ha|exact Hij].
      - apply (list_elem_of_lookup_2 _ 0%nat). rewrite lookup_drop, Nat.add_0_r.
        exact Hb. }
    apply list_elem_of_lookup_2 in Ha, Hb.
    destruct (Hitem _ _ Ha) as [_ ->]. destruct (Hitem _ _ Hb) as [_ ->]. lia.
  - intros Hn. rewrite length_take, length_fmap. subst m.
    destruct (Z.ltb_spec top_n 0); lia.
  - intros Hn k Hk. rewrite take_ge; [apply Hall; exact Hk|].
    rewrite length_fmap. subst m. destruct (Z.ltb_spec top_n 0); lia.
Qed.

Lemma isspace_lower_char (c : ascii) : isspace (lower_char c) = isspace c.
Proof. destruct c as [[] [] [] [] [] [] [] []]; reflexivity. Qed.

Lemma lower_app (a b : string) : lower (a ++ b) = (lower a ++ lower b)%string.
Proof.
  induction a as [|c a IH]; [reflexivity|].
  change (lower (String c (a ++ b)) = String (lower_char c) (lower a ++ lower b)).
  cbn [lower]. rewrite IH. reflexivity.
Qed.

Lemma split_from_lower (cur s : string) :
  split_from (lower cur) (lower s) = lower <$> split_from cur s.
Proof.
  revert cur. induction s as [|c s IH]; intros cur.
  - destruct cur; reflexivity.
  - cbn [lower split_from]. rewrite isspace_lower_char.
    destruct (isspace c).
    + destruct cur as [|c0 cur]; cbn [lower].
      * apply (IH EmptyString).
      * rewrite fmap_cons. f_equal. apply (IH EmptyString).
    + rewrite <- IH, lower_app. reflexivity.
Qed.

Lemma split_from_length (cur s : string) :
  (length (split_from cur s)
   <= (match cur with EmptyString => 0 | _ => 1 end) + String.length s)%nat.
Proof.
  revert cur. induction s as [|c s IH]; intros cur.
  - destruct cur; cbn; lia.
  - cbn [split_from String.length]. destruct (isspace c).
    + pose proof (IH EmptyString) as H. destruct cur; cbn [length] in *; lia.
    + destruct cur as [|c0 cur]; [rewrite append_empty_l|rewrite append_cons].
      * pose proof (IH (String c EmptyString)) as H. cbn beta iota in H. lia.
      * pose proof (IH (String c0 (cur ++ String c EmptyString))) as H.
        cbn beta iota in H. lia.
Qed.

(** X28. The metadata of a chunk holds at most five keywords and never
    more keywords than words, the number of whitespace-separated words of
    the text, and no more words than characters. *)
Theorem create_metadata_counts (text : string) (chunk_id : Z) :
  let m := create_metadata text chunk_id in
  (length (md_keywords m) <= 5)%nat
  /\ (length (md_keywords m) <= md_word_count m)%nat
  /\ (md_word_count m <= md_char_count m)%nat.
Proof.
  cbv zeta. unfold create_metadata. cbn [md_keywords md_word_count md_char_count].
  assert (Hfive : (length (extract_keywords text 5) <= 5)%nat).
  { unfold extract_keywords. cbv zeta.
    rewrite py_slice_prefix, length_fmap, length_take. cbn. lia. }
  split; [exact Hfive|]. split.
  - unfold extract_keywords. cbv zeta.
    destruct (word_frequencies_spec (split (lower text))) as (Hnd & Hkeys & _).
    cbv zeta in Hnd, Hkeys.
    rewrite py_slice_prefix, length_fmap, length_take.
    rewrite (Permutation_length (sorted_by_freq_perm _)).
    rewrite <- (length_fmap fst (word_frequencies _)).
    etransitivity; [apply Nat.le_min_r|].
    etransitivity.
    { apply submseteq_length, NoDup_submseteq; [exact Hnd|].
      intros k Hk. apply Hkeys in Hk. exact Hk. }
    etransitivity; [apply filter_length_le|].
    rewrite length_fmap. unfold split.
    change EmptyString with (lower EmptyString) at 1.
    rewrite split_from_lower, length_fmap. reflexivity.
  - pose proof (split_from_length EmptyString text) as H. exact H.
Qed.
(** *** Explanations: collapsing whitespace *)

Lemma rstrip_cons (c : ascii) (s : string) :
  rstrip (String c s)
  = match rstrip s with
    | EmptyString => if isspace c then EmptyString else String c EmptyString
    | r => String c r
    end.
Proof. reflexivity. Qed.

Lemma split_from_blank (s cur : string) :
  rstrip s = EmptyString ->
  split_from cur s = match cur with EmptyString => [] | _ => [cur] end.
Proof.
  revert cur. induction s as [|c s IH]; intros cur Hs; [reflexivity|].
  rewrite rstrip_cons in Hs.
  destruct (rstrip s) as [|c' r] eqn:Hr; [|discriminate Hs].
  destruct (isspace c) eqn:Hc; [|discriminate Hs].
  cbn [split_from]. rewrite Hc, (IH EmptyString eq_refl).
  destruct cur; reflexivity.
Qed.

Lemma split_from_nil (s cur : string) :
  split_from cur s = [] -> cur = EmptyString /\ rstrip s = EmptyString.
Proof.
  revert cur. induction s as [|c s IH]; intros cur Hs.
  - destruct cur; [split; reflexivity|discriminate Hs].
  - cbn [split_from] in Hs. rewrite rstrip_cons. destruct (isspace c) eqn:Hc.
    + destruct cur as [|c' cur]; [|discriminate Hs].
      destruct (IH _ Hs) as [_ ->]. split; reflexivity.
    + destruct (IH _ Hs) as [Hcur _]. destruct cur; discriminate Hcur.
Qed.

(** Joining the words of a text by single spaces is collapsing the runs of
    whitespace of the text without its trailing whitespace. *)
Lemma join_split_from (s : string) :
  (forall cur, cur <> EmptyString ->
     join " " (split_from cur s) = (cur ++ sub_runs isspace false (rstrip s))%string)
  /\ join " " (split_from EmptyString s) = sub_runs isspace true (rstrip s).
Proof.
  induction s as [|c s [IHword IHgap]].
  - split; [|reflexivity]. intros cur Hcur. destruct cur as [|c' cur]; [contradiction|].
    cbn [split_from join rstrip sub_runs]. rewrite append_empty_r. reflexivity.
  - rewrite rstrip_cons. cbn [split_from]. destruct (isspace c) eqn:Hc.
    + split.
      * intros cur Hcur. destruct cur as [|c' cur]; [contradiction|].
        destruct (split_from EmptyString s) as [|w ws] eqn:Hsplit.
        -- destruct (split_from_nil _ _ Hsplit) as [_ ->].
           cbn [join sub_runs]. rewrite append_empty_r. reflexivity.
        -- destruct (rstrip s) as [|c'' r] eqn:Hr.
           { rewrite (split_from_blank s EmptyString Hr) in Hsplit. discriminate Hsplit. }
           change (join " " (String c' cur :: w :: ws))
             with (String c' cur ++ " " ++ join " " (w :: ws))%string.
           rewrite IHgap. cbn [sub_runs]. rewrite Hc. reflexivity.
      * destruct (rstrip s) as [|c'' r] eqn:Hr; [exact IHgap|].
        rewrite IHgap. cbn [sub_runs]. rewrite Hc. reflexivity.
    + assert (Hr : match rstrip s with
                   | EmptyString => String c EmptyString
                   | String a r => String c (String a r)
                   end = String c (rstrip s)) by (destruct (rstrip s); reflexivity).
      rewrite Hr. cbn [sub_runs]. rewrite Hc. split.
      * intros cur Hcur. rewrite IHword; [|destruct cur; discriminate].
        rewrite append_assoc. reflexivity.
      * rewrite append_empty_l, IHword by discriminate. reflexivity.
Qed.

Lemma sub_runs_lstrip (s : string) :
  sub_runs isspace true (rstrip s) = sub_runs isspace false (rstrip (lstrip s)).
Proof.
  induction s as [|c s IH]; [reflexivity|].
  cbn [lstrip]. destruct (isspace c) eqn:Hc.
  - rewrite rstrip_cons, Hc, <- IH.
    destruct (rstrip s) as [|c' r]; [reflexivity|].
    cbn [sub_runs]. rewrite Hc. reflexivity.
  - rewrite rstrip_cons, Hc.
    destruct (rstrip s) as [|c' r]; cbn [sub_runs]; rewrite Hc; reflexivity.
Qed.

Lemma collapse_strip (s : string) :
  sub_runs isspace false (strip s) = join " " (split s).
Proof.
  unfold strip, split. rewrite <- sub_runs_lstrip. symmetry. apply join_split_from.
Qed.

(** Collapsing the line feeds first makes no difference. *)
Lemma sub_runs_newlines (s : string) (in_run in_lines : bool) :
  (in_lines = true -> in_run = true) ->
  sub_runs isspace in_run (sub_runs (chr (ascii_of_nat 10)) in_lines s)
  = sub_runs isspace in_run s.
Proof.
  revert in_run in_lines. induction s as [|c s IH]; intros in_run in_lines Hrun;
    [reflexivity|].
  cbn [sub_runs]. destruct (chr (ascii_of_nat 10) c) eqn:Hnl.
  - apply Ascii.eqb_eq in Hnl. subst c.
    change (isspace (ascii_of_nat 10)) with true. cbv iota.
    destruct in_lines.
    + rewrite (Hrun eq_refl). apply IH. reflexivity.
    + cbn [sub_runs]. change (isspace " ") with true. cbv iota.
      destruct in_run; rewrite IH; reflexivity.
  - cbn [sub_runs]. destruct (isspace c).
    + destruct in_run; rewrite IH; (reflexivity || discriminate).
    + rewrite IH; [reflexivity|discriminate].
Qed.

Lemma split_rstrip (s cur : string) : split_from cur (rstrip s) = split_from cur s.
Proof.
  revert cur. induction s as [|c s IH]; intros cur; [reflexivity|].
  rewrite rstrip_cons. destruct (rstrip s) as [|c' r] eqn:Hr.
  - cbn [split_from]. destruct (isspace c) eqn:Hc.
    + rewrite (split_from_blank s EmptyString Hr). destruct cur; reflexivity.
    + cbn [split_from]. rewrite Hc, <- IH. reflexivity.
  - cbn [split_from]. destruct (isspace c); rewrite <- IH; reflexivity.
Qed.

Lemma split_lstrip (s : string) : split (lstrip s) = split s.
Proof.
  unfold split. induction s as [|c s IH]; [reflexivity|].
  cbn [lstrip split_from]. destruct (isspace c) eqn:Hc; [exact IH|].
  cbn [split_from]. rewrite Hc. reflexivity.
Qed.

Lemma split_strip (s : string) : split (strip s) = split s.
Proof. unfold strip, split at 1. rewrite split_rstrip. apply split_lstrip. Qed.

(** What the two substitutions make of a stripped capture. *)
Lemma tidy_capture (g : string) :
  sub_runs isspace false (sub_runs (chr (ascii_of_nat 10)) false (strip g))
  = join " " (split g).
Proof. rewrite sub_runs_newlines by discriminate. apply collapse_strip. Qed.

Lemma join_split_idemp (g : string) :
  join " " (split (join " " (split g))) = join " " (split g).
Proof. rewrite split_join; [reflexivity|apply split_words]. Qed.

(** *** Explanations: where a pattern matches *)

Lemma match_lit_i (word : string) (k : list item) caps (s : string) r :
  match_here (lit_i word ++ k) None caps s = Some r ->
  exists found rest,
    s = (found ++ rest)%string /\ lower found = lower word
    /\ match_here k None caps rest = Some r.
Proof.
  revert s. induction word as [|c word IH]; intros s Hm.
  - exists EmptyString, s. split; [reflexivity|]. split; [reflexivity|exact Hm].
  - cbn [lit_i app match_here] in Hm. destruct s as [|x s]; [discriminate Hm|].
    destruct (chr_i c x) eqn:Hx; [|discriminate Hm]. cbn [push] in Hm.
    destruct (IH s Hm) as (found & rest & -> & Hfound & Hrest).
    exists (String x found), rest. split; [reflexivity|]. split; [|exact Hrest].
    cbn [lower]. apply Ascii.eqb_eq in Hx. rewrite Hx, Hfound. reflexivity.
Qed.

Lemma search_mentions (word text : string) r :
  search (reasoning_pattern word) text = Some r -> mentions word text.
Proof.
  induction text as [|c text IH]; cbn [search].
  - destruct (match_here (reasoning_pattern word) None [] EmptyString) as [r'|] eqn:Hm;
      [|discriminate].
    intros _. apply match_lit_i in Hm as (found & rest & Htext & Hfound & Hrest).
    exists EmptyString, found, rest. split; [exact Htext|]. split; [exact Hfound|].
    intros ->. rewrite match_star_eq in Hrest. discriminate Hrest.
  - destruct (match_here (reasoning_pattern word) None [] (String c text)) as [r'|] eqn:Hm.
    + intros _. apply match_lit_i in Hm as (found & rest & Htext & Hfound & Hrest).
      exists EmptyString, found, rest. split; [exact Htext|]. split; [exact Hfound|].
      intros ->. rewrite match_star_eq in Hrest. discriminate Hrest.
    + intros Hs. destruct (IH Hs) as (before & found & rest & -> & Hfound & Hrest).
      exists (String c before), found, rest. split; [reflexivity|].
      split; [exact Hfound|exact Hrest].
Qed.

(** X29. What [extract_reasoning] returns is always normalised: its words
    are separated by single spaces, with no line feed and no whitespace at
    either end. When [parse_question_block] finds an explanation, it is that
    explanation with its whitespace collapsed; and when none of the words
    "explanation", "reasoning", "why" and "because" occurs in the text, in
    any case, with a character after it, it is the fixed sentence
    [no_explanation]. *)
Theorem extract_reasoning_outcome (question_text : string) :
  let reasoning := extract_reasoning question_text in
  join " " (split reasoning) = reasoning
  /\ (explanation (parse_question_block question_text) <> EmptyString ->
      reasoning = join " " (split (explanation (parse_question_block question_text))))
  /\ ((forall word, In word reasoning_words -> ~ mentions word question_text) ->
      reasoning = no_explanation).
Proof.
  cbv zeta. unfold extract_reasoning, parse_question_block. cbn [explanation].
  change explanation_pattern with (reasoning_pattern "explanation").
  destruct (search (reasoning_pattern "explanation") question_text) as [[groups rest]|] eqn:He.
  - rewrite tidy_capture, split_strip. split; [apply join_split_idemp|].
    split; [reflexivity|]. intros Hnone. exfalso.
    apply (Hnone "explanation"%string); [left; reflexivity|].
    apply (search_mentions _ _ _ He).
  - assert (Hloop : forall patterns,
              Forall (fun p => exists word, In word reasoning_words
                                            /\ p = reasoning_pattern word) patterns ->
              match first_reasoning patterns question_text with
              | Some reasoning =>
                  join " " (split reasoning) = reasoning
                  /\ exists word, In word reasoning_words /\ mentions word question_text
              | None => True
              end).
    { induction 1 as [|p ps (word & Hword & ->) _ IH]; cbn [first_reasoning]; [exact I|].
      destruct (search (reasoning_pattern word) question_text) as [[groups rest]|] eqn:Hs;
        [|exact IH].
      rewrite tidy_capture. split; [apply join_split_idemp|].
      exists word. split; [exact Hword|]. apply (search_mentions _ _ _ Hs). }
    specialize (Hloop fallback_patterns).
    destruct (first_reasoning fallback_patterns question_text) as [reasoning|].
    + destruct Hloop as (Hnorm & word & Hword & Hmention).
      { repeat constructor.
        - exists "reasoning"%string. split; [right; left; reflexivity|reflexivity].
        - exists "why"%string. split; [do 2 right; left; reflexivity|reflexivity].
        - exists "because"%string. split; [do 3 right; left; reflexivity|reflexivity]. }
      split; [exact Hnorm|]. split; [intros H; contradiction|].
      intros Hnone. exfalso. apply (Hnone word Hword Hmention).
    + split; [reflexivity|]. split; [intros H; contradiction|]. reflexivity.
Qed.

(** ** The further properties on sample inputs *)

(** X1 on the sample session from a fresh profile. *)
Lemma sample_session_records :
  response_times (init "ann") = ev_time_taken <$> performance_history (init "ann")
  /\ response_times (replay (init "ann") sample_calls)
     = ev_time_taken <$> performance_history (replay (init "ann") sample_calls).
Proof.
  split; [reflexivity|].
  destruct (session_records (init "ann") sample_calls) as (_ & _ & _ & _ & Hparallel).
  apply Hparallel. reflexivity.
Defined.

(** X3 on a correct first response with confidence 4. *)
Lemma sample_skill_direction :
  800 <= skill_level (init "ann") <= 2200
  /\ skill_level (init "ann")
     <= skill_level (add_response (init "ann") "2025-03-01T10:00:00" "q_1_0" true 12
                       "medium" "algebra" (Some 4%Z)).
Proof.
  assert (Hbounds : 800 <= skill_level (init "ann") <= 2200) by (cbn; lra).
  split; [exact Hbounds|].
  refine (skill_moves_with_correctness (init "ann") "2025-03-01T10:00:00" "q_1_0" true 12
            "medium" "algebra" (Some 4%Z) Hbounds _).
  intros c [= <-]. lia.
Defined.

(** X4 on an incorrect first response with confidence 5. *)
Lemma sample_skill_step :
  800 <= skill_level (init "ann") <= 2200
  /\ skill_level (init "ann") - 37
     < skill_level (add_response (init "ann") "2025-03-01T10:00:00" "q_1_0" false 12
                      "hard" "algebra" (Some 5%Z))
     < skill_level (init "ann") + 37.
Proof.
  assert (Hbounds : 800 <= skill_level (init "ann") <= 2200) by (cbn; lra).
  split; [exact Hbounds|].
  refine (skill_step_bounded (init "ann") "2025-03-01T10:00:00" "q_1_0" false 12
            "hard" "algebra" (Some 5%Z) Hbounds _).
  intros c [= <-]. lia.
Defined.

(** X6 on a profile file that holds a skill level only. *)
Lemma sample_load_partial :
  exists attrs,
    load {[ profile_path "ann" := Readable (Document [("skill_level", JNum 1700)]) ]} "ann"
    = Returns attrs
    /\ dict_get attrs "skill_level" = Some (JNum 1700)
    /\ dict_get attrs "current_difficulty" = Some (JStr "medium").
Proof.
  destruct (load_merges_defaults
              {[ profile_path "ann" := Readable (Document [("skill_level", JNum 1700)]) ]}
              "ann" [("skill_level", JNum 1700)])
    as (attrs & Hload & Hget).
  - apply lookup_singleton_eq.
  - cbn [fmap list_fmap fst]. apply NoDup_singleton.
  - exists attrs. split; [exact Hload|]. split.
    + rewrite Hget. reflexivity.
    + rewrite Hget. reflexivity.
Defined.

(** X9 and X10 on the well-formed sample block. *)
Lemma sample_parsed_letter :
  correct_answer (parse_question_block sample_block) = Some "B"%string
  /\ In "B"%string answer_letters.
Proof.
  assert (Hparsed : correct_answer (parse_question_block sample_block) = Some "B"%string)
    by (vm_compute; reflexivity).
  split; [exact Hparsed|].
  apply (parsed_answer_is_letter sample_block "B" Hparsed).
Defined.

Lemma sample_extract_agrees :
  correct_answer (parse_question_block sample_block) = Some "B"%string
  /\ fst (extract_correct_answer sample_block) = Some "B"%string.
Proof.
  assert (Hparsed : correct_answer (parse_question_block sample_block) = Some "B"%string)
    by (vm_compute; reflexivity).
  split; [exact Hparsed|].
  apply (proj1 (extract_correct_answer_agrees sample_block) "B"%string Hparsed).
Defined.

(** X11 on a record whose answer has two characters. *)
Lemma sample_evaluate_raises :
  exists e,
    evaluate_question_comprehensive
      {| question := "What is X?"; options := ["foo"; "bar"];
         correct_answer := Some "AB"%string; explanation := EmptyString |} None
    = Raises e.
Proof.
  apply (proj1 (evaluate_raises_iff _ None)).
  exists "AB"%string. split; [reflexivity|]. split; [cbn; lia|].
  left. discriminate.
Defined.

(** X13, X16, X17 and X18 on sample texts. *)
Lemma sample_clarity_unit :
  exists v,
    calculate_clarity "What is the capital of France?" !! "clarity" = Some (VNum v)
    /\ 0 <= v <= 1.
Proof.
  eexists. split; [vm_compute; reflexivity|].
  refine (proj1 (clarity_metrics_unit "What is the capital of France?" "clarity" _ _ _));
    [discriminate|vm_compute; reflexivity].
Defined.

Lemma sample_relevance_unit :
  exists v,
    calculate_relevance "What is the capital of France?" ["Paris"; "London"] None
      !! "relevance" = Some (VNum v)
    /\ 0 <= v <= 1.
Proof.
  eexists. split; [vm_compute; reflexivity|].
  refine (relevance_metrics_unit "What is the capital of France?" ["Paris"; "London"]
            None "relevance" _ _).
  vm_compute; reflexivity.
Defined.


Lemma sample_detailed_unit :
  exists v,
    calculate_distractor_quality_detailed "What is X?" "foo" ["bar"; "all of the above"]
      !! "distractor_quality_detailed" = Some (VNum v)
    /\ 0 <= v <= 1.
Proof.
  eexists. split; [vm_compute; reflexivity|].
  refine (detailed_metrics_unit "What is X?" "foo" ["bar"; "all of the above"]
            "distractor_quality_detailed" _ _ _ _);
    [discriminate|discriminate|vm_compute; reflexivity].
Defined.

(** X14 on three options. *)
Lemma sample_sos_pairs :
  (2 <= length ["red apple"; "green apple"; "blue plum"])%nat
  /\ exists similarities,
       calculate_sos ["red apple"; "green apple"; "blue plum"] !! "pairwise_similarities"
         = Some (VList similarities)
       /\ (2 * length similarities = 3 * 2)%nat.
Proof.
  assert (Hlen : (2 <= length ["red apple"; "green apple"; "blue plum"])%nat)
    by (cbn; lia).
  split; [exact Hlen|].
  destruct (sos_metrics_unit ["red apple"; "green apple"; "blue plum"])
    as (sos & diversity & _ & _ & _ & _ & Hpairs).
  destruct (Hpairs Hlen) as (similarities & Hlookup & _ & Hcount & _).
  exists similarities. split; [exact Hlookup|exact Hcount].
Defined.

(** X15 on two distractors. *)
Lemma sample_dps_scores :
  ["bar"; "baz"] <> ([] : list string)
  /\ exists scores,
       calculate_dps "What is X?" "foo" ["bar"; "baz"] None !! "DPS_per_distractor"
         = Some (VList scores)
       /\ length scores = 2%nat.
Proof.
  assert (Hne : ["bar"; "baz"] <> ([] : list string)) by discriminate.
  split; [exact Hne|].
  destruct (dps_unit "What is X?" "foo" ["bar"; "baz"] None)
    as (dps & _ & _ & _ & Hscores).
  destruct (Hscores Hne) as (scores & Hlookup & Hlen & _).
  exists scores. split; [exact Hlookup|exact Hlen].
Defined.

(** X22 and X23 on a text of five words. *)
Lemma sample_chunks_cover :
  (0 <= 1 < 3)%Z
  /\ exists chunks,
       chunk_text "a b  c d e" 3 1 = Some chunks
       /\ concat ((fun chunk => take 2 (split chunk)) <$> chunks)
          = ["a"; "b"; "c"; "d"; "e"].
Proof.
  assert (Hsizes : (0 <= 1 < 3)%Z) by lia.
  split; [exact Hsizes|].
  destruct (chunk_text_covers "a b  c d e" 3 1 Hsizes) as (chunks & Hchunks & _ & _ & Hcover).
  exists chunks. split; [exact Hchunks|exact Hcover].
Defined.

Lemma sample_chunks_edges :
  chunk_text "a b  c d e" 3 3 = None
  /\ chunk_text "a b  c d e" 3 5 = Some [].
Proof.
  split.
  - apply (proj1 (chunk_text_edges "a b  c d e" 3 3)). reflexivity.
  - apply (proj1 (proj2 (chunk_text_edges "a b  c d e" 3 5))). lia.
Defined.

(** X24 on two texts with the same words. *)
Lemma sample_clarity_words :
  split "What   is it?" = split "What is it?"
  /\ calculate_clarity "What   is it?" = calculate_clarity "What is it?".
Proof.
  assert (Hwords : split "What   is it?" = split "What is it?") by reflexivity.
  split; [exact Hwords|].
  apply (proj2 (clarity_depends_on_words "What is it?") "What   is it?" Hwords).
Defined.

(** X25 on the sample question, which has no answer. *)
Lemma sample_no_dps :
  exists results,
    evaluate_question_comprehensive sample_question None = Returns results
    /\ ~ is_Some (results !! "DPS").
Proof.
  destruct (evaluate_returns sample_question None) as [results Hresults];
    [left; reflexivity|].
  exists results. split; [exact Hresults|].
  intros Hdps.
  apply (proj1 (dps_present_iff sample_question None results Hresults)) in Hdps.
  destruct Hdps as (c & Hanswer & _). discriminate Hanswer.
Defined.

(** X26 on a text of two sentences. *)
Lemma sample_readability :
  exists syllables,
    calculate_readability_level "The cat sat. It ran away!" !! "avg_syllables_per_word"
      = Some (VNum syllables)
    /\ 1 <= syllables.
Proof.
  destruct (readability_bounds "The cat sat. It ran away!")
    as (grade & ease & sentence_length & syllables & level
        & _ & _ & _ & Hsyllables & Hlevel & _ & _ & _ & _ & _ & Hknown).
  exists syllables. split; [exact Hsyllables|].
  apply Hknown. intros Hunknown. rewrite Hunknown in Hlevel.
  vm_compute in Hlevel. discriminate Hlevel.
Defined.

(** X27 on a text with three counted words, asked for two keywords. *)
Lemma sample_keywords :
  (0 <= 2)%Z
  /\ extract_keywords "Trees and trees: a tree, the TREES grow." 2 = ["trees"; "tree"]
  /\ (Z.of_nat (length (extract_keywords "Trees and trees: a tree, the TREES grow." 2))
      <= 2)%Z.
Proof.
  assert (Hn : (0 <= 2)%Z) by lia.
  split; [exact Hn|]. split; [vm_compute; reflexivity|].
  destruct (extract_keywords_ranked "Trees and trees: a tree, the TREES grow." 2)
    as (_ & _ & _ & _ & Hlength & _).
  exact (Hlength Hn).
Defined.

(** X29 on the well-formed sample block and on a text without any of the
    words. *)
Lemma sample_reasoning :
  explanation (parse_question_block sample_block) <> EmptyString
  /\ extract_reasoning sample_block
     = join " " (split (explanation (parse_question_block sample_block)))
  /\ extract_reasoning "What is 2 + 2?" = no_explanation.
Proof.
  assert (Hfound : explanation (parse_question_block sample_block) <> EmptyString)
    by (vm_compute; discriminate).
  split; [exact Hfound|]. split.
  - apply (proj1 (proj2 (extract_reasoning_outcome sample_block)) Hfound).
  - reflexivity.
Defined.
